(** * Squadron qualification tracker: the qualification routes

    A shallow embedding of the server's qualification router
    (PUT /api/qualifications, POST /api/qualifications/bulk,
    GET /api/qualifications/stats, POST /api/qualifications/backfill),
    of the schema it runs against and of the role middleware, followed by
    the properties of the import reconciler, the readiness count and the
    backfill.

    The second half of the file covers the rest of the router and its
    callers: GET and DELETE /api/qualifications, [csvSafe] and the lines
    of the export, the CSV parser of the import page, the pending changes
    and the save loop of the skill board, and the bearer token between
    the client's headers and [authenticate].

    Conventions of the model.
    - UUID keys (wings, pilots, skills) are abstract identifiers, [nat].
    - Strings are [string]; [toUpperCase], [trim] and the case folding of
      ILIKE act on the ASCII range and leave every other byte alone.
    - A request field that a JSON body may omit is an [option string];
      the import contract gives records three string fields, so other
      JSON types are not represented.
    - The qualifications table carries UNIQUE(pilot_id, skill_id): it is a
      finite map keyed by that pair.  Pilots and skills are lists in the
      order in which the store returns their rows.
    - Every statement sent to the store may raise.  Which ones do is given
      by a fault schedule [nat -> bool] over the sequence number of the
      statement within the request.  The bulk route first asks the pool
      for a client; whether it gets one is a separate input, [connects]. *)

From Stdlib Require Import Ascii String.
From stdpp Require Import base gmap list strings pretty sorting.

Open Scope string_scope.

(** ** JavaScript string primitives used by the routes *)
Module Js.

Definition upper_ascii (a : ascii) : ascii :=
  let n := nat_of_ascii a in
  if (97 <=? n)%nat && (n <=? 122)%nat then ascii_of_nat (n - 32) else a.

Definition lower_ascii (a : ascii) : ascii :=
  let n := nat_of_ascii a in
  if (65 <=? n)%nat && (n <=? 90)%nat then ascii_of_nat (n + 32) else a.

(** [s.toUpperCase()] *)
Fixpoint toUpperCase (s : string) : string :=
  match s with
  | EmptyString => EmptyString
  | String a s' => String (upper_ascii a) (toUpperCase s')
  end.

(** White space removed by [trim]: TAB, LF, VT, FF, CR and SPACE. *)
Definition is_space (a : ascii) : bool :=
  let n := nat_of_ascii a in
  ((9 <=? n)%nat && (n <=? 13)%nat) || (n =? 32)%nat.

Fixpoint trimStart (s : string) : string :=
  match s with
  | EmptyString => EmptyString
  | String a s' => if is_space a then trimStart s' else s
  end.

Fixpoint trimEnd (s : string) : string :=
  match s with
  | EmptyString => EmptyString
  | String a s' =>
      match trimEnd s' with
      | EmptyString => if is_space a then EmptyString else String a EmptyString
      | t => String a t
      end
  end.

(** [s.trim()] *)
Definition trim (s : string) : string := trimEnd (trimStart s).

(** [!x] for a field that is a string when present: [undefined] and the
    empty string are falsy. *)
Definition falsy (x : option string) : bool :=
  match x with
  | None => true
  | Some EmptyString => true
  | Some _ => false
  end.

(** The string held by a field that passed the [!x] test. *)
Definition text (x : option string) : string := default EmptyString x.

(** [xs.includes(s)] on an array of strings. *)
Definition includes (xs : list string) (s : string) : bool :=
  existsb (String.eqb s) xs.

(** [xs.slice(0, n)] *)
Definition slice0 {A} (n : nat) (xs : list A) : list A := take n xs.

Arguments includes : simpl never.
Arguments slice0 : simpl never.

Definition dquote : string := String "034"%char EmptyString.

(** The template fragment ["${s}"] with its surrounding double quotes. *)
Definition quoted (s : string) : string := dquote +:+ s +:+ dquote.

(** [`Row ${i + 1}: `] *)
Definition row_prefix (i : nat) : string := "Row " +:+ pretty (i + 1)%nat +:+ ": ".

End Js.

(** ** The relational store *)
Module Sql.

(** *** ILIKE

    [%] matches any run of characters, [_] any one character, a
    backslash makes the next character literal; letters match without
    regard to case.  A pattern that ends in a lone backslash matches
    nothing: the engine raises when the matcher reaches it, and a
    statement that raises is a fault of the schedule. *)
Inductive tok := TAny | TOne | TLit (a : ascii).

Fixpoint tokens (p : string) : option (list tok) :=
  match p with
  | EmptyString => Some []
  | String "\" EmptyString => None
  | String "\" (String a p') => cons (TLit a) <$> tokens p'
  | String "%" p' => cons TAny <$> tokens p'
  | String "_" p' => cons TOne <$> tokens p'
  | String a p' => cons (TLit a) <$> tokens p'
  end.

Fixpoint like_match (p : list tok) (t : string) {struct p} : bool :=
  match p with
  | [] => match t with EmptyString => true | _ => false end
  | TLit c :: p' =>
      match t with
      | String a t' => Ascii.eqb (Js.lower_ascii a) (Js.lower_ascii c) && like_match p' t'
      | EmptyString => false
      end
  | TOne :: p' =>
      match t with
      | String _ t' => like_match p' t'
      | EmptyString => false
      end
  | TAny :: p' =>
      (fix from (t : string) : bool :=
         like_match p' t ||
         match t with
         | String _ t' => from t'
         | EmptyString => false
         end) t
  end.

(** [txt ILIKE pat] *)
Definition ilike (txt pat : string) : bool :=
  match tokens pat with
  | Some p => like_match p txt
  | None => false
  end.



(** *** Tables *)
Record pilot := Pilot { p_id : nat; p_callsign : string; p_wing_id : nat }.
Record skill := Skill { s_id : nat; s_name : string; s_wing_id : nat }.
Record qualification :=
  Qualification { q_status : string; q_last_updated : nat; q_updated_by : string }.

Record db := Db {
  pilots : list pilot;
  skills : list skill;
  qualifications : gmap (nat * nat) qualification
}.

Definition set_qualifications (q : gmap (nat * nat) qualification) (d : db) : db :=
  {| pilots := pilots d; skills := skills d; qualifications := q |}.

(** CHECK (status IN ('NMQ', 'MQT', 'FMQ', 'IP')) *)
Definition status_check (st : string) : bool :=
  Js.includes ["NMQ"; "MQT"; "FMQ"; "IP"] st.

(** The two REFERENCES clauses of the qualifications table. *)
Definition references_ok (pid sid : nat) (d : db) : bool :=
  existsb (fun p => (p_id p =? pid)%nat) (pilots d) &&
  existsb (fun s => (s_id s =? sid)%nat) (skills d).

(** SELECT id, wing_id FROM pilots WHERE callsign ILIKE $1 *)
Definition select_pilots_ilike (pat : string) (d : db) : list pilot :=
  List.filter (fun p => ilike (p_callsign p) pat) (pilots d).

(** SELECT id, wing_id FROM skills WHERE name ILIKE $1 *)
Definition select_skills_ilike (pat : string) (d : db) : list skill :=
  List.filter (fun s => ilike (s_name s) pat) (skills d).

(** SELECT wing_id FROM pilots WHERE id = $1 *)
Definition select_pilot_by_id (pid : nat) (d : db) : list pilot :=
  List.filter (fun p => (p_id p =? pid)%nat) (pilots d).

(** SELECT wing_id FROM skills WHERE id = $1 *)
Definition select_skill_by_id (sid : nat) (d : db) : list skill :=
  List.filter (fun s => (s_id s =? sid)%nat) (skills d).

(** INSERT INTO qualifications ... VALUES ($1, $2, $3, NOW(), $4)
    ON CONFLICT (pilot_id, skill_id)
    DO UPDATE SET status = $3, last_updated = NOW(), updated_by = $4.
    [None] when a constraint of the table rejects the row. *)
Definition upsert (pid sid : nat) (st : string) (now : nat) (by_ : string)
    (d : db) : option db :=
  if references_ok pid sid d && status_check st
  then Some (set_qualifications
               (<[(pid, sid) := Qualification st now by_]> (qualifications d)) d)
  else None.

(** INSERT INTO qualifications ... SELECT p.id, s.id, 'NMQ', NOW(), $1
    FROM pilots p CROSS JOIN skills s
    WHERE s.wing_id = p.wing_id AND NOT EXISTS (a row for (p.id, s.id))
    ON CONFLICT (pilot_id, skill_id) DO NOTHING.

    The SELECT is evaluated on the table as it stands before the
    statement; the rows it yields are then inserted one by one, a row
    whose key is taken being dropped.  The statement returns the table
    and its rowCount. *)
Definition backfill_select (d : db) : list (nat * nat) :=
  p ← pilots d;
  s ← skills d;
  if (s_wing_id s =? p_wing_id p)%nat &&
     negb (bool_decide (is_Some (qualifications d !! (p_id p, s_id s))))
  then [(p_id p, s_id s)] else [].

Definition insert_do_nothing (now : nat) (by_ : string)
    (acc : gmap (nat * nat) qualification * nat) (key : nat * nat)
    : gmap (nat * nat) qualification * nat :=
  match acc.1 !! key with
  | Some _ => acc
  | None => (<[key := Qualification "NMQ" now by_]> acc.1, S acc.2)
  end.

Definition backfill (now : nat) (by_ : string) (d : db) : db * nat :=
  let r := foldl (insert_do_nothing now by_) (qualifications d, 0%nat)
                 (backfill_select d) in
  (set_qualifications r.1 d, r.2).

(** *** The combat-ready count of the stats route

    SELECT COUNT(DISTINCT pilot_id) FROM (
      SELECT q.pilot_id, COUNT( * ) FROM qualifications q
      [JOIN pilots p ON q.pilot_id = p.id]
      WHERE q.status IN ('FMQ', 'IP') [AND p.wing_id = $1]
      GROUP BY q.pilot_id HAVING COUNT( * ) >= 3) *)
Definition fmq_or_ip (q : qualification) : bool :=
  Js.includes ["FMQ"; "IP"] (q_status q).

(** The pilot_id column of the rows that survive FROM ... WHERE. *)
Definition qualified_rows (wing : option nat) (d : db) : list nat :=
  match wing with
  | Some w =>
      row ← map_to_list (qualifications d);
      p ← pilots d;
      if (p_id p =? row.1.1)%nat && fmq_or_ip row.2 && (p_wing_id p =? w)%nat
      then [row.1.1] else []
  | None =>
      row ← map_to_list (qualifications d);
      if fmq_or_ip row.2 then [row.1.1] else []
  end.

(** GROUP BY k with COUNT( * ) *)
Definition group_count (ks : list nat) : list (nat * nat) :=
  (fun k => (k, length (List.filter (Nat.eqb k) ks))) <$> remove_dups ks.

(** HAVING COUNT( * ) >= n *)
Definition having_count_ge (n : nat) (groups : list (nat * nat)) : list (nat * nat) :=
  List.filter (fun g => (n <=? g.2)%nat) groups.

(** COUNT(DISTINCT k) *)
Definition count_distinct (ks : list nat) : nat := length (remove_dups ks).

Definition combat_ready_subquery (wing : option nat) (d : db) : list (nat * nat) :=
  having_count_ge 3 (group_count (qualified_rows wing d)).

Definition combat_ready_query (wing : option nat) (d : db) : nat :=
  count_distinct (fst <$> combat_ready_subquery wing d).

(** SELECT COUNT( * ) FROM pilots [WHERE wing_id = $1] *)
Definition total_pilots_query (wing : option nat) (d : db) : nat :=
  match wing with
  | Some w => length (List.filter (fun p => (p_wing_id p =? w)%nat) (pilots d))
  | None => length (pilots d)
  end.

End Sql.

(** ** A pooled connection: statements, faults and transactions *)
Module Tx.
Import Sql.

(** What the request sends to the store, in order. *)
Inductive stmt :=
| BEGIN
| COMMIT
| ROLLBACK
| SelectPilotsIlike (pat : string)
| SelectSkillsIlike (pat : string)
| SelectPilotById (pid : nat)
| SelectSkillById (sid : nat)
| Upsert (pid sid : nat) (st by_ : string)
| BackfillInsert (by_ : string)
| TotalPilots (wing : option nat)
| CombatReady (wing : option nat)
| Completion (wing : option nat).

(** [committed] is what every other connection sees.  [tx] is the
    private view of an open transaction.  [sent] counts the statements
    of the request, [log] records them. *)
Record conn := Conn {
  committed : db;
  tx : option db;
  sent : nat;
  log : list stmt
}.

Definition connect (d : db) : conn := Conn d None 0 [].

(** An awaited promise: a value, or a thrown error. *)
Inductive res (A : Type) := Val (a : A) | Thrown.
Arguments Val {A} a.
Arguments Thrown {A}.

Definition M (A : Type) : Type := conn -> res A * conn.

Definition ret {A} (a : A) : M A := fun c => (Val a, c).

Definition bind {A B} (m : M A) (k : A -> M B) : M B :=
  fun c => match m c with
           | (Val a, c') => k a c'
           | (Thrown, c') => (Thrown, c')
           end.

(** try { m } catch { h } *)
Definition try_catch {A} (m : M A) (h : M A) : M A :=
  fun c => match m c with
           | (Val a, c') => (Val a, c')
           | (Thrown, c') => h c'
           end.

Definition view (c : conn) : db :=
  match tx c with Some w => w | None => committed c end.

Definition put_view (d : db) (c : conn) : conn :=
  match tx c with
  | Some _ => Conn (committed c) (Some d) (sent c) (log c)
  | None => Conn d None (sent c) (log c)
  end.

Definition record_stmt (s : stmt) (c : conn) : conn :=
  Conn (committed c) (tx c) (S (sent c)) (log c ++ [s]).

Section WithFaults.
(** [faults n]: the [n]-th statement of the request raises. *)
Variable faults : nat -> bool.

(** A data statement: it reads and writes the connection's view, and
    raises when the schedule says so or when the store rejects it. *)
Definition query {A} (s : stmt) (run : db -> option (A * db)) : M A :=
  fun c =>
    let c' := record_stmt s c in
    if faults (sent c) then (Thrown, c')
    else match run (view c) with
         | Some (a, d') => (Val a, put_view d' c')
         | None => (Thrown, c')
         end.

(** A transaction-control statement. *)
Definition control (s : stmt) (f : conn -> conn) : M unit :=
  fun c =>
    let c' := record_stmt s c in
    if faults (sent c) then (Thrown, c') else (Val tt, f c').

Definition begin_ : M unit :=
  control BEGIN (fun c => Conn (committed c) (Some (view c)) (sent c) (log c)).

Definition commit : M unit :=
  control COMMIT (fun c => Conn (view c) None (sent c) (log c)).

Definition rollback : M unit :=
  control ROLLBACK (fun c => Conn (committed c) None (sent c) (log c)).

Definition select {A} (s : stmt) (f : db -> A) : M A :=
  query s (fun d => Some (f d, d)).

Definition execute (s : stmt) (f : db -> option db) : M unit :=
  query s (fun d => pair tt <$> f d).

End WithFaults.

(** [pool.connect()]: the pool hands out a client, or the promise rejects
    when no connection to the store can be had.  No statement is sent
    either way. *)
Definition pool_connect (connects : bool) : M unit :=
  fun c => if connects then (Val tt, c) else (Thrown, c).

End Tx.

Notation "'let*' x := m 'in' k" := (Tx.bind m (fun x => k))
  (at level 10, x name, m at level 100, k at level 200).

(** ** The role middleware *)
Module Auth.

(** [req.user], as decoded from the bearer token. *)
Record user := User {
  email : string;
  role : string;
  wing_id : option nat
}.

(** [requireRole(...roles)]: [roles.includes(req.user.role)] *)
Definition requireRole (roles : list string) (u : user) : bool :=
  Js.includes roles (role u).

(** [req.user.role === 'instructor'] *)
Definition is_instructor (u : user) : bool := String.eqb (role u) "instructor".

(** [w !== req.user.wing_id], the token's wing being optional. *)
Definition not_own_wing (w : nat) (u : user) : bool :=
  negb (bool_decide (Some w = wing_id u)).

End Auth.

(** ** The qualification router *)
Module Routes.
Import Sql Tx Auth.

(** One element of [req.body.records]. *)
Record record := Record_ {
  callsign : option string;
  skill_name : option string;
  status : option string
}.

(** [req.body.records] *)
Inductive records_field :=
| Absent
| NotArray
| Array (rs : list record).

(** The body of PUT /api/qualifications. *)
Record put_body := PutBody {
  put_pilot_id : option nat;
  put_skill_id : option nat;
  put_status : option string
}.

Inductive response :=
| Error (code : nat) (error : string)
| Report (imported skipped : nat) (errors : list string)
| Row (pilot_id skill_id : nat) (q : qualification)
| Stats (total_pilots combat_ready_pilots : nat)
| BackfillDone (rowsInserted : nat)
| Unanswered.

Definition validStatuses : list string := ["NMQ"; "MQT"; "FMQ"; "IP"].

(** The three accumulators of the import loop. *)
Record tally := Tally {
  imported : nat;
  skipped : nat;
  errors : list string
}.

(** [errors.push(msg); skipped++; continue] *)
Definition skip (msg : string) (t : tally) : tally :=
  Tally (imported t) (S (skipped t)) (errors t ++ [msg]).

(** [imported++] *)
Definition count_import (t : tally) : tally :=
  Tally (S (imported t)) (skipped t) (errors t).

Definition msg_missing (i : nat) : string :=
  Js.row_prefix i +:+ "missing callsign, skill_name, or status".
Definition msg_invalid_status (i : nat) (st : string) : string :=
  Js.row_prefix i +:+ "invalid status " +:+ Js.quoted st.
Definition msg_pilot_not_found (i : nat) (cs : string) : string :=
  Js.row_prefix i +:+ "pilot " +:+ Js.quoted cs +:+ " not found".
Definition msg_pilot_other_wing (i : nat) (cs : string) : string :=
  Js.row_prefix i +:+ "pilot " +:+ Js.quoted cs +:+ " is not in your wing".
Definition msg_skill_not_found (i : nat) (sn : string) : string :=
  Js.row_prefix i +:+ "skill " +:+ Js.quoted sn +:+ " not found".
Definition msg_skill_pilot_wing (i : nat) (sn : string) : string :=
  Js.row_prefix i +:+ "skill " +:+ Js.quoted sn +:+ " does not belong to pilot's wing".
Definition msg_skill_other_wing (i : nat) (sn : string) : string :=
  Js.row_prefix i +:+ "skill " +:+ Js.quoted sn +:+ " is not in your wing".

Section WithFaults.
Variable faults : nat -> bool.

(** The result of a handler: what it answered and the connection it
    leaves behind.  A handler whose promise rejects answers nothing. *)
Definition run (m : M response) (c : conn) : response * conn :=
  match m c with
  | (Val r, c') => (r, c')
  | (Thrown, c') => (Unanswered, c')
  end.

(** *** PUT /api/qualifications *)
Definition put_qualification (u : user) (now : nat) (b : put_body) : M response :=
  if negb (requireRole ["instructor"; "admin"] u) then
    ret (Error 403 "Insufficient permissions")
  else if bool_decide (put_pilot_id b = None) || bool_decide (put_skill_id b = None)
          || Js.falsy (put_status b) then
    ret (Error 400 "pilot_id, skill_id, and status are required")
  else
  let pilot_id := default 0%nat (put_pilot_id b) in
  let skill_id := default 0%nat (put_skill_id b) in
  let st := Js.text (put_status b) in
  if negb (Js.includes validStatuses st) then
    ret (Error 400 "Status must be one of: NMQ, MQT, FMQ, IP")
  else
  try_catch
    (let upsert_and_answer :=
       let* _ := execute faults (Upsert pilot_id skill_id st (email u))
                   (upsert pilot_id skill_id st now (email u)) in
       ret (Row pilot_id skill_id (Qualification st now (email u))) in
     if is_instructor u then
       let* pilotCheck := select faults (SelectPilotById pilot_id)
                            (select_pilot_by_id pilot_id) in
       match pilotCheck with
       | [] => ret (Error 404 "Pilot not found")
       | p :: _ =>
           if not_own_wing (p_wing_id p) u then
             ret (Error 403 "Instructors can only edit pilots in their own wing")
           else
           let* skillCheck := select faults (SelectSkillById skill_id)
                                (select_skill_by_id skill_id) in
           match skillCheck with
           | [] => ret (Error 404 "Skill not found")
           | s :: _ =>
               if not_own_wing (s_wing_id s) u then
                 ret (Error 403 "Skill does not belong to your wing")
               else upsert_and_answer
           end
       end
     else upsert_and_answer)
    (ret (Error 500 "Internal server error")).

(** *** POST /api/qualifications/bulk: the body of the [for] loop *)
Definition import_record (u : user) (now : nat) (i : nat) (r : record)
    (t : tally) : M tally :=
  if Js.falsy (callsign r) || Js.falsy (skill_name r) || Js.falsy (status r) then
    ret (skip (msg_missing i) t)
  else
  let cs := Js.text (callsign r) in
  let sn := Js.text (skill_name r) in
  let st := Js.text (status r) in
  if negb (Js.includes validStatuses (Js.toUpperCase st)) then
    ret (skip (msg_invalid_status i st) t)
  else
  let* pilotResult := select faults (SelectPilotsIlike (Js.trim cs))
                        (select_pilots_ilike (Js.trim cs)) in
  match pilotResult with
  | [] => ret (skip (msg_pilot_not_found i cs) t)
  | p :: _ =>
      let pilotId := p_id p in
      let pilotWingId := p_wing_id p in
      if is_instructor u && not_own_wing pilotWingId u then
        ret (skip (msg_pilot_other_wing i cs) t)
      else
      let* skillResult := select faults (SelectSkillsIlike (Js.trim sn))
                            (select_skills_ilike (Js.trim sn)) in
      match skillResult with
      | [] => ret (skip (msg_skill_not_found i sn) t)
      | s :: _ =>
          let skillId := s_id s in
          let skillWingId := s_wing_id s in
          if negb (skillWingId =? pilotWingId)%nat then
            ret (skip (msg_skill_pilot_wing i sn) t)
          else if is_instructor u && not_own_wing skillWingId u then
            ret (skip (msg_skill_other_wing i sn) t)
          else
          let* _ := execute faults
                      (Upsert pilotId skillId (Js.toUpperCase st) (email u))
                      (upsert pilotId skillId (Js.toUpperCase st) now (email u)) in
          ret (count_import t)
      end
  end.

(** [for (let i = 0; i < records.length; i++)], entered at index [i]. *)
Fixpoint import_loop (u : user) (now : nat) (i : nat) (rs : list record)
    (t : tally) : M tally :=
  match rs with
  | [] => ret t
  | r :: rs' =>
      let* t' := import_record u now i r t in
      import_loop u now (S i) rs' t'
  end.

(** *** POST /api/qualifications/bulk

    [connects] says whether [pool.connect()] resolves.  The client is
    asked for after the guards and outside the [try]: a rejection is not
    caught, so nothing is sent and nothing is answered. *)
Definition bulk_import (connects : bool) (u : user) (now : nat) (body : records_field)
    : M response :=
  if negb (requireRole ["instructor"; "admin"] u) then
    ret (Error 403 "Insufficient permissions")
  else
  match body with
  | Absent | NotArray | Array [] => ret (Error 400 "records array is required")
  | Array records =>
      if (1000 <? length records)%nat then
        ret (Error 400 "Maximum 1000 records per import")
      else
      let* _ := pool_connect connects in
      try_catch
        (let* _ := begin_ faults in
         let* t := import_loop u now 0 records (Tally 0 0 []) in
         let* _ := commit faults in
         ret (Report (imported t) (skipped t) (Js.slice0 20 (errors t))))
        (let* _ := rollback faults in
         ret (Error 500 "Internal server error"))
  end.

(** *** GET /api/qualifications/stats

    The three statements are sent together ([Promise.all]).  The two
    percentages of the answer are floating-point quotients and are
    left out; the completion statement is sent but its rows only feed
    those quotients. *)
Definition stats_queries (wing : option nat) : M (nat * nat) :=
  fun c =>
    let c3 := record_stmt (Completion wing)
                (record_stmt (CombatReady wing)
                   (record_stmt (TotalPilots wing) c)) in
    if faults (sent c) || faults (S (sent c)) || faults (S (S (sent c)))
    then (Thrown, c3)
    else (Val (total_pilots_query wing (view c), combat_ready_query wing (view c)), c3).

Definition stats (wing : option nat) : M response :=
  try_catch
    (let* counts := stats_queries wing in
     ret (Stats counts.1 counts.2))
    (ret (Error 500 "Internal server error")).

(** *** POST /api/qualifications/backfill *)
Definition backfill_route (u : user) (now : nat) : M response :=
  if negb (requireRole ["admin"] u) then
    ret (Error 403 "Insufficient permissions")
  else
  try_catch
    (let* rowCount := query faults (BackfillInsert (email u))
                        (fun d => let r := backfill now (email u) d in Some (r.2, r.1)) in
     ret (BackfillDone rowCount))
    (ret (Error 500 "Internal server error")).

End WithFaults.

End Routes.

(** ** Reference semantics of the import and of the reports

    Pure descriptions against which the handlers are proved: what one
    record amounts to, which statements a fault-free request sends, the
    seven validation checks taken one by one, and the invariants of the
    schema. *)
Module Reference.
Import Sql Tx Auth Routes.

Definition no_faults : nat -> bool := fun _ => false.

(** The offset of the first statement that raises among the [len]
    statements sent from sequence number [start] on. *)
Fixpoint first_fault (faults : nat -> bool) (start len : nat) : option nat :=
  match len with
  | O => None
  | S len' =>
      if faults start then Some 0%nat
      else S <$> first_fault faults (S start) len'
  end.

(** What the loop body decides for a record. *)
Inductive verdict :=
| Skip (msg : string)
| Accept (pilot_id skill_id : nat) (st : string).

(** The decision for record [i] and the statements it takes, read off
    the tables of [d]. *)
Definition plan_record (u : user) (d : db) (i : nat) (r : record)
    : verdict * list stmt :=
  if Js.falsy (callsign r) || Js.falsy (skill_name r) || Js.falsy (status r) then
    (Skip (msg_missing i), [])
  else
  let cs := Js.text (callsign r) in
  let sn := Js.text (skill_name r) in
  let st := Js.text (status r) in
  if negb (Js.includes validStatuses (Js.toUpperCase st)) then
    (Skip (msg_invalid_status i st), [])
  else
  let q1 := SelectPilotsIlike (Js.trim cs) in
  match select_pilots_ilike (Js.trim cs) d with
  | [] => (Skip (msg_pilot_not_found i cs), [q1])
  | p :: _ =>
      if is_instructor u && not_own_wing (p_wing_id p) u then
        (Skip (msg_pilot_other_wing i cs), [q1])
      else
      let q2 := SelectSkillsIlike (Js.trim sn) in
      match select_skills_ilike (Js.trim sn) d with
      | [] => (Skip (msg_skill_not_found i sn), [q1; q2])
      | s :: _ =>
          if negb (s_wing_id s =? p_wing_id p)%nat then
            (Skip (msg_skill_pilot_wing i sn), [q1; q2])
          else if is_instructor u && not_own_wing (s_wing_id s) u then
            (Skip (msg_skill_other_wing i sn), [q1; q2])
          else
            (Accept (p_id p) (s_id s) (Js.toUpperCase st),
             [q1; q2; Upsert (p_id p) (s_id s) (Js.toUpperCase st) (email u)])
      end
  end.

Definition verdict_of (u : user) (d : db) (i : nat) (r : record) : verdict :=
  (plan_record u d i r).1.

Definition tally_step (v : verdict) (t : tally) : tally :=
  match v with
  | Skip msg => skip msg t
  | Accept _ _ _ => count_import t
  end.

Definition effect (now : nat) (by_ : string) (v : verdict) (w : db) : db :=
  match v with
  | Skip _ => w
  | Accept pid sid st =>
      set_qualifications (<[(pid, sid) := Qualification st now by_]> (qualifications w)) w
  end.

(** Two verdicts that agree on everything but the text of a message. *)
Definition same_outcome (v v' : verdict) : Prop :=
  match v, v' with
  | Skip _, Skip _ => True
  | Accept pid sid st, Accept pid' sid' st' => pid = pid' ∧ sid = sid' ∧ st = st'
  | _, _ => False
  end.

Definition is_skip (v : verdict) : bool :=
  match v with Skip _ => true | Accept _ _ _ => false end.

(** The batch from index [i] on: statements, tally and working table. *)
Fixpoint plan_loop (u : user) (d : db) (i : nat) (rs : list record) : list stmt :=
  match rs with
  | [] => []
  | r :: rs' => (plan_record u d i r).2 ++ plan_loop u d (S i) rs'
  end.

Fixpoint tally_loop (u : user) (d : db) (i : nat) (rs : list record) (t : tally) : tally :=
  match rs with
  | [] => t
  | r :: rs' => tally_loop u d (S i) rs' (tally_step (verdict_of u d i r) t)
  end.

Fixpoint effect_loop (u : user) (now : nat) (d : db) (i : nat) (rs : list record)
    (w : db) : db :=
  match rs with
  | [] => w
  | r :: rs' => effect_loop u now d (S i) rs' (effect now (email u) (verdict_of u d i r) w)
  end.

(** Every statement of a fault-free import. *)
Definition plan_bulk (u : user) (d : db) (rs : list record) : list stmt :=
  BEGIN :: plan_loop u d 0 rs ++ [COMMIT].

(** The messages of the records that fail validation, in batch order. *)
Fixpoint failure_messages (u : user) (d : db) (i : nat) (rs : list record) : list string :=
  match rs with
  | [] => []
  | r :: rs' =>
      match verdict_of u d i r with
      | Skip msg => msg :: failure_messages u d (S i) rs'
      | Accept _ _ _ => failure_messages u d (S i) rs'
      end
  end.

(** The number of records that fail validation. *)
Definition failures (u : user) (d : db) (rs : list record) : nat :=
  length (List.filter (fun r => is_skip (verdict_of u d 0 r)) rs).

(** *** The seven checks of the validation pipeline

    Each check on its own, as the specification words it.  A check that
    speaks of the pilot or of the skill of a record passes when the lookup
    found none. *)
Definition check := user -> db -> nat -> record -> option string.

Definition first_pilot (d : db) (r : record) : option pilot :=
  head (select_pilots_ilike (Js.trim (Js.text (callsign r))) d).

Definition first_skill (d : db) (r : record) : option skill :=
  head (select_skills_ilike (Js.trim (Js.text (skill_name r))) d).

Definition check_fields : check := fun _ _ i r =>
  if Js.falsy (callsign r) || Js.falsy (skill_name r) || Js.falsy (status r)
  then Some (msg_missing i) else None.

Definition check_status : check := fun _ _ i r =>
  if Js.includes validStatuses (Js.toUpperCase (Js.text (status r)))
  then None else Some (msg_invalid_status i (Js.text (status r))).

Definition check_pilot_found : check := fun _ d i r =>
  match first_pilot d r with
  | Some _ => None
  | None => Some (msg_pilot_not_found i (Js.text (callsign r)))
  end.

Definition check_skill_found : check := fun _ d i r =>
  match first_skill d r with
  | Some _ => None
  | None => Some (msg_skill_not_found i (Js.text (skill_name r)))
  end.

Definition check_pilot_in_caller_wing : check := fun u d i r =>
  match first_pilot d r with
  | Some p =>
      if is_instructor u && not_own_wing (p_wing_id p) u
      then Some (msg_pilot_other_wing i (Js.text (callsign r))) else None
  | None => None
  end.

Definition check_skill_in_pilot_wing : check := fun _ d i r =>
  match first_pilot d r, first_skill d r with
  | Some p, Some s =>
      if (s_wing_id s =? p_wing_id p)%nat then None
      else Some (msg_skill_pilot_wing i (Js.text (skill_name r)))
  | _, _ => None
  end.

Definition check_skill_in_caller_wing : check := fun u d i r =>
  match first_skill d r with
  | Some s =>
      if is_instructor u && not_own_wing (s_wing_id s) u
      then Some (msg_skill_other_wing i (Js.text (skill_name r))) else None
  | None => None
  end.

(** The message of the first check of [cs] that fails. *)
Fixpoint first_failure (cs : list check) (u : user) (d : db) (i : nat) (r : record)
    : option string :=
  match cs with
  | [] => None
  | c :: cs' =>
      match c u d i r with
      | Some msg => Some msg
      | None => first_failure cs' u d i r
      end
  end.

(** The order in which the specification lists the checks. *)
Definition spec_order : list check :=
  [check_fields; check_status; check_pilot_found; check_skill_found;
   check_pilot_in_caller_wing; check_skill_in_pilot_wing; check_skill_in_caller_wing].

(** The order in which the loop body runs them. *)
Definition source_order : list check :=
  [check_fields; check_status; check_pilot_found; check_pilot_in_caller_wing;
   check_skill_found; check_skill_in_pilot_wing; check_skill_in_caller_wing].

(** *** Schema invariants *)

(** PRIMARY KEY of pilots and of skills. *)
Definition unique_ids (d : db) : Prop :=
  NoDup (p_id <$> pilots d) ∧ NoDup (s_id <$> skills d).

(** REFERENCES pilots(id) of the qualifications table. *)
Definition pilots_referenced (d : db) : Prop :=
  ∀ pid sid q, qualifications d !! (pid, sid) = Some q →
    ∃ p, p ∈ pilots d ∧ p_id p = pid.

(** No qualification pairs a pilot and a skill of different wings. *)
Definition same_wing (d : db) : Prop :=
  ∀ pid sid q p s,
    qualifications d !! (pid, sid) = Some q →
    p ∈ pilots d → s ∈ skills d → p_id p = pid → s_id s = sid →
    p_wing_id p = s_wing_id s.

(** *** Combat readiness, as the specification defines it

    In the specification's words: a pilot is combat-ready if they hold
    status FMQ or IP on 3 or more distinct skills.  Nothing here is taken
    from the statement of the route. *)

(** The qualification has status FMQ or IP. *)
Definition status_fmq_or_ip (q : qualification) : bool :=
  bool_decide (q_status q = "FMQ" ∨ q_status q = "IP").

(** The skills on which pilot [pid] holds status FMQ or IP. *)
Definition qualified_skills (d : db) (pid : nat) : gset nat :=
  list_to_set
    ((fun row : nat * nat * qualification => row.1.2) <$>
     List.filter (fun row : nat * nat * qualification =>
                    (row.1.1 =? pid)%nat && status_fmq_or_ip row.2)
                 (map_to_list (qualifications d))).

Definition combat_ready (d : db) (pid : nat) : bool :=
  (3 <=? size (qualified_skills d pid))%nat.

Definition in_wing (wing : option nat) (p : pilot) : bool :=
  match wing with
  | Some w => (p_wing_id p =? w)%nat
  | None => true
  end.

Definition combat_ready_count (wing : option nat) (d : db) : nat :=
  length (List.filter (fun p => in_wing wing p && combat_ready d (p_id p)) (pilots d)).

(** *** Counting in the combat-ready statement *)

(** The number of occurrences of [k], as COUNT( * ) sees the group of [k]. *)
Definition occ (k : nat) (ks : list nat) : nat := length (List.filter (Nat.eqb k) ks).

(** The FMQ or IP rows of pilot [k]. *)
Definition held (k : nat) (rows : list (nat * nat * qualification))
    : list (nat * nat * qualification) :=
  List.filter (fun row => (row.1.1 =? k)%nat && fmq_or_ip row.2) rows.

(** The pilots with id [k] in wing [w]: at most one under the primary key. *)
Definition wing_pilots (w k : nat) (ps : list pilot) : list pilot :=
  List.filter (fun p => (p_id p =? k)%nat && (p_wing_id p =? w)%nat) ps.

(** *** Padding a field with white space *)
Fixpoint blank (s : string) : bool :=
  match s with
  | EmptyString => true
  | String a s' => Js.is_space a && blank s'
  end.

Fixpoint has_space (s : string) : bool :=
  match s with
  | EmptyString => false
  | String a s' => Js.is_space a || has_space s'
  end.

Definition pad (l s r : string) : string := l +:+ s +:+ r.

Definition pad_field (l r : string) (x : option string) : option string :=
  (fun s => pad l s r) <$> x.

End Reference.

(** ** A small squadron used for the concrete runs *)
Module Example.
Import Sql Tx Auth Routes Reference.

(** Wing 1 has VIPER and the skill Startup, wing 2 has GHOST and
    Landing.  No qualification is recorded yet. *)
Definition squadron : db :=
  Db [Pilot 1 "VIPER" 1; Pilot 2 "GHOST" 2]
     [Skill 10 "Startup" 1; Skill 20 "Landing" 2]
     ∅.

Definition instructor1 : user := User "lead@wing1" "instructor" (Some 1%nat).
Definition admin : user := User "root@hq" "admin" None.

Definition viper_startup : record :=
  Record_ (Some "viper") (Some "STARTUP") (Some "fmq").
Definition ghost_unknown_skill : record :=
  Record_ (Some "GHOST") (Some "Nope") (Some "FMQ").
Definition ghost_landing : record :=
  Record_ (Some "GHOST") (Some "Landing") (Some "IP").
Definition viper_startup_status_padded : record :=
  Record_ (Some "VIPER") (Some "Startup") (Some "FMQ ").
Definition viper_startup_plain : record :=
  Record_ (Some "VIPER") (Some "Startup") (Some "FMQ").
Definition any_pilot_startup : record :=
  Record_ (Some "%") (Some "Startup") (Some "ip").

Definition only_fault_at (k : nat) : nat -> bool := fun n => (n =? k)%nat.

(** The store is unavailable from statement [k] on. *)
Definition down_from (k : nat) : nat -> bool := fun n => (k <=? n)%nat.

(** A third pilot and two more skills in wing 1.  VIPER holds FMQ or IP
    on three skills, MAVERICK on two. *)
Definition trained_squadron : db :=
  Db [Pilot 1 "VIPER" 1; Pilot 2 "GHOST" 2; Pilot 3 "MAVERICK" 1]
     [Skill 10 "Startup" 1; Skill 11 "Taxi" 1; Skill 12 "Formation" 1;
      Skill 20 "Landing" 2]
     (list_to_map
        [((1, 10), Qualification "FMQ" 1 "lead@wing1");
         ((1, 11), Qualification "IP" 1 "lead@wing1");
         ((1, 12), Qualification "FMQ" 1 "lead@wing1");
         ((3, 10), Qualification "FMQ" 2 "lead@wing1");
         ((3, 11), Qualification "FMQ" 2 "lead@wing1");
         ((3, 12), Qualification "MQT" 2 "lead@wing1")]%nat).

(** An admin pairs VIPER (wing 1) with Landing (wing 2). *)
Definition put_viper_landing : put_body :=
  PutBody (Some 1%nat) (Some 20%nat) (Some "FMQ").

End Example.

(** ** Routes that use the pool directly

    GET and DELETE /api/qualifications send their statements with
    [pool.query]: each statement commits on its own and no transaction is
    opened. *)
Module Pool.
Import Sql Tx Auth.

Inductive statement :=
| SelectPilotWing (pid : nat)
| SelectQualifications (pilot_id : option nat)
| DeleteQualification (pid sid : nat).

(** The tables and the statements the request has sent so far. *)
Record session := Session {
  tables : db;
  issued : list statement
}.

Definition open (d : db) : session := Session d [].

Definition P (A : Type) : Type := session -> res A * session.

Definition pret {A} (a : A) : P A := fun c => (Val a, c).

Definition pbind {A B} (m : P A) (k : A -> P B) : P B :=
  fun c => match m c with
           | (Val a, c') => k a c'
           | (Thrown, c') => (Thrown, c')
           end.

(** try { m } catch { h } *)
Definition ptry {A} (m : P A) (h : P A) : P A :=
  fun c => match m c with
           | (Val a, c') => (Val a, c')
           | (Thrown, c') => h c'
           end.

(** [pool.query]: the statement raises when the schedule says so. *)
Definition pool_query {A} (faults : nat -> bool) (s : statement)
    (run : db -> A * db) : P A :=
  fun c =>
    if faults (length (issued c)) then (Thrown, Session (tables c) (issued c ++ [s]))
    else let r := run (tables c) in (Val r.1, Session r.2 (issued c ++ [s])).

(** One row of [SELECT * FROM qualifications]. *)
Definition qrow : Type := nat * nat * qualification.

(** ORDER BY skill_id *)
Definition by_skill : relation qrow := fun r1 r2 => (r1.1.2 <= r2.1.2)%nat.

(** ORDER BY pilot_id, skill_id *)
Definition by_pilot_skill : relation qrow := fun r1 r2 =>
  (r1.1.1 < r2.1.1)%nat ∨ (r1.1.1 = r2.1.1 ∧ (r1.1.2 <= r2.1.2)%nat).

#[export] Instance by_skill_dec : RelDecision by_skill.
Proof. intros r1 r2. unfold by_skill. apply _. Defined.

#[export] Instance by_pilot_skill_dec : RelDecision by_pilot_skill.
Proof. intros r1 r2. unfold by_pilot_skill. apply _. Defined.

(** SELECT * FROM qualifications WHERE pilot_id = $1 ORDER BY skill_id *)
Definition select_by_pilot (pid : nat) (d : db) : list qrow :=
  merge_sort by_skill
    (List.filter (fun r : qrow => (r.1.1 =? pid)%nat) (map_to_list (qualifications d))).

(** SELECT * FROM qualifications ORDER BY pilot_id, skill_id *)
Definition select_all (d : db) : list qrow :=
  merge_sort by_pilot_skill (map_to_list (qualifications d)).

(** DELETE FROM qualifications WHERE pilot_id = $1 AND skill_id = $2
    RETURNING *: the rowCount and the table. *)
Definition delete_row (pid sid : nat) (d : db) : nat * db :=
  match qualifications d !! (pid, sid) with
  | Some _ => (1%nat, set_qualifications (delete (pid, sid) (qualifications d)) d)
  | None => (0%nat, d)
  end.

(** The body of DELETE /api/qualifications. *)
Record delete_body := DeleteBody {
  del_pilot_id : option nat;
  del_skill_id : option nat
}.

Inductive reply :=
| Fail (code : nat) (error : string)
| Listing (rows : list qrow)
| Deleted
| NoReply.

Definition answer (m : P reply) (c : session) : reply * session :=
  match m c with
  | (Val r, c') => (r, c')
  | (Thrown, c') => (NoReply, c')
  end.

Section WithFaults.
Variable faults : nat -> bool.

(** *** GET /api/qualifications

    [pilotId] is the [pilot_id] parameter of the query, [None] when it is
    absent or empty ([if (pilotId)]).  A parameter that the store cannot
    read as a key makes the statement raise. *)
Definition get_qualifications (pilotId : option nat) : P reply :=
  ptry
    (pbind
       (match pilotId with
        | Some pid =>
            pool_query faults (SelectQualifications (Some pid))
              (fun d => (select_by_pilot pid d, d))
        | None =>
            pool_query faults (SelectQualifications None)
              (fun d => (select_all d, d))
        end)
       (fun rows => pret (Listing rows)))
    (pret (Fail 500 "Internal server error")).

(** *** DELETE /api/qualifications *)
Definition delete_qualification (u : user) (b : delete_body) : P reply :=
  if negb (requireRole ["instructor"; "admin"] u) then
    pret (Fail 403 "Insufficient permissions")
  else if bool_decide (del_pilot_id b = None) || bool_decide (del_skill_id b = None) then
    pret (Fail 400 "pilot_id and skill_id are required")
  else
  let pilot_id := default 0%nat (del_pilot_id b) in
  let skill_id := default 0%nat (del_skill_id b) in
  ptry
    (let delete_and_answer :=
       pbind (pool_query faults (DeleteQualification pilot_id skill_id)
                (delete_row pilot_id skill_id))
             (fun rowCount =>
                if (rowCount =? 0)%nat then pret (Fail 404 "Qualification not found")
                else pret Deleted) in
     if is_instructor u then
       pbind (pool_query faults (SelectPilotWing pilot_id)
                (fun d => (select_pilot_by_id pilot_id d, d)))
             (fun pilotCheck =>
                match pilotCheck with
                | [] => pret (Fail 404 "Pilot not found")
                | p :: _ =>
                    if not_own_wing (p_wing_id p) u then
                      pret (Fail 403 "Instructors can only edit pilots in their own wing")
                    else delete_and_answer
                end)
     else delete_and_answer)
    (pret (Fail 500 "Internal server error")).

End WithFaults.

End Pool.

(** ** What the write routes keep and what a batch amounts to *)
Module Invariants.
Import Sql Tx Auth Routes Reference.

(** CHECK (status IN ...) holds of every stored row. *)
Definition statuses_valid (d : db) : Prop :=
  ∀ k q, qualifications d !! k = Some q → status_check (q_status q) = true.

(** Both REFERENCES clauses hold of every stored row. *)
Definition rows_referenced (d : db) : Prop :=
  ∀ pid sid q, qualifications d !! (pid, sid) = Some q → references_ok pid sid d = true.

(** The status of the last record of the batch, from index [i] on, that
    is accepted for the pair [key]. *)
Fixpoint last_accept (u : user) (d : db) (i : nat) (rs : list record)
    (key : nat * nat) : option string :=
  match rs with
  | [] => None
  | r :: rs' =>
      match last_accept u d (S i) rs' key with
      | Some st => Some st
      | None =>
          match verdict_of u d i r with
          | Accept pid sid st => if bool_decide ((pid, sid) = key) then Some st else None
          | Skip _ => None
          end
      end
  end.

(** [d'] has the pilots and the skills of [d], and every row of [d'] is
    a row of [d] or passes the CHECK and both REFERENCES clauses. *)
Definition rows_from (d d' : db) : Prop :=
  pilots d' = pilots d ∧ skills d' = skills d ∧
  ∀ pid sid q, qualifications d' !! (pid, sid) = Some q →
    qualifications d !! (pid, sid) = Some q ∨
    (status_check (q_status q) = true ∧ references_ok pid sid d = true).

End Invariants.

(** ** CSV: the export of the server and the import of the client *)
Module Csv.
Import Routes.

(** The characters of the class [[=+\-@\t\r]]. *)
Definition formula_char (a : ascii) : bool :=
  existsb (Ascii.eqb a) ["="; "+"; "-"; "@"; "009"; "013"]%char.

(** [s.replace(/^[=+\-@\t\r]+/, '')] *)
Fixpoint strip_formula (s : string) : string :=
  match s with
  | EmptyString => EmptyString
  | String a s' => if formula_char a then strip_formula s' else s
  end.

(** [csvSafe(value)], a null value being read as the empty string. *)
Definition csvSafe (value : option string) : string :=
  strip_formula (Js.text value).

(** [xs.join(sep)] *)
Fixpoint join (sep : string) (xs : list string) : string :=
  match xs with
  | [] => EmptyString
  | [x] => x
  | x :: xs' => x +:+ sep +:+ join sep xs'
  end.

(** One row of the export statement; a column is [None] when it is null.
    [last_updated] is the timestamp as the template literal renders it. *)
Record export_row := ExportRow {
  e_callsign : option string;
  e_first_name : option string;
  e_last_name : option string;
  e_wing_name : option string;
  e_category : option string;
  e_skill_name : option string;
  e_status : option string;
  e_last_updated : option string;
  e_updated_by : option string
}.

Definition export_headers : list string :=
  ["Callsign"; "First Name"; "Last Name"; "Wing"; "Category"; "Skill"; "Status";
   "Last Updated"; "Updated By"].

(** The line pushed for one row of the result. *)
Definition export_line (row : export_row) : string :=
  join ","
    [Js.quoted (csvSafe (e_callsign row));
     Js.quoted (csvSafe (e_first_name row));
     Js.quoted (csvSafe (e_last_name row));
     Js.quoted (csvSafe (e_wing_name row));
     Js.quoted (csvSafe (e_category row));
     Js.quoted (csvSafe (e_skill_name row));
     Js.quoted (csvSafe (e_status row));
     Js.quoted (Js.text (e_last_updated row));
     Js.quoted (csvSafe (e_updated_by row))].

(** The body sent by GET /api/qualifications/export for the rows of the
    statement. *)
Definition export_csv (rows : list export_row) : string :=
  join (String "010"%char EmptyString)
       (join "," export_headers :: (export_line <$> rows)).

(** [s.split(sep)] for a separator of one character. *)
Fixpoint split (sep : ascii) (s : string) : list string :=
  match s with
  | EmptyString => [EmptyString]
  | String a s' =>
      if Ascii.eqb a sep then EmptyString :: split sep s'
      else match split sep s' with
           | cur :: rest => String a cur :: rest
           | [] => [String a EmptyString]
           end
  end.

(** [s.replace] with the global pattern of one double quote and the
    empty replacement: every double quote is removed. *)
Fixpoint unquote (s : string) : string :=
  match s with
  | EmptyString => EmptyString
  | String a s' => if Ascii.eqb a "034"%char then unquote s' else String a (unquote s')
  end.

(** [s.toLowerCase()] *)
Fixpoint toLowerCase (s : string) : string :=
  match s with
  | EmptyString => EmptyString
  | String a s' => String (Js.lower_ascii a) (toLowerCase s')
  end.

(** [xs.findIndex(f)], [None] standing for -1. *)
Fixpoint findIndex {A} (f : A -> bool) (xs : list A) : option nat :=
  match xs with
  | [] => None
  | x :: xs' => if f x then Some 0%nat else S <$> findIndex f xs'
  end.

(** The [for] loop over the characters of a line and the push that
    follows it. *)
Fixpoint scan (line : string) (fields : list string) (current : string)
    (inQuote : bool) : list string :=
  match line with
  | EmptyString => fields ++ [Js.trim current]
  | String char rest =>
      if Ascii.eqb char "034"%char then scan rest fields current (negb inQuote)
      else if Ascii.eqb char ","%char && negb inQuote then
        scan rest (fields ++ [Js.trim current]) EmptyString inQuote
      else scan rest fields (current +:+ String char EmptyString) inQuote
  end.

Definition parse_line (line : string) : list string :=
  scan line [] EmptyString false.

(** [fields[idx] || ''] *)
Definition field (fields : list string) (idx : nat) : string :=
  default EmptyString (fields !! idx).

Inductive parsed :=
| Throws (message : string)
| Records (records : list record).

Definition is_skill_header (h : string) : bool :=
  String.eqb h "skill" || String.eqb h "skill_name" || String.eqb h "skill name".

(** [l.trim()] as a condition: the empty string is falsy. *)
Definition truthy (s : string) : bool :=
  match s with
  | EmptyString => false
  | String _ _ => true
  end.

(** [parseCsv(text)] of the import section. *)
Definition parseCsv (text : string) : parsed :=
  match split "010"%char (Js.trim text) with
  | [] | [_] => Records []
  | first :: rest =>
      let headers :=
        (fun h => toLowerCase (unquote (Js.trim h))) <$> split ","%char first in
      match findIndex (fun h => String.eqb h "callsign") headers,
            findIndex is_skill_header headers,
            findIndex (fun h => String.eqb h "status") headers with
      | Some callsignIdx, Some skillIdx, Some statusIdx =>
          Records
            ((fun line =>
                let fields := parse_line line in
                Record_ (Some (field fields callsignIdx))
                        (Some (field fields skillIdx))
                        (Some (field fields statusIdx))) <$>
             List.filter (fun l => truthy (Js.trim l)) rest)
      | _, _, _ =>
          Throws "CSV must have Callsign, Skill (or Skill_Name), and Status columns"
      end
  end.

(** Whether the character occurs in the string. *)
Fixpoint has_char (a : ascii) (s : string) : bool :=
  match s with
  | EmptyString => false
  | String b s' => Ascii.eqb b a || has_char a s'
  end.

(** A field free of double quotes and of line feeds. *)
Definition plain (x : option string) : bool :=
  negb (has_char "034"%char (Js.text x)) && negb (has_char "010"%char (Js.text x)).

Definition plain_row (row : export_row) : bool :=
  plain (e_callsign row) && plain (e_first_name row) && plain (e_last_name row) &&
  plain (e_wing_name row) && plain (e_category row) && plain (e_skill_name row) &&
  plain (e_status row) && plain (e_last_updated row) && plain (e_updated_by row).

(** The record the import reads off an exported row. *)
Definition reimported (row : export_row) : record :=
  Record_ (Some (Js.trim (csvSafe (e_callsign row))))
          (Some (Js.trim (csvSafe (e_skill_name row))))
          (Some (Js.trim (csvSafe (e_status row)))).

End Csv.

(** ** The skill board of the client

    The page holds the qualifications it fetched and the changes that
    are not saved yet.  Of a qualification only the pilot, the skill and
    the status are kept here. *)
Module Board.
Import Sql Tx Auth Routes Pool.

Record cell := Cell {
  c_pilot_id : nat;
  c_skill_id : nat;
  c_status : string
}.

(** [PendingChange] *)
Record change := Change {
  pilotId : nat;
  skillId : nat;
  new_status : string
}.

(** [q.pilot_id === pilotId && q.skill_id === skillId] *)
Definition at_cell (pid sid : nat) (q : cell) : bool :=
  (c_pilot_id q =? pid)%nat && (c_skill_id q =? sid)%nat.

(** [c.pilotId === pilotId && c.skillId === skillId] *)
Definition for_cell (pid sid : nat) (c : change) : bool :=
  (pilotId c =? pid)%nat && (skillId c =? sid)%nat.

(** [getQualification] of the matrix: [qualifications.find(...)] *)
Definition getQualification (qualifications : list cell) (pid sid : nat) : option cell :=
  List.find (at_cell pid sid) qualifications.

(** The updater that [handleCellUpdate] passes to [setPendingChanges]. *)
Definition handleCellUpdate (qualifications : list cell) (pid sid : nat)
    (status : string) (prev : list change) : list change :=
  let originalStatus := c_status <$> List.find (at_cell pid sid) qualifications in
  if bool_decide (Some status = originalStatus) then
    List.filter (fun c => negb (for_cell pid sid c)) prev
  else
    match Csv.findIndex (for_cell pid sid) prev with
    | Some existing => <[existing := Change pid sid status]> prev
    | None => prev ++ [Change pid sid status]
    end.

(** The body of the loop of [effectiveQualifications]. *)
Definition apply_change (result : list cell) (c : change) : list cell :=
  match Csv.findIndex (at_cell (pilotId c) (skillId c)) result with
  | Some idx =>
      alter (fun q => Cell (c_pilot_id q) (c_skill_id q) (new_status c)) idx result
  | None => result ++ [Cell (pilotId c) (skillId c) (new_status c)]
  end.

Definition effectiveQualifications (qualifications : list cell)
    (pendingChanges : list change) : list cell :=
  match pendingChanges with
  | [] => qualifications
  | _ => foldl apply_change qualifications pendingChanges
  end.

(** The state of the page that saving reads and writes. *)
Record page := Page {
  qualifications : list cell;
  pendingChanges : list change;
  saveError : option string
}.

(** [a || b] on strings. *)
Definition or_else (a b : string) : string :=
  match a with
  | EmptyString => b
  | _ => a
  end.

(** The message of the error that [handleResponse] throws for an answer
    that is not ok. *)
Definition thrown_message (code : nat) (error : string) : string :=
  or_else error ("Request failed: " +:+ pretty code).

(** The rows of a listing as the page keeps them. *)
Definition cells (rows : list qrow) : list cell :=
  (fun r : qrow => Cell r.1.1 r.1.2 (q_status r.2)) <$> rows.

Section WithServer.
(** Which statement of which request raises; the caller of the token;
    the time of the server at each request. *)
Variable faults : nat -> nat -> bool.
Variable u : user.
Variable clock : nat -> nat.

(** [api.qualifications.update] for one pending change, from tables [d]. *)
Definition update (i : nat) (c : change) (d : db) : response * conn :=
  run (put_qualification (faults i) u (clock i)
         (PutBody (Some (pilotId c)) (Some (skillId c)) (Some (new_status c))))
      (connect d).

(** The [for] loop of [handleSave]: one request after the other, from
    request number [i] on.  [None] when every answer was ok, the first
    answer that was not otherwise; the tables as the requests leave
    them. *)
Fixpoint save_loop (i : nat) (changes : list change) (d : db) : option response * db :=
  match changes with
  | [] => (None, d)
  | c :: rest =>
      let out := update i c d in
      match out.1 with
      | Row _ _ _ => save_loop (S i) rest (committed out.2)
      | r => (Some r, committed out.2)
      end
  end.

(** [handleSave]: the page once the promise settles, [None] when it
    never does, and the tables of the server. *)
Definition handleSave (pg : page) (d : db) : option page * db :=
  match pendingChanges pg with
  | [] => (Some pg, d)
  | changes =>
      let failed msg :=
        Page (qualifications pg) changes (Some (or_else msg "Failed to save changes")) in
      match save_loop 0 changes d with
      | (None, d') =>
          let out := answer (get_qualifications (faults (length changes)) None) (open d') in
          match out.1 with
          | Listing rows => (Some (Page (cells rows) [] None), tables out.2)
          | Fail code error => (Some (failed (thrown_message code error)), tables out.2)
          | _ => (None, tables out.2)
          end
      | (Some (Error code error), d') => (Some (failed (thrown_message code error)), d')
      | (Some _, d') => (None, d')
      end
  end.

End WithServer.

(** *** What the page shows and what a save stores *)

(** The status the matrix shows in a cell. *)
Definition shown (qualifications : list cell) (pendingChanges : list change)
    (pid sid : nat) : option string :=
  c_status <$> getQualification (effectiveQualifications qualifications pendingChanges)
                 pid sid.

(** At most one pending change for a cell. *)
Definition one_per_cell (pendingChanges : list change) : Prop :=
  NoDup ((fun c => (pilotId c, skillId c)) <$> pendingChanges).

(** No pending change repeats the status that was fetched. *)
Definition all_differ (qualifications : list cell) (pendingChanges : list change) : Prop :=
  ∀ c, c ∈ pendingChanges →
    c_status <$> getQualification qualifications (pilotId c) (skillId c)
      ≠ Some (new_status c).

(** The page holds the statuses of the table. *)
Definition in_sync (qualifications : list cell) (d : db) : Prop :=
  ∀ pid sid,
    c_status <$> getQualification qualifications pid sid
      = q_status <$> Sql.qualifications d !! (pid, sid).

(** The tables after the first [k] pending changes have been stored. *)
Fixpoint stored (u : user) (clock : nat -> nat) (i : nat) (changes : list change)
    (d : db) : db :=
  match changes with
  | [] => d
  | c :: rest =>
      stored u clock (S i) rest
        (set_qualifications
           (<[(pilotId c, skillId c) :=
                Qualification (new_status c) (clock i) (email u)]> (Sql.qualifications d)) d)
  end.

End Board.

(** ** The import page of the client *)
Module ImportPage.
Import Sql Tx Auth Routes Csv.

(** What the section shows once [handleFile] is done: [setError] or
    [setResult]. *)
Inductive banner :=
| ShowError (message : string)
| ShowResult (imported skipped : nat) (errors : list string).

(** [handleFile] for a file with the given text, against a server with
    tables [d]: what is shown, [None] when the request never settles, and
    the tables afterwards. *)
Definition handleFile (faults : nat -> bool) (connects : bool) (u : user) (now : nat)
    (text : string) (d : db) : option banner * db :=
  match parseCsv text with
  | Throws message => (Some (ShowError (Board.or_else message "Import failed")), d)
  | Records [] => (Some (ShowError "No valid records found in CSV"), d)
  | Records records =>
      let out := run (bulk_import faults connects u now (Array records)) (connect d) in
      match out.1 with
      | Report imported skipped errors =>
          (Some (ShowResult imported skipped errors), committed out.2)
      | Error code error =>
          (Some (ShowError (Board.or_else (Board.thrown_message code error) "Import failed")),
           committed out.2)
      | _ => (None, committed out.2)
      end
  end.

End ImportPage.

(** ** The bearer token: the header of the client and the middleware *)
Module Middleware.
Import Auth.

(** What a middleware does with a request: it answers, or it calls
    [next()] with [req.user] set. *)
Inductive outcome :=
| Reject (code : nat) (error : string)
| Next (user : user).

(** [s.startsWith(prefix)] *)
Fixpoint startsWith (s prefix : string) {struct prefix} : bool :=
  match prefix, s with
  | EmptyString, _ => true
  | String b prefix', String a s' => Ascii.eqb a b && startsWith s' prefix'
  | String _ _, EmptyString => false
  end.

(** The [Authorization] entry of [authHeaders()] for the stored token:
    none when there is no token or the token is empty. *)
Definition authHeaders (token : option string) : option string :=
  if Js.falsy token then None else Some ("Bearer " +:+ Js.text token).

Section WithVerify.
(** [jwt.verify(token, secret, { algorithms: ['HS256'] })]: the decoded
    payload, [None] when it throws. *)
Variable verify : string -> option user.

(** [authenticate] *)
Definition authenticate (authorization : option string) : outcome :=
  if Js.falsy authorization || negb (startsWith (Js.text authorization) "Bearer ") then
    Reject 401 "No token provided"
  else
    match Csv.split " "%char (Js.text authorization) !! 1%nat with
    | Some token =>
        match verify token with
        | Some decoded => Next decoded
        | None => Reject 401 "Invalid token"
        end
    | None => Reject 401 "Invalid token"
    end.

End WithVerify.

End Middleware.

(** ** Proof steps shared by the run lemmas *)

(** Closes an equation between two results of a run. *)
Ltac conn_eq :=
  unfold Tx.ret; simpl; rewrite <- ?app_assoc; simpl;
  first [done | repeat f_equal; lia].

(** The same, after a case analysis on the transaction of [c]. *)
Ltac leaf c :=
  destruct c as [? [?|] ? ?]; unfold Tx.record_stmt, Tx.put_view, Tx.view; conn_eq.


(** ** Properties of the connection monad and of the schedule *)

Section Faults.
Import Sql Tx Auth Routes Reference.
Variable faults : nat -> bool.

Lemma first_fault_app start a b :
  first_fault faults start (a + b) =
    match first_fault faults start a with
    | Some n => Some n
    | None => (fun n => (a + n)%nat) <$> first_fault faults (start + a) b
    end.
Proof.
  revert start. induction a as [|a IH]; intros start; simpl.
  - rewrite Nat.add_0_r. by destruct (first_fault faults start b).
  - destruct (faults start); [done|].
    rewrite IH. replace (S start + a)%nat with (start + S a)%nat by lia.
    destruct (first_fault faults (S start) a); simpl; [done|].
    by destruct (first_fault faults (start + S a) b).
Qed.

Lemma first_fault_lt start len n :
  first_fault faults start len = Some n → (n < len)%nat ∧ faults (start + n) = true.
Proof.
  revert start n. induction len as [|len IH]; intros start n; simpl; [done|].
  destruct (faults start) eqn:E.
  - intros [= <-]. rewrite Nat.add_0_r. split; [lia|done].
  - destruct (first_fault faults (S start) len) eqn:F; simpl; [|done].
    intros [= <-]. destruct (IH _ _ F) as [? ?]. split; [lia|].
    by replace (start + S n0)%nat with (S start + n0)%nat by lia.
Qed.

Lemma first_fault_none start len :
  first_fault faults start len = None ↔ ∀ n, (n < len)%nat → faults (start + n) = false.
Proof.
  revert start. induction len as [|len IH]; intros start; simpl.
  - split; [intros _ n; lia|done].
  - destruct (faults start) eqn:E.
    + split; [done|]. intros H. specialize (H 0%nat). rewrite Nat.add_0_r in H.
      rewrite H in E; [done|lia].
    + destruct (first_fault faults (S start) len) eqn:F; simpl.
      * split; [done|]. intros H. apply first_fault_lt in F as [? F].
        replace (S start + n)%nat with (start + S n)%nat in F by lia.
        rewrite H in F; [done|lia].
      * split; [|done]. intros _ [|n] Hn.
        -- by rewrite Nat.add_0_r.
        -- replace (start + S n)%nat with (S start + n)%nat by lia.
           apply IH; [done|lia].
Qed.

Lemma filter_head_In {A} (f : A → bool) (l : list A) x rest :
  List.filter f l = x :: rest → In x l ∧ f x = true.
Proof.
  intros H. apply filter_In. rewrite H. by left.
Qed.

Lemma references_ok_intro d p s :
  In p (pilots d) → In s (skills d) → references_ok (p_id p) (s_id s) d = true.
Proof.
  intros Hp Hs. unfold references_ok. apply andb_true_intro. split.
  - apply existsb_exists. exists p. split; [done|]. apply Nat.eqb_refl.
  - apply existsb_exists. exists s. split; [done|]. apply Nat.eqb_refl.
Qed.

Lemma upsert_accepted d p s st now by_ :
  In p (pilots d) → In s (skills d) → Js.includes validStatuses st = true →
  upsert (p_id p) (s_id s) st now by_ d =
    Some (set_qualifications
            (<[(p_id p, s_id s) := Qualification st now by_]> (qualifications d)) d).
Proof.
  intros Hp Hs Hst. unfold upsert, status_check.
  rewrite (references_ok_intro _ _ _ Hp Hs).
  unfold validStatuses in Hst. by rewrite Hst.
Qed.

Lemma put_view_view c n lg :
  put_view (view c) (Conn (committed c) (tx c) n lg) = Conn (committed c) (tx c) n lg.
Proof. by destruct c as [cm [w|] n0 lg0]. Qed.

(** One turn of the loop, under any schedule: it follows its plan up to
    the first statement that raises. *)
Lemma import_record_run u now i r t c :
  import_record faults u now i r t c =
    match first_fault faults (sent c) (length (plan_record u (view c) i r).2) with
    | None =>
        (Val (tally_step (verdict_of u (view c) i r) t),
         put_view (effect now (email u) (verdict_of u (view c) i r) (view c))
           (Conn (committed c) (tx c)
                 (sent c + length (plan_record u (view c) i r).2)
                 (log c ++ (plan_record u (view c) i r).2)))
    | Some n =>
        (Thrown,
         Conn (committed c) (tx c) (sent c + S n)
              (log c ++ take (S n) (plan_record u (view c) i r).2))
    end.
Proof.
  unfold import_record, verdict_of, plan_record.
  destruct (Js.falsy (callsign r) || Js.falsy (skill_name r) || Js.falsy (status r)).
  { simpl. unfold ret. rewrite Nat.add_0_r, app_nil_r.
    by destruct c as [cm [w|] n0 lg]. }
  destruct (Js.includes validStatuses (Js.toUpperCase (Js.text (status r)))) eqn:Hst; simpl.
  2:{ unfold ret. rewrite Nat.add_0_r, app_nil_r. by destruct c as [cm [w|] n0 lg]. }
  unfold bind, select, execute, query. simpl.
  destruct (select_pilots_ilike (Js.trim (Js.text (callsign r))) (view c)) as [|p ps] eqn:Hp.
  { simpl. destruct (faults (sent c)); [leaf c|].
    leaf c. }
  destruct (is_instructor u && not_own_wing (p_wing_id p) u) eqn:Hpw.
  { simpl. destruct (faults (sent c)); simpl; rewrite ?Hpw; [leaf c|].
    leaf c. }
  assert (Hview : ∀ s0, view (put_view (view c) (record_stmt s0 c)) = view c).
  { intros s0. by destruct c as [cm [w|] n0 lg]. }
  assert (Hsent : ∀ s0, sent (put_view (view c) (record_stmt s0 c)) = S (sent c)).
  { intros s0. by destruct c as [cm [w|] n0 lg]. }
  destruct (select_skills_ilike (Js.trim (Js.text (skill_name r))) (view c))
    as [|s ss] eqn:Hs.
  { simpl. destruct (faults (sent c)); simpl; rewrite ?Hpw; [leaf c|].
    rewrite Hview, Hsent, Hs.
    destruct (faults (S (sent c))); leaf c. }
  apply filter_head_In in Hp as [Hp _]. pose proof Hs as Hs'.
  apply filter_head_In in Hs' as [Hs' _].
  destruct (s_wing_id s =? p_wing_id p)%nat eqn:Hsp; simpl.
  2:{ destruct (faults (sent c)); simpl; rewrite ?Hpw; [leaf c|].
      rewrite Hview, Hsent, Hs.
      destruct (faults (S (sent c))); simpl; rewrite ?Hsp;
        leaf c. }
  destruct (is_instructor u && not_own_wing (s_wing_id s) u) eqn:Hsw; simpl.
  { destruct (faults (sent c)); simpl; rewrite ?Hpw; [leaf c|].
    rewrite Hview, Hsent, Hs.
    destruct (faults (S (sent c))); simpl; rewrite ?Hsp, ?Hsw;
      leaf c. }
  destruct (faults (sent c)); simpl; rewrite ?Hpw; [leaf c|].
  rewrite Hview, Hsent, Hs.
  destruct (faults (S (sent c))); simpl; rewrite ?Hsp, ?Hsw;
    [leaf c|].
  pose proof (upsert_accepted (view c) p s _ now (email u) Hp Hs' Hst) as Hup.
  destruct c as [cm [w|] n0 lg]; unfold view, put_view, record_stmt in *;
    simpl in *; rewrite Hup; simpl;
    destruct (faults (S (S n0))); unfold record_stmt, put_view, view; conn_eq.
Qed.

Lemma plan_record_tables u d w i r :
  pilots w = pilots d → skills w = skills d →
  plan_record u w i r = plan_record u d i r.
Proof.
  intros Hp Hs. unfold plan_record, select_pilots_ilike, select_skills_ilike.
  by rewrite Hp, Hs.
Qed.

Lemma verdict_of_tables u d w i r :
  pilots w = pilots d → skills w = skills d →
  verdict_of u w i r = verdict_of u d i r.
Proof. intros Hp Hs. unfold verdict_of. by rewrite (plan_record_tables u d w). Qed.

Lemma effect_pilots now by_ v w : pilots (effect now by_ v w) = pilots w.
Proof. by destruct v. Qed.

Lemma effect_skills now by_ v w : skills (effect now by_ v w) = skills w.
Proof. by destruct v. Qed.

(** The loop, under any schedule: either every statement of its plan is
    served and the loop returns the planned tally and working table, or
    the loop throws at the first statement that raises. *)
Lemma import_loop_run u now d rs : ∀ i t c w,
  tx c = Some w → pilots w = pilots d → skills w = skills d →
  match first_fault faults (sent c) (length (plan_loop u d i rs)) with
  | None =>
      import_loop faults u now i rs t c =
        (Val (tally_loop u d i rs t),
         Conn (committed c) (Some (effect_loop u now d i rs w))
              (sent c + length (plan_loop u d i rs))
              (log c ++ plan_loop u d i rs))
  | Some n =>
      ∃ w', import_loop faults u now i rs t c =
        (Thrown,
         Conn (committed c) (Some w') (sent c + S n)
              (log c ++ take (S n) (plan_loop u d i rs)))
  end.
Proof.
  induction rs as [|r rs IH]; intros i t c w Htx Hp Hs; simpl.
  { unfold ret. destruct c; simpl in *. subst. by rewrite Nat.add_0_r, app_nil_r. }
  rewrite length_app, first_fault_app.
  unfold bind. rewrite (import_record_run u now i r t c).
  assert (view c = w) as -> by (unfold view; by rewrite Htx).
  rewrite Htx.
  rewrite (plan_record_tables u d w i r Hp Hs), (verdict_of_tables u d w i r Hp Hs).
  destruct (first_fault faults (sent c) (length (plan_record u d i r).2)) as [n|] eqn:F1.
  { exists w. do 3 f_equal. apply first_fault_lt in F1 as [Hn _].
    rewrite take_app_le; [done|lia]. }
  unfold put_view. simpl.
  set (c1 := Conn _ _ _ _).
  specialize (IH (S i) (tally_step (verdict_of u d i r) t) c1
                (effect now (email u) (verdict_of u d i r) w) eq_refl).
  rewrite effect_pilots, effect_skills in IH. specialize (IH Hp Hs).
  simpl in IH.
  destruct (first_fault faults (sent c + length (plan_record u d i r).2)
              (length (plan_loop u d (S i) rs))) as [m|] eqn:F2; simpl.
  - destruct IH as [w' IH]. exists w'. rewrite IH. do 2 f_equal; [lia|].
    rewrite <- app_assoc. f_equal.
    replace (S (length (plan_record u d i r).2 + m))
      with (length (plan_record u d i r).2 + S m)%nat by lia.
    by rewrite take_app_add.
  - rewrite IH. do 2 f_equal; [lia|]. by rewrite app_assoc.
Qed.

Lemma bind_val {A B} (m : M A) (k : A → M B) c a c' :
  m c = (Val a, c') → bind m k c = k a c'.
Proof. unfold bind. by intros ->. Qed.

Lemma bind_thrown {A B} (m : M A) (k : A → M B) c c' :
  m c = (Thrown, c') → bind m k c = (Thrown, c').
Proof. unfold bind. by intros ->. Qed.

Lemma try_catch_val {A} (m h : M A) c a c' :
  m c = (Val a, c') → try_catch m h c = (Val a, c').
Proof. unfold try_catch. by intros ->. Qed.

Lemma try_catch_thrown {A} (m h : M A) c c' :
  m c = (Thrown, c') → try_catch m h c = h c'.
Proof. unfold try_catch. by intros ->. Qed.

Lemma control_run s f c :
  control faults s f c =
    if faults (sent c) then (Thrown, record_stmt s c)
    else (Val tt, f (record_stmt s c)).
Proof. done. Qed.

(** The catch block: ROLLBACK, then the 500 answer. *)
Lemma rollback_handler_run cm txc n lg :
  run (let* _ := rollback faults in ret (Error 500 "Internal server error"))
      (Conn cm txc n lg) =
    (if faults n then Unanswered else Error 500 "Internal server error",
     Conn cm (if faults n then txc else None) (S n) (lg ++ [ROLLBACK])).
Proof.
  unfold run, bind, rollback, ret. rewrite control_run. simpl.
  by destruct (faults n).
Qed.

(** Without a client the route sends nothing and answers nothing. *)
Lemma bulk_import_no_client u now rs c :
  requireRole ["instructor"; "admin"] u = true →
  rs ≠ [] → (length rs ≤ 1000)%nat →
  run (bulk_import faults false u now (Array rs)) c = (Unanswered, c).
Proof.
  intros Hrole Hne Hlen. unfold bulk_import, run. rewrite Hrole. simpl.
  destruct rs as [|r0 rs0]; [done|].
  destruct (1000 <? length (r0 :: rs0))%nat eqn:Hbig; [|done].
  apply Nat.ltb_lt in Hbig. lia.
Qed.

(** The whole route on an accepted batch, once it has a client, under
    any schedule. *)
Lemma bulk_import_run u now d rs :
  requireRole ["instructor"; "admin"] u = true →
  rs ≠ [] → (length rs ≤ 1000)%nat →
  let plan := plan_bulk u d rs in
  let t := tally_loop u d 0 rs (Tally 0 0 []) in
  match first_fault faults 0 (length plan) with
  | None =>
      run (bulk_import faults true u now (Array rs)) (connect d) =
        (Report (imported t) (skipped t) (Js.slice0 20 (errors t)),
         Conn (effect_loop u now d 0 rs d) None (length plan) plan)
  | Some n =>
      ∃ txf, run (bulk_import faults true u now (Array rs)) (connect d) =
        (if faults (S n) then Unanswered else Error 500 "Internal server error",
         Conn d txf (S (S n)) (take (S n) plan ++ [ROLLBACK]))
        ∧ (faults (S n) = false → txf = None)
  end.
Proof.
  intros Hrole Hne Hlen plan t. subst plan t.
  assert (bulk_import faults true u now (Array rs) =
    try_catch
      (let* _ := begin_ faults in
       let* t := import_loop faults u now 0 rs (Tally 0 0 []) in
       let* _ := commit faults in
       ret (Report (imported t) (skipped t) (Js.slice0 20 (errors t))))
      (let* _ := rollback faults in
       ret (Error 500 "Internal server error"))) as ->.
  { unfold bulk_import. rewrite Hrole. simpl.
    destruct rs as [|r0 rs0]; [done|].
    destruct (1000 <? length (r0 :: rs0))%nat eqn:Hbig; [|done].
    apply Nat.ltb_lt in Hbig. lia. }
  clear Hne Hlen Hrole.
  set (body := let* _ := begin_ faults in _).
  set (handler := let* _ := rollback faults in _).
  assert (Hcatch : ∀ c c', body c = (Thrown, c') →
            run (try_catch body handler) c = run handler c').
  { intros c c' H. unfold run. by rewrite (try_catch_thrown _ _ _ _ H). }
  unfold plan_bulk. simpl length. simpl first_fault.
  destruct (faults 0%nat) eqn:F0.
  { assert (body (connect d) = (Thrown, Conn d None 1 [BEGIN])) as Hb.
    { subst body. apply bind_thrown. unfold begin_. rewrite control_run. simpl.
      by rewrite F0. }
    rewrite (Hcatch _ _ Hb). subst handler. rewrite rollback_handler_run.
    eexists. split; [reflexivity|]. by intros ->. }
  assert (begin_ faults (connect d) = (Val tt, Conn d (Some d) 1 [BEGIN])) as Hbegin.
  { unfold begin_. rewrite control_run. simpl. by rewrite F0. }
  pose proof (import_loop_run u now d rs 0%nat (Tally 0 0 [])
                (Conn d (Some d) 1 [BEGIN]) d eq_refl eq_refl eq_refl) as Hloop.
  simpl in Hloop. rewrite length_app, first_fault_app. simpl length.
  destruct (first_fault faults 1 (length (plan_loop u d 0 rs))) as [n|] eqn:F1; simpl.
  { destruct Hloop as [w' Hloop].
    apply first_fault_lt in F1 as [Hn _].
    assert (body (connect d) =
              (Thrown, Conn d (Some w') (S (S n))
                         (BEGIN :: take (S n) (plan_loop u d 0 rs)))) as Hb.
    { subst body. rewrite (bind_val _ _ _ _ _ Hbegin). by apply bind_thrown. }
    rewrite (Hcatch _ _ Hb). subst handler. rewrite rollback_handler_run.
    rewrite take_app_le by lia.
    eexists. split; [reflexivity|]. by intros ->. }
  replace (length (plan_loop u d 0 rs) + 0)%nat
    with (length (plan_loop u d 0 rs)) by lia.
  destruct (faults (S (length (plan_loop u d 0 rs)))) eqn:F2; simpl;
    rewrite ?Nat.add_0_r.
  - assert (body (connect d) =
              (Thrown, Conn d (Some (effect_loop u now d 0 rs d))
                         (S (S (length (plan_loop u d 0 rs))))
                         ((BEGIN :: plan_loop u d 0 rs) ++ [COMMIT]))) as Hb.
    { subst body. rewrite (bind_val _ _ _ _ _ Hbegin).
      rewrite (bind_val _ _ _ _ _ Hloop). apply bind_thrown.
      unfold commit. rewrite control_run. simpl. by rewrite F2. }
    rewrite (Hcatch _ _ Hb). subst handler. rewrite rollback_handler_run.
    rewrite firstn_all2 by (rewrite length_app; simpl; lia).
    eexists. split; [reflexivity|]. by intros ->.
  - unfold run. erewrite try_catch_val; [reflexivity|].
    subst body. rewrite (bind_val _ _ _ _ _ Hbegin).
    rewrite (bind_val _ _ _ _ _ Hloop).
    unfold bind, commit. rewrite control_run. simpl. rewrite F2.
    unfold ret, view. simpl. do 3 f_equal. lia.
Qed.

End Faults.

(** ** The tally of a batch *)
Section Tally.
Import Sql Tx Auth Routes Reference.

Lemma is_skip_index u d i j r :
  is_skip (verdict_of u d i r) = is_skip (verdict_of u d j r).
Proof.
  unfold verdict_of, plan_record. repeat case_match; done.
Qed.

Lemma failures_cons u d r rs :
  failures u d (r :: rs) =
    ((if is_skip (verdict_of u d 0 r) then 1 else 0) + failures u d rs)%nat.
Proof. unfold failures. simpl. by destruct (is_skip _). Qed.

Lemma failures_le u d rs : (failures u d rs ≤ length rs)%nat.
Proof. unfold failures. apply filter_length_le. Qed.

Lemma failure_messages_length u d rs : ∀ i,
  length (failure_messages u d i rs) = failures u d rs.
Proof.
  induction rs as [|r rs IH]; intros i; [done|].
  rewrite failures_cons, (is_skip_index u d 0 i). simpl.
  destruct (verdict_of u d i r); simpl; by rewrite IH.
Qed.

Lemma tally_loop_spec u d rs : ∀ i t,
  imported (tally_loop u d i rs t) = (imported t + (length rs - failures u d rs))%nat ∧
  skipped (tally_loop u d i rs t) = (skipped t + failures u d rs)%nat ∧
  errors (tally_loop u d i rs t) = (errors t ++ failure_messages u d i rs)%list.
Proof.
  induction rs as [|r rs IH]; intros i t.
  { simpl. unfold failures. simpl. by rewrite !Nat.add_0_r, app_nil_r. }
  simpl tally_loop. destruct (IH (S i) (tally_step (verdict_of u d i r) t)) as (Hi & Hs & He).
  rewrite Hi, Hs, He, failures_cons, (is_skip_index u d 0 i).
  pose proof (failures_le u d rs). simpl.
  destruct (verdict_of u d i r); simpl; rewrite <- ?app_assoc; simpl;
    repeat split; try done; lia.
Qed.

End Tally.

(** ** The import route: atomicity and the report *)
Section BulkImport.
Import Sql Tx Auth Routes Reference.

Lemma plan_record_no_rollback u d i r : ROLLBACK ∉ (plan_record u d i r).2.
Proof.
  unfold plan_record.
  repeat case_match; simpl; rewrite ?elem_of_cons, ?elem_of_nil; intuition discriminate.
Qed.

Lemma plan_loop_no_rollback u d rs : ∀ i, ROLLBACK ∉ plan_loop u d i rs.
Proof.
  induction rs as [|r rs IH]; intros i; simpl.
  - apply not_elem_of_nil.
  - apply not_elem_of_app. split; [apply plan_record_no_rollback|apply IH].
Qed.

Lemma plan_bulk_no_rollback u d rs : ROLLBACK ∉ plan_bulk u d rs.
Proof.
  unfold plan_bulk. apply not_elem_of_cons. split; [done|].
  apply not_elem_of_app. split; [apply plan_loop_no_rollback|].
  apply not_elem_of_cons. split; [done|apply not_elem_of_nil].
Qed.

Lemma bulk_import_report_inv faults connects u now rs c a b es c' :
  run (bulk_import faults connects u now (Array rs)) c = (Report a b es, c') →
  requireRole ["instructor"; "admin"] u = true ∧ rs ≠ [] ∧ (length rs ≤ 1000)%nat.
Proof.
  unfold bulk_import, run.
  destruct (requireRole ["instructor"; "admin"] u); simpl; [|done].
  destruct rs as [|r rs]; simpl; [done|].
  destruct (1000 <? S (length rs))%nat eqn:Hbig; simpl; [done|].
  intros _. apply Nat.ltb_ge in Hbig. repeat split; [done|lia].
Qed.

(** A report is answered only by a request that got a client. *)
Lemma bulk_import_report_client faults connects u now rs c a b es c' :
  run (bulk_import faults connects u now (Array rs)) c = (Report a b es, c') →
  connects = true.
Proof.
  intros Hrun. destruct connects; [done|].
  destruct (bulk_import_report_inv _ _ _ _ _ _ _ _ _ _ Hrun) as (Hrole & Hne & Hlen).
  by rewrite (bulk_import_no_client faults u now rs c Hrole Hne Hlen) in Hrun.
Qed.

(** The batch runs inside one transaction.  Once the request has its
    client: if a statement of the processing raises, whichever it is,
    nothing is committed, no report is answered and ROLLBACK is sent right
    after the raising statement; the handler answers 500 when that
    ROLLBACK is served and answers nothing when it raises as well, the
    transaction then being left open.  Records that fail validation raise
    nothing: without a raising statement the plan runs to its COMMIT with
    no ROLLBACK, every record is tallied and the accepted ones are
    committed together. *)
Theorem bulk_import_atomic faults u now d rs :
  requireRole ["instructor"; "admin"] u = true →
  rs ≠ [] → (length rs ≤ 1000)%nat →
  let plan := plan_bulk u d rs in
  let out := run (bulk_import faults true u now (Array rs)) (connect d) in
  (ROLLBACK ∉ plan) ∧
  ((∃ n, (n < length plan)%nat ∧ faults n = true) →
     committed out.2 = d ∧
     (∀ a b es, out.1 ≠ Report a b es) ∧
     ∃ m, (m < length plan)%nat ∧ faults m = true ∧
          log out.2 = (take (S m) plan ++ [ROLLBACK])%list ∧
          out.1 = (if faults (S m) then Unanswered
                   else Error 500 "Internal server error") ∧
          (faults (S m) = false → tx out.2 = None)) ∧
  ((∀ n, (n < length plan)%nat → faults n = false) →
     out = (Report (length rs - failures u d rs) (failures u d rs)
                   (take 20 (failure_messages u d 0 rs)),
            Conn (effect_loop u now d 0 rs d) None (length plan) plan)).
Proof.
  intros Hrole Hne Hlen plan out.
  pose proof (bulk_import_run faults u now d rs Hrole Hne Hlen) as Hrun.
  cbv zeta in Hrun. fold plan out in Hrun.
  split; [apply plan_bulk_no_rollback|]. split.
  - intros (n & Hn & Hf).
    destruct (first_fault faults 0 (length plan)) as [m|] eqn:F.
    2:{ rewrite first_fault_none in F. specialize (F n Hn). simpl in F. congruence. }
    destruct Hrun as (txf & Hout & Htx). rewrite Hout. simpl.
    apply first_fault_lt in F as [Hm Hfm]. simpl in Hfm.
    split; [done|]. split; [intros a b es; by destruct (faults (S m))|].
    exists m. split; [done|]. split; [done|]. split; [done|]. split; [done|].
    apply Htx.
  - intros Hnone.
    assert (first_fault faults 0 (length plan) = None) as F.
    { apply first_fault_none. intros n Hn. simpl. by apply Hnone. }
    rewrite F in Hrun. rewrite Hrun.
    destruct (tally_loop_spec u d rs 0%nat (Tally 0 0 [])) as (Hi & Hs & He).
    by rewrite Hi, Hs, He.
Qed.

Lemma bulk_import_atomic_witness :
  let faults := Example.only_fault_at 4 in
  let rs := [Example.viper_startup; Example.ghost_unknown_skill] in
  let plan := plan_bulk Example.instructor1 Example.squadron rs in
  let out := run (bulk_import faults true Example.instructor1 7 (Array rs))
                 (connect Example.squadron) in
  (ROLLBACK ∉ plan) ∧
  ((∃ n, (n < length plan)%nat ∧ faults n = true) →
     committed out.2 = Example.squadron ∧
     (∀ a b es, out.1 ≠ Report a b es) ∧
     ∃ m, (m < length plan)%nat ∧ faults m = true ∧
          log out.2 = (take (S m) plan ++ [ROLLBACK])%list ∧
          out.1 = (if faults (S m) then Unanswered
                   else Error 500 "Internal server error") ∧
          (faults (S m) = false → tx out.2 = None)) ∧
  ((∀ n, (n < length plan)%nat → faults n = false) →
     out = (Report (length rs - failures Example.instructor1 Example.squadron rs)
                   (failures Example.instructor1 Example.squadron rs)
                   (take 20 (failure_messages Example.instructor1 Example.squadron 0 rs)),
            Conn (effect_loop Example.instructor1 7 Example.squadron 0 rs Example.squadron)
                 None (length plan) plan)).
Proof.
  apply (bulk_import_atomic (Example.only_fault_at 4) Example.instructor1 7
           Example.squadron [Example.viper_startup; Example.ghost_unknown_skill]).
  - reflexivity.
  - discriminate.
  - simpl. lia.
Defined.

(** C3. The store becomes unavailable at the fifth statement of an
    import, after the first record was upserted, and stays unavailable.
    The ROLLBACK of the catch block raises too, outside any [try]: the
    route answers nothing, not 500, and leaves the transaction open;
    nothing is committed.  The same request answers nothing, and sends
    nothing, when the pool has no client to give.  PUT, whose statements
    all sit inside its [try], answers 500 on a store that is down. *)
Theorem store_down_leaves_import_unanswered :
  let rs := [Example.viper_startup; Example.ghost_unknown_skill] in
  let out := run (bulk_import (Example.down_from 4) true Example.instructor1 7 (Array rs))
                 (connect Example.squadron) in
  out.1 = Unanswered ∧
  out.1 ≠ Error 500 "Internal server error" ∧
  log out.2 =
    [BEGIN; SelectPilotsIlike "viper"; SelectSkillsIlike "STARTUP";
     Upsert 1 10 "FMQ" "lead@wing1"; SelectPilotsIlike "GHOST"; ROLLBACK] ∧
  committed out.2 = Example.squadron ∧
  is_Some (tx out.2) ∧
  run (bulk_import no_faults false Example.instructor1 7 (Array rs))
      (connect Example.squadron) = (Unanswered, connect Example.squadron) ∧
  (run (put_qualification (Example.down_from 0) Example.instructor1 7
          (PutBody (Some 1%nat) (Some 10%nat) (Some "FMQ")))
       (connect Example.squadron)).1 = Error 500 "Internal server error".
Proof.
  cbv zeta.
  split; [by vm_compute|]. split; [by vm_compute|]. split; [by vm_compute|].
  split; [by vm_compute|]. split; [|split; by vm_compute].
  vm_compute. by eexists.
Qed.

(** The store fails on the fifth statement, after the first record was
    upserted inside the transaction: the answer is 500 and the committed
    tables are the ones the request found. *)
Example rollback_after_an_upsert :
  run (bulk_import (Example.only_fault_at 4) true Example.instructor1 7
         (Array [Example.viper_startup; Example.ghost_unknown_skill]))
      (connect Example.squadron) =
    (Error 500 "Internal server error",
     Conn Example.squadron None 6
       [BEGIN; SelectPilotsIlike "viper"; SelectSkillsIlike "STARTUP";
        Upsert 1 10 "FMQ" "lead@wing1"; SelectPilotsIlike "GHOST"; ROLLBACK]).
Proof. by vm_compute. Qed.

(** Without a fault the same batch commits its first record and reports
    the second as skipped. *)
Example partial_success_commits :
  let out := run (bulk_import no_faults true Example.instructor1 7
                    (Array [Example.viper_startup; Example.ghost_unknown_skill]))
                 (connect Example.squadron) in
  out.1 = Report 1 1 [msg_pilot_other_wing 1 "GHOST"] ∧
  qualifications (committed out.2) !! (1, 10)%nat =
    Some (Qualification "FMQ" 7 "lead@wing1") ∧
  log out.2 =
    [BEGIN; SelectPilotsIlike "viper"; SelectSkillsIlike "STARTUP";
     Upsert 1 10 "FMQ" "lead@wing1"; SelectPilotsIlike "GHOST"; COMMIT].
Proof. by vm_compute. Qed.

(** The scenario of the specification: callsign and skill name match
    without regard to case and the status is stored in upper case. *)
Example case_insensitive_import :
  let out := run (bulk_import no_faults true Example.admin 7 (Array [Example.viper_startup]))
                 (connect Example.squadron) in
  out.1 = Report 1 0 [] ∧
  qualifications (committed out.2) !! (1, 10)%nat =
    Some (Qualification "FMQ" 7 "root@hq").
Proof. by vm_compute. Qed.

(** C4. When the route answers a report for a batch of N records of
    which K fail validation, the report has imported = N - K,
    skipped = K, imported + skipped = N, and its error list is the K
    messages when K <= 20 and the first 20 of them when K > 20. *)
Theorem bulk_report_counts faults connects u now d rs c a b es :
  run (bulk_import faults connects u now (Array rs)) (connect d) = (Report a b es, c) →
  let N := length rs in
  let K := failures u d rs in
  let messages := failure_messages u d 0 rs in
  a = (N - K)%nat ∧ b = K ∧ (a + b)%nat = N ∧
  length messages = K ∧
  ((K ≤ 20)%nat → es = messages ∧ length es = K) ∧
  ((20 < K)%nat → es = take 20 messages ∧ length es = 20%nat).
Proof.
  intros Hrun N K messages.
  pose proof (bulk_import_report_client _ _ _ _ _ _ _ _ _ _ Hrun) as ->.
  destruct (bulk_import_report_inv _ _ _ _ _ _ _ _ _ _ Hrun) as (Hrole & Hne & Hlen).
  pose proof (bulk_import_run faults u now d rs Hrole Hne Hlen) as H.
  cbv zeta in H.
  destruct (first_fault faults 0 (length (plan_bulk u d rs))) as [m|].
  { destruct H as (txf & H & _). rewrite H in Hrun.
    destruct (faults (S m)); discriminate. }
  rewrite H in Hrun. injection Hrun as <- <- <- _.
  destruct (tally_loop_spec u d rs 0%nat (Tally 0 0 [])) as (Hi & Hs & He).
  rewrite Hi, Hs, He. simpl. fold N K messages.
  pose proof (failures_le u d rs) as Hle. fold N K in Hle.
  pose proof (failure_messages_length u d rs 0) as Hmsg. fold K messages in Hmsg.
  unfold Js.slice0.
  repeat split; try done; try lia.
  - by rewrite take_ge by lia.
  - rewrite take_ge by lia. done.
  - rewrite length_take. lia.
Qed.

Lemma bulk_report_counts_witness :
  let rs := [Example.viper_startup; Example.ghost_unknown_skill] in
  let N := length rs in
  let K := failures Example.instructor1 Example.squadron rs in
  let messages := failure_messages Example.instructor1 Example.squadron 0 rs in
  1%nat = (N - K)%nat ∧ 1%nat = K ∧ (1 + 1)%nat = N ∧
  length messages = K ∧
  ((K ≤ 20)%nat →
     [msg_pilot_other_wing 1 "GHOST"] = messages ∧
     length [msg_pilot_other_wing 1 "GHOST"] = K) ∧
  ((20 < K)%nat →
     [msg_pilot_other_wing 1 "GHOST"] = take 20 messages ∧
     length [msg_pilot_other_wing 1 "GHOST"] = 20%nat).
Proof.
  eapply (bulk_report_counts no_faults true Example.instructor1 7 Example.squadron
            [Example.viper_startup; Example.ghost_unknown_skill]).
  vm_compute. reflexivity.
Defined.

End BulkImport.

(** ** The order of the validation checks *)
Section ValidationOrder.
Import Sql Tx Auth Routes Reference.

Lemma first_fault_no_faults start len : first_fault no_faults start len = None.
Proof. by apply first_fault_none. Qed.

(** A fault-free turn of the loop yields the planned tally. *)
Lemma import_record_served u now i r t c :
  import_record no_faults u now i r t c =
    (Val (tally_step (verdict_of u (view c) i r) t),
     put_view (effect now (email u) (verdict_of u (view c) i r) (view c))
       (Conn (committed c) (tx c)
             (sent c + length (plan_record u (view c) i r).2)
             (log c ++ (plan_record u (view c) i r).2))).
Proof. by rewrite import_record_run, first_fault_no_faults. Qed.

Lemma verdict_source_order u d i r t :
  tally_step (verdict_of u d i r) t =
    match first_failure source_order u d i r with
    | Some msg => skip msg t
    | None => count_import t
    end.
Proof.
  unfold verdict_of, plan_record, source_order, first_failure.
  unfold check_fields, check_status, check_pilot_found, check_pilot_in_caller_wing,
    check_skill_found, check_skill_in_pilot_wing, check_skill_in_caller_wing,
    first_pilot, first_skill.
  destruct (Js.falsy (callsign r) || Js.falsy (skill_name r) || Js.falsy (status r)); [done|].
  destruct (Js.includes validStatuses (Js.toUpperCase (Js.text (status r)))); [|done].
  simpl.
  destruct (select_pilots_ilike (Js.trim (Js.text (callsign r))) d) as [|p ps]; [done|].
  simpl.
  destruct (is_instructor u && not_own_wing (p_wing_id p) u); [done|].
  destruct (select_skills_ilike (Js.trim (Js.text (skill_name r))) d) as [|s ss]; [done|].
  simpl.
  destruct (s_wing_id s =? p_wing_id p)%nat; [|done]. simpl.
  by destruct (is_instructor u && not_own_wing (s_wing_id s) u).
Qed.

(** C2 (amended).  The checks of a record run short-circuit in the order
    fields, status, pilot lookup, pilot in the caller's wing (instructor
    callers), skill lookup, skill in the pilot's wing, skill in the
    caller's wing (instructor callers): the loop body skips the record
    with the message of the first check that fails in that order, and
    counts it as imported when none fails.  In particular a record of an
    instructor whose pilot is of another wing and whose skill name
    matches nothing is reported with the wing-scope message. *)
Theorem validation_in_source_order u now i r t c :
  (import_record no_faults u now i r t c).1 =
    Val match first_failure source_order u (view c) i r with
        | Some msg => skip msg t
        | None => count_import t
        end ∧
  (is_instructor u = true →
   Js.falsy (callsign r) || Js.falsy (skill_name r) || Js.falsy (status r) = false →
   Js.includes validStatuses (Js.toUpperCase (Js.text (status r))) = true →
   ∀ p, first_pilot (view c) r = Some p → not_own_wing (p_wing_id p) u = true →
        first_skill (view c) r = None →
        (import_record no_faults u now i r t c).1 =
          Val (skip (msg_pilot_other_wing i (Js.text (callsign r))) t)).
Proof.
  rewrite import_record_served, <- verdict_source_order. split; [done|].
  intros Hinstr Hfields Hst p Hp Hwing _. cbn [fst]. f_equal.
  rewrite verdict_source_order.
  unfold source_order, first_failure, check_fields, check_status, check_pilot_found,
    check_pilot_in_caller_wing.
  by rewrite Hfields, Hst, Hp, Hinstr, Hwing.
Qed.

Lemma validation_in_source_order_witness :
  let c := Conn Example.squadron (Some Example.squadron) 1 [BEGIN] in
  let r := Example.ghost_unknown_skill in
  let t := Tally 0 0 [] in
  (import_record no_faults Example.instructor1 7 0 r t c).1 =
    Val match first_failure source_order Example.instructor1 (view c) 0 r with
        | Some msg => skip msg t
        | None => count_import t
        end ∧
  (import_record no_faults Example.instructor1 7 0 r t c).1 =
    Val (skip (msg_pilot_other_wing 0 "GHOST") t).
Proof.
  pose proof (validation_in_source_order Example.instructor1 7 0
                Example.ghost_unknown_skill (Tally 0 0 [])
                (Conn Example.squadron (Some Example.squadron) 1 [BEGIN])) as [H1 H2].
  split; [exact H1|].
  exact (H2 eq_refl eq_refl eq_refl (Pilot 2 "GHOST" 2) eq_refl eq_refl eq_refl).
Defined.

(** C2 fails as stated: an instructor of wing 1 submits GHOST (wing 2)
    with a skill name that matches nothing.  Read in the order of the
    specification the record fails on the skill lookup; the route
    reports the wing-scope message. *)
Lemma validation_order_counterexample :
  let r := Example.ghost_unknown_skill in
  first_skill Example.squadron r = None ∧
  (∃ p, first_pilot Example.squadron r = Some p ∧
        not_own_wing (p_wing_id p) Example.instructor1 = true) ∧
  first_failure spec_order Example.instructor1 Example.squadron 0 r =
    Some (msg_skill_not_found 0 "Nope") ∧
  (run (bulk_import no_faults true Example.instructor1 7 (Array [r]))
       (connect Example.squadron)).1 =
    Report 0 1 [msg_pilot_other_wing 0 "GHOST"] ∧
  msg_pilot_other_wing 0 "GHOST" ≠ msg_skill_not_found 0 "Nope".
Proof.
  repeat split.
  - exists (Pilot 2 "GHOST" 2). by vm_compute.
  - by vm_compute.
Qed.

End ValidationOrder.

(** ** Wing scoping of instructors in the import *)
Section WingScope.
Import Sql Tx Auth Routes Reference.

(** *** Appending strings *)
Lemma sapp_nil_l t : EmptyString +:+ t = t.
Proof. done. Qed.

Lemma sapp_cons a s t : String a s +:+ t = String a (s +:+ t).
Proof. done. Qed.

Lemma sapp_nil_r s : s +:+ EmptyString = s.
Proof. induction s as [|a s IH]; [done|]. by rewrite sapp_cons, IH. Qed.

Lemma sapp_assoc s t u : (s +:+ t) +:+ u = s +:+ (t +:+ u).
Proof. induction s as [|a s IH]; [done|]. by rewrite !sapp_cons, IH. Qed.

(** *** The texts of the three messages a record of another wing can get *)
Lemma msg_missing_text i :
  msg_missing i =
    "Row " +:+ pretty (i + 1)%nat +:+ ": missing callsign, skill_name, or status".
Proof. unfold msg_missing, Js.row_prefix. by rewrite !sapp_assoc. Qed.

Lemma msg_invalid_status_text i st :
  msg_invalid_status i st =
    "Row " +:+ pretty (i + 1)%nat +:+ ": invalid status " +:+
    String "034"%char (st +:+ String "034"%char EmptyString).
Proof.
  unfold msg_invalid_status, Js.row_prefix, Js.quoted, Js.dquote.
  by rewrite !sapp_assoc.
Qed.

Lemma msg_pilot_other_wing_text i cs :
  msg_pilot_other_wing i cs =
    "Row " +:+ pretty (i + 1)%nat +:+ ": pilot " +:+
    String "034"%char (cs +:+ String "034"%char " is not in your wing").
Proof.
  unfold msg_pilot_other_wing, Js.row_prefix, Js.quoted, Js.dquote.
  by rewrite !sapp_assoc.
Qed.

(** C5 (amended).  An instructor submits a record whose callsign
    resolves to a pilot of another wing.  Whatever the other fields hold
    and whatever the schedule, the turn sends at most the pilot lookup,
    never an upsert, leaves the tables as they are, and when it returns
    the record is counted as skipped, not imported, with one message.
    The message is the wing-scope one, [Row i+1: pilot "callsign" is not
    in your wing], when the three fields are present and the status is
    valid, whatever the skill name; a record with a missing field or an
    invalid status gets the message of that earlier check. *)
Theorem instructor_other_wing_skipped faults u now i r t c p rest :
  is_instructor u = true →
  select_pilots_ilike (Js.trim (Js.text (callsign r))) (view c) = p :: rest →
  not_own_wing (p_wing_id p) u = true →
  let out := import_record faults u now i r t c in
  let missing := Js.falsy (callsign r) || Js.falsy (skill_name r) || Js.falsy (status r) in
  let valid := Js.includes validStatuses (Js.toUpperCase (Js.text (status r))) in
  (∃ ss, log out.2 = (log c ++ ss)%list ∧
         ∀ s, s ∈ ss → s = SelectPilotsIlike (Js.trim (Js.text (callsign r)))) ∧
  view out.2 = view c ∧
  (∀ t', out.1 = Val t' →
     imported t' = imported t ∧ skipped t' = S (skipped t) ∧
     ∃ message, errors t' = (errors t ++ [message])%list ∧
       (missing = false → valid = true →
          message =
            "Row " +:+ pretty (i + 1)%nat +:+ ": pilot " +:+
            String "034"%char
              (Js.text (callsign r) +:+ String "034"%char " is not in your wing")) ∧
       (missing = true →
          message =
            "Row " +:+ pretty (i + 1)%nat +:+ ": missing callsign, skill_name, or status") ∧
       (missing = false → valid = false →
          message =
            "Row " +:+ pretty (i + 1)%nat +:+ ": invalid status " +:+
            String "034"%char (Js.text (status r) +:+ String "034"%char EmptyString))).
Proof.
  intros Hinstr Hsel Hwing out missing valid. subst out missing valid.
  rewrite import_record_run.
  unfold verdict_of, plan_record. rewrite Hsel, Hinstr, Hwing. simpl andb. cbv iota.
  destruct (Js.falsy (callsign r) || Js.falsy (skill_name r) || Js.falsy (status r)).
  { simpl. rewrite app_nil_r, Nat.add_0_r. rewrite put_view_view.
    split; [exists []; split; [by rewrite app_nil_r|by intros s Hs; apply elem_of_nil in Hs]|].
    split; [by destruct c|].
    intros t' [= <-]. split; [done|]. split; [done|].
    eexists. split; [done|]. split; [done|]. split; [|done].
    intros _. apply msg_missing_text. }
  destruct (Js.includes validStatuses (Js.toUpperCase (Js.text (status r)))).
  2:{ simpl. rewrite app_nil_r, Nat.add_0_r. rewrite put_view_view.
      split; [exists []; split; [by rewrite app_nil_r|by intros s Hs; apply elem_of_nil in Hs]|].
      split; [by destruct c|].
      intros t' [= <-]. split; [done|]. split; [done|].
      eexists. split; [done|]. split; [done|]. split; [done|].
      intros _ _. apply msg_invalid_status_text. }
  simpl. destruct (faults (sent c)); simpl.
  - split; [eexists; split; [done|]; by intros s ->%list_elem_of_singleton|].
    split; [by destruct c as [? [?|] ? ?]|]. done.
  - rewrite put_view_view.
    split; [eexists; split; [done|]; by intros s ->%list_elem_of_singleton|].
    split; [by destruct c as [? [?|] ? ?]|].
    intros t' [= <-]. split; [done|]. split; [done|].
    eexists. split; [done|]. split; [|done].
    intros _ _. apply msg_pilot_other_wing_text.
Qed.

Lemma instructor_other_wing_skipped_witness :
  let c := Conn Example.squadron (Some Example.squadron) 1 [BEGIN] in
  let r := Example.ghost_landing in
  let t := Tally 0 0 [] in
  let out := import_record no_faults Example.instructor1 7 0 r t c in
  out.1 =
    Val (Tally 0 1
           ["Row 1: pilot " +:+
            String "034"%char ("GHOST" +:+ String "034"%char " is not in your wing")]) ∧
  (∃ ss, log out.2 = (log c ++ ss)%list ∧
         ∀ s, s ∈ ss → s = SelectPilotsIlike (Js.trim (Js.text (callsign r)))) ∧
  view out.2 = view c.
Proof.
  cbv zeta. split; [by vm_compute|].
  destruct (instructor_other_wing_skipped no_faults Example.instructor1 7 0
              Example.ghost_landing (Tally 0 0 [])
              (Conn Example.squadron (Some Example.squadron) 1 [BEGIN])
              (Pilot 2 "GHOST" 2) [] eq_refl eq_refl eq_refl) as (Hlog & Hview & _).
  by split.
Defined.

(** The callsign resolves to GHOST, a pilot of wing 2, and the caller is
    an instructor of wing 1; the status is not a valid one.  The record
    is skipped with the message of the status check, which is not a
    wing-scope message. *)
Lemma wing_scope_message_counterexample :
  let c := Conn Example.squadron (Some Example.squadron) 1 [BEGIN] in
  let r := Record_ (Some "GHOST") (Some "Landing") (Some "XX") in
  let out := import_record no_faults Example.instructor1 7 0 r (Tally 0 0 []) c in
  is_instructor Example.instructor1 = true ∧
  select_pilots_ilike (Js.trim (Js.text (callsign r))) (view c) = [Pilot 2 "GHOST" 2] ∧
  not_own_wing 2 Example.instructor1 = true ∧
  out.1 =
    Val (Tally 0 1
           ["Row 1: invalid status " +:+
            String "034"%char ("XX" +:+ String "034"%char EmptyString)]) ∧
  out.1 ≠
    Val (Tally 0 1
           ["Row 1: pilot " +:+
            String "034"%char ("GHOST" +:+ String "034"%char " is not in your wing")]).
Proof. cbv zeta. repeat split; by vm_compute. Qed.

End WingScope.

(** ** White space around the fields of a record *)
Section Whitespace.
Import Sql Tx Auth Routes Reference.

Lemma trimStart_blank l s : blank l = true → Js.trimStart (l +:+ s) = Js.trimStart s.
Proof.
  induction l as [|a l IH]; simpl; [done|].
  intros [Ha Hl]%andb_prop. rewrite Ha. by apply IH.
Qed.

Lemma trimStart_all_blank r : blank r = true → Js.trimStart r = EmptyString.
Proof.
  induction r as [|a r IH]; simpl; [done|].
  intros [Ha Hr]%andb_prop. rewrite Ha. by apply IH.
Qed.

Lemma trimEnd_blank r : blank r = true → Js.trimEnd r = EmptyString.
Proof.
  induction r as [|a r IH]; simpl; [done|].
  intros [Ha Hr]%andb_prop. by rewrite IH, Ha.
Qed.

Lemma trimEnd_app_blank s r : blank r = true → Js.trimEnd (s +:+ r) = Js.trimEnd s.
Proof.
  intros Hr. induction s as [|a s IH]; simpl.
  - by apply trimEnd_blank.
  - by rewrite IH.
Qed.

Lemma trim_app_blank s r : blank r = true → Js.trim (s +:+ r) = Js.trim s.
Proof.
  intros Hr. unfold Js.trim. induction s as [|a s IH]; simpl.
  - by rewrite trimStart_all_blank.
  - destruct (Js.is_space a); [done|].
    change (String a (s +:+ r)) with (String a s +:+ r).
    by apply trimEnd_app_blank.
Qed.

Lemma trim_pad l s r :
  blank l = true → blank r = true → Js.trim (pad l s r) = Js.trim s.
Proof.
  intros Hl Hr. unfold pad, Js.trim. rewrite trimStart_blank by done.
  by apply trim_app_blank.
Qed.

Lemma falsy_pad l r x : Js.falsy x = false → Js.falsy (pad_field l r x) = false.
Proof.
  destruct x as [[|a s]|]; simpl; try done. intros _.
  unfold pad. by destruct l.
Qed.

Lemma trim_text_pad l r x :
  blank l = true → blank r = true → Js.falsy x = false →
  Js.trim (Js.text (pad_field l r x)) = Js.trim (Js.text x).
Proof.
  intros Hl Hr. destruct x as [s|]; simpl; [|done]. intros _. by apply trim_pad.
Qed.

Lemma plan_record_pad u d i r l1 r1 l2 r2 :
  blank l1 = true → blank r1 = true → blank l2 = true → blank r2 = true →
  Js.falsy (callsign r) = false → Js.falsy (skill_name r) = false →
  let r' := Record_ (pad_field l1 r1 (callsign r)) (pad_field l2 r2 (skill_name r))
                    (status r) in
  (plan_record u d i r').2 = (plan_record u d i r).2 ∧
  same_outcome (verdict_of u d i r) (verdict_of u d i r').
Proof.
  intros Hl1 Hr1 Hl2 Hr2 Hcs Hsn r'. unfold verdict_of, plan_record. subst r'.
  cbn [callsign skill_name status].
  rewrite (falsy_pad _ _ _ Hcs), (falsy_pad _ _ _ Hsn), Hcs, Hsn.
  rewrite (trim_text_pad _ _ _ Hl1 Hr1 Hcs), (trim_text_pad _ _ _ Hl2 Hr2 Hsn).
  cbn [orb]. destruct (Js.falsy (status r)); [by split|].
  destruct (Js.includes validStatuses (Js.toUpperCase (Js.text (status r)))); [|by split].
  cbn [negb].
  destruct (select_pilots_ilike (Js.trim (Js.text (callsign r))) d) as [|p ps]; [by split|].
  destruct (is_instructor u && not_own_wing (p_wing_id p) u); [by split|].
  destruct (select_skills_ilike (Js.trim (Js.text (skill_name r))) d) as [|s ss];
    [by split|].
  destruct (s_wing_id s =? p_wing_id p)%nat; [|by split]. cbn [negb].
  destruct (is_instructor u && not_own_wing (s_wing_id s) u); by repeat split.
Qed.

Lemma is_space_upper a : Js.is_space (Js.upper_ascii a) = Js.is_space a.
Proof. by destruct a as [[] [] [] [] [] [] [] []]. Qed.

Lemma has_space_upper s : has_space (Js.toUpperCase s) = has_space s.
Proof. induction s as [|a s IH]; simpl; [done|]. by rewrite is_space_upper, IH. Qed.

Lemma has_space_app a b : has_space (a +:+ b) = has_space a || has_space b.
Proof. induction a as [|x a IH]; simpl; [done|]. by rewrite IH, orb_assoc. Qed.

Lemma blank_has_space s : blank s = true → s ≠ EmptyString → has_space s = true.
Proof. destruct s as [|a s]; simpl; [done|]. by intros [-> _]%andb_prop _. Qed.

Lemma valid_status_no_space st :
  Js.includes validStatuses st = true → has_space st = false.
Proof.
  unfold Js.includes, validStatuses. simpl.
  destruct (String.eqb_spec st "NMQ") as [->|_]; [done|].
  destruct (String.eqb_spec st "MQT") as [->|_]; [done|].
  destruct (String.eqb_spec st "FMQ") as [->|_]; [done|].
  destruct (String.eqb_spec st "IP") as [->|_]; [done|]. done.
Qed.

Lemma append_empty_r s : s +:+ EmptyString = s.
Proof.
  induction s as [|x s IH]; [done|].
  change (String x (s +:+ EmptyString) = String x s). by rewrite IH.
Qed.

Lemma padded_status_invalid l r st :
  blank l = true → blank r = true → pad l st r ≠ st →
  Js.includes validStatuses (Js.toUpperCase (pad l st r)) = false.
Proof.
  intros Hl Hr Hne.
  destruct (Js.includes validStatuses (Js.toUpperCase (pad l st r))) eqn:E; [|done].
  apply valid_status_no_space in E. rewrite has_space_upper in E.
  unfold pad in *. rewrite !has_space_app in E.
  apply orb_false_elim in E as [El [_ Er]%orb_false_elim].
  destruct l as [|a l].
  - destruct r as [|b r]; [|by rewrite (blank_has_space _ Hr) in Er].
    exfalso. apply Hne. simpl. apply append_empty_r.
  - by rewrite (blank_has_space _ Hl) in El.
Qed.

(** C6 (amended).  The loop body trims the callsign and the skill name
    before the lookups, and only those.  White space added around a
    callsign or a skill name that is present changes nothing but the
    text of a message: under any schedule the turn sends the same
    statements, leaves the same tables and either throws both times or
    counts the record the same way.  The status is validated as
    submitted: padded with white space it is never a valid status. *)
Theorem whitespace_in_lookup_fields faults u now i r t c l1 r1 l2 r2 :
  blank l1 = true → blank r1 = true → blank l2 = true → blank r2 = true →
  Js.falsy (callsign r) = false → Js.falsy (skill_name r) = false →
  let r' := Record_ (pad_field l1 r1 (callsign r)) (pad_field l2 r2 (skill_name r))
                    (status r) in
  let out := import_record faults u now i r t c in
  let out' := import_record faults u now i r' t c in
  out'.2 = out.2 ∧
  match out.1, out'.1 with
  | Val t1, Val t2 => imported t2 = imported t1 ∧ skipped t2 = skipped t1
  | Thrown, Thrown => True
  | _, _ => False
  end ∧
  (∀ st, pad l1 st r1 ≠ st →
     Js.includes validStatuses (Js.toUpperCase (pad l1 st r1)) = false).
Proof.
  intros Hl1 Hr1 Hl2 Hr2 Hcs Hsn r' out out'. subst out out'.
  rewrite !import_record_run.
  destruct (plan_record_pad u (view c) i r l1 r1 l2 r2 Hl1 Hr1 Hl2 Hr2 Hcs Hsn)
    as [Hplan Hv].
  fold r' in Hplan, Hv. rewrite Hplan.
  destruct (first_fault faults (sent c) (length (plan_record u (view c) i r).2)).
  { simpl. split; [done|]. split; [done|]. intros st. by apply padded_status_invalid. }
  simpl. unfold same_outcome in Hv.
  destruct (verdict_of u (view c) i r) as [m|pid sid st],
           (verdict_of u (view c) i r') as [m'|pid' sid' st']; try done.
  - split; [done|]. split; [done|]. intros st. by apply padded_status_invalid.
  - destruct Hv as (-> & -> & ->).
    split; [done|]. split; [done|]. intros st0. by apply padded_status_invalid.
Qed.

Lemma whitespace_in_lookup_fields_witness :
  let r := Example.viper_startup in
  let c := Conn Example.squadron (Some Example.squadron) 1 [BEGIN] in
  let r' := Record_ (pad_field " " "  " (callsign r)) (pad_field "  " " " (skill_name r))
                    (status r) in
  let out := import_record no_faults Example.admin 7 0 r (Tally 0 0 []) c in
  let out' := import_record no_faults Example.admin 7 0 r' (Tally 0 0 []) c in
  out'.2 = out.2 ∧
  match out.1, out'.1 with
  | Val t1, Val t2 => imported t2 = imported t1 ∧ skipped t2 = skipped t1
  | Thrown, Thrown => True
  | _, _ => False
  end ∧
  (∀ st, pad " " st "  " ≠ st →
     Js.includes validStatuses (Js.toUpperCase (pad " " st "  ")) = false).
Proof.
  apply (whitespace_in_lookup_fields no_faults Example.admin 7 0 Example.viper_startup
           (Tally 0 0 []) (Conn Example.squadron (Some Example.squadron) 1 [BEGIN])
           " " "  " "  " " "); reflexivity.
Defined.

(** C6 fails as stated: one space after a valid status turns an
    imported record into a skipped one. *)
Lemma whitespace_status_counterexample :
  status Example.viper_startup_status_padded =
    pad_field EmptyString " " (status Example.viper_startup_plain) ∧
  callsign Example.viper_startup_status_padded = callsign Example.viper_startup_plain ∧
  skill_name Example.viper_startup_status_padded = skill_name Example.viper_startup_plain ∧
  (run (bulk_import no_faults true Example.admin 7 (Array [Example.viper_startup_plain]))
       (connect Example.squadron)).1 = Report 1 0 [] ∧
  (run (bulk_import no_faults true Example.admin 7 (Array [Example.viper_startup_status_padded]))
       (connect Example.squadron)).1 = Report 0 1 [msg_invalid_status 0 "FMQ "].
Proof. repeat split. Qed.

End Whitespace.

(** ** Request-level rejection of a batch *)
Section RequestGuards.
Import Sql Tx Auth Routes Reference.

Lemma report_covers_batch faults connects u now d rs c a b es :
  run (bulk_import faults connects u now (Array rs)) (connect d) = (Report a b es, c) →
  (a + b)%nat = length rs ∧ rs ≠ [].
Proof.
  intros Hrun.
  pose proof (bulk_import_report_client _ _ _ _ _ _ _ _ _ _ Hrun) as ->.
  destruct (bulk_import_report_inv _ _ _ _ _ _ _ _ _ _ Hrun) as (Hrole & Hne & Hlen).
  split; [|done].
  pose proof (bulk_import_run faults u now d rs Hrole Hne Hlen) as H.
  cbv zeta in H.
  destruct (first_fault faults 0 (length (plan_bulk u d rs))) as [m|].
  { destruct H as (txf & H & _). rewrite H in Hrun.
    destruct (faults (S m)); discriminate. }
  rewrite H in Hrun. injection Hrun as <- <- _ _.
  destruct (tally_loop_spec u d rs 0%nat (Tally 0 0 [])) as (Hi & Hs & _).
  rewrite Hi, Hs. simpl. pose proof (failures_le u d rs). lia.
Qed.

(** C9. A request whose [records] is missing, is not an array or is the
    empty array is answered with a request-level error (400 for a caller
    that passed the role check) and the connection is left untouched: no
    statement is sent, so no transaction is opened.  No request at all
    is answered with the report of an empty batch. *)
Theorem bulk_rejects_malformed_records faults connects u now c :
  let rejected :=
    (if requireRole ["instructor"; "admin"] u
     then Error 400 "records array is required"
     else Error 403 "Insufficient permissions", c) in
  run (bulk_import faults connects u now Absent) c = rejected ∧
  run (bulk_import faults connects u now NotArray) c = rejected ∧
  run (bulk_import faults connects u now (Array [])) c = rejected ∧
  (∀ body d, (run (bulk_import faults connects u now body) (connect d)).1 ≠ Report 0 0 []).
Proof.
  cbv zeta. split; [|split; [|split]].
  - unfold bulk_import, run. by destruct (requireRole _ u).
  - unfold bulk_import, run. by destruct (requireRole _ u).
  - unfold bulk_import, run. by destruct (requireRole _ u).
  - intros body d Hreport.
    destruct body as [| |rs].
    + unfold bulk_import, run in Hreport. by destruct (requireRole _ u).
    + unfold bulk_import, run in Hreport. by destruct (requireRole _ u).
    + destruct (run (bulk_import faults connects u now (Array rs)) (connect d))
        as [resp c'] eqn:Hrun.
      simpl in Hreport. subst resp.
      apply report_covers_batch in Hrun as [Hsum Hne].
      destruct rs; [done|]. simpl in Hsum. lia.
Qed.

End RequestGuards.

(** ** The lookups are pattern matches *)
Section IlikeLookup.
Import Sql Tx Auth Routes Reference.






End IlikeLookup.

(** ** The backfill *)
Section Backfill.
Import Sql Tx Auth Routes Reference.

Lemma backfill_select_spec d pid sid :
  (pid, sid) ∈ backfill_select d ↔
    ∃ p s, p ∈ pilots d ∧ s ∈ skills d ∧ p_id p = pid ∧ s_id s = sid ∧
           s_wing_id s = p_wing_id p ∧ qualifications d !! (pid, sid) = None.
Proof.
  unfold backfill_select. rewrite list_elem_of_bind. split.
  - intros (p & Hin & Hp). apply list_elem_of_bind in Hin as (s & Hin & Hs).
    destruct (s_wing_id s =? p_wing_id p)%nat eqn:Hw; simpl in Hin;
      [|by apply elem_of_nil in Hin].
    case_bool_decide as Hq; simpl in Hin; [by apply elem_of_nil in Hin|].
    apply list_elem_of_singleton in Hin as [= -> ->].
    exists p, s. apply Nat.eqb_eq in Hw.
    repeat split; try done. by apply eq_None_not_Some.
  - intros (p & s & Hp & Hs & <- & <- & Hw & Hq). exists p. split; [|done].
    apply list_elem_of_bind. exists s. split; [|done].
    apply Nat.eqb_eq in Hw. rewrite Hw. simpl.
    rewrite bool_decide_eq_false_2; [by apply list_elem_of_singleton|].
    rewrite Hq. by intros [? ?].
Qed.

Lemma insert_do_nothing_step now by_ m n key :
  insert_do_nothing now by_ (m, n) key =
    match m !! key with
    | Some _ => (m, n)
    | None => (<[key := Qualification "NMQ" now by_]> m, S n)
    end.
Proof. done. Qed.

Lemma insert_do_nothing_fold now by_ keys : ∀ m n,
  let r := foldl (insert_do_nothing now by_) (m, n) keys in
  (∀ k q, m !! k = Some q → r.1 !! k = Some q) ∧
  (∀ k, k ∈ keys → is_Some (r.1 !! k)) ∧
  (∀ k q, r.1 !! k = Some q → m !! k = Some q ∨ (k ∈ keys ∧ q = Qualification "NMQ" now by_)).
Proof.
  induction keys as [|key keys IH]; intros m n; simpl.
  { split; [done|]. split; [by intros k Hk; apply elem_of_nil in Hk|]. by left. }
  rewrite insert_do_nothing_step.
  destruct (m !! key) as [q0|] eqn:Hkey.
  - destruct (IH m n) as (Hkeep & Hall & Hnew). simpl in *.
    split; [done|]. split.
    + intros k [->|Hk]%elem_of_cons; [|by apply Hall].
      exists q0. by apply Hkeep.
    + intros k q Hq. destruct (Hnew k q Hq) as [?|[? ?]]; [by left|right].
      split; [by apply elem_of_cons; right|done].
  - destruct (IH (<[key := Qualification "NMQ" now by_]> m) (S n)) as (Hkeep & Hall & Hnew).
    simpl in *. split.
    + intros k q Hq. apply Hkeep. rewrite lookup_insert_ne; [done|]. by intros ->; simplify_eq.
    + split.
      * intros k [->|Hk]%elem_of_cons; [|by apply Hall].
        eexists. apply Hkeep. apply lookup_insert_eq.
      * intros k q Hq. destruct (Hnew k q Hq) as [Hins|[? ?]].
        -- destruct (decide (key = k)) as [->|Hne].
           ++ rewrite lookup_insert_eq in Hins. simplify_eq. right.
              split; [by apply elem_of_cons; left|done].
           ++ rewrite lookup_insert_ne in Hins by done. by left.
        -- right. split; [by apply elem_of_cons; right|done].
Qed.

(** After a backfill every pilot and skill of one wing have a row. *)
Lemma backfill_covers now by_ d p s :
  p ∈ pilots d → s ∈ skills d → s_wing_id s = p_wing_id p →
  is_Some (qualifications (backfill now by_ d).1 !! (p_id p, s_id s)).
Proof.
  intros Hp Hs Hw. unfold backfill. simpl.
  destruct (insert_do_nothing_fold now by_ (backfill_select d) (qualifications d) 0)
    as (Hkeep & Hall & _).
  destruct (qualifications d !! (p_id p, s_id s)) as [q|] eqn:Hq.
  - exists q. by apply Hkeep.
  - apply Hall. apply backfill_select_spec. by exists p, s.
Qed.

Lemma backfill_select_nil d :
  (∀ p s, p ∈ pilots d → s ∈ skills d → s_wing_id s = p_wing_id p →
          is_Some (qualifications d !! (p_id p, s_id s))) →
  backfill_select d = [].
Proof.
  intros Hall. apply elem_of_nil_inv. intros [pid sid] Hin.
  apply backfill_select_spec in Hin as (p & s & Hp & Hs & <- & <- & Hw & Hq).
  destruct (Hall p s Hp Hs Hw) as [q Hq']. congruence.
Qed.

Lemma backfill_twice now by_ now' by_' d :
  backfill now' by_' (backfill now by_ d).1 = ((backfill now by_ d).1, 0%nat).
Proof.
  set (d1 := (backfill now by_ d).1).
  assert (backfill_select d1 = []) as Hnil.
  { apply backfill_select_nil. intros p s Hp Hs Hw. by apply backfill_covers. }
  clearbody d1. unfold backfill. rewrite Hnil. simpl. by destruct d1.
Qed.

Lemma backfill_route_served u now d :
  requireRole ["admin"] u = true →
  run (backfill_route no_faults u now) (connect d) =
    (BackfillDone (backfill now (email u) d).2,
     Conn (backfill now (email u) d).1 None 1 [BackfillInsert (email u)]).
Proof. intros Hrole. unfold backfill_route, run. by rewrite Hrole. Qed.

(** C8. The backfill is idempotent.  A first run gives every pilot and
    skill of one wing a row, keeps the rows that exist and adds only NMQ
    rows; a second run on the tables it leaves, by any admin at any time,
    answers rowsInserted = 0 and leaves the tables as they are. *)
Theorem backfill_idempotent u u' now now' d :
  requireRole ["admin"] u = true → requireRole ["admin"] u' = true →
  let first := run (backfill_route no_faults u now) (connect d) in
  let d1 := committed first.2 in
  (∃ n, first.1 = BackfillDone n) ∧
  (∀ p s, p ∈ pilots d → s ∈ skills d → s_wing_id s = p_wing_id p →
          is_Some (qualifications d1 !! (p_id p, s_id s))) ∧
  (∀ k q, qualifications d !! k = Some q → qualifications d1 !! k = Some q) ∧
  (∀ k q, qualifications d !! k = None → qualifications d1 !! k = Some q →
          q = Qualification "NMQ" now (email u)) ∧
  run (backfill_route no_faults u' now') (connect d1) =
    (BackfillDone 0, Conn d1 None 1 [BackfillInsert (email u')]).
Proof.
  intros Hrole Hrole' first d1. subst first d1.
  rewrite (backfill_route_served u now d Hrole). cbn [fst snd committed].
  split; [by eexists|]. split; [by intros; apply backfill_covers|].
  destruct (insert_do_nothing_fold now (email u) (backfill_select d) (qualifications d) 0)
    as (Hkeep & _ & Hnew).
  split; [done|]. split.
  - intros k q Hnone Hq. destruct (Hnew k q Hq) as [?|[_ ?]]; [congruence|done].
  - rewrite (backfill_route_served u' now' _ Hrole'). by rewrite backfill_twice.
Qed.

Lemma backfill_idempotent_witness :
  let first := run (backfill_route no_faults Example.admin 7) (connect Example.squadron) in
  let d1 := committed first.2 in
  (∃ n, first.1 = BackfillDone n) ∧
  (∀ p s, p ∈ pilots Example.squadron → s ∈ skills Example.squadron →
          s_wing_id s = p_wing_id p →
          is_Some (qualifications d1 !! (p_id p, s_id s))) ∧
  (∀ k q, qualifications Example.squadron !! k = Some q → qualifications d1 !! k = Some q) ∧
  (∀ k q, qualifications Example.squadron !! k = None → qualifications d1 !! k = Some q →
          q = Qualification "NMQ" 7 (email Example.admin)) ∧
  run (backfill_route no_faults Example.admin 9) (connect d1) =
    (BackfillDone 0, Conn d1 None 1 [BackfillInsert (email Example.admin)]).
Proof.
  apply (backfill_idempotent Example.admin Example.admin 7 9 Example.squadron);
    reflexivity.
Defined.

End Backfill.

(** ** The combat-ready count *)
Section CombatReady.
Import Sql Tx Auth Routes Reference.

Lemma elem_of_List_filter {A} (f : A → bool) (l : list A) x :
  x ∈ List.filter f l ↔ x ∈ l ∧ f x = true.
Proof. by rewrite !list_elem_of_In, filter_In. Qed.

Lemma NoDup_List_filter {A} (f : A → bool) (l : list A) :
  NoDup l → NoDup (List.filter f l).
Proof.
  induction 1 as [|x l Hx Hl IH]; simpl; [constructor|].
  destruct (f x); [|done]. constructor; [|done].
  rewrite elem_of_List_filter. by intros [? _].
Qed.

Lemma NoDup_fmap_List_filter {A B} (g : A → B) (f : A → bool) (l : list A) :
  NoDup (g <$> l) → NoDup (g <$> List.filter f l).
Proof.
  induction l as [|x l IH]; simpl; [done|].
  intros [Hx Hl]%NoDup_cons. destruct (f x); simpl; [|by apply IH].
  apply NoDup_cons. split; [|by apply IH].
  intros (y & Hy & Hin)%list_elem_of_fmap. apply Hx.
  apply list_elem_of_fmap. exists y. split; [done|].
  by apply elem_of_List_filter in Hin as [? _].
Qed.

Lemma occ_app k a b : occ k (a ++ b) = (occ k a + occ k b)%nat.
Proof. unfold occ. by rewrite List.filter_app, length_app. Qed.

Lemma occ_pos k ks : (0 < occ k ks)%nat → k ∈ ks.
Proof.
  unfold occ. destruct (List.filter (Nat.eqb k) ks) as [|x l] eqn:E; simpl; [lia|].
  intros _. assert (x ∈ List.filter (Nat.eqb k) ks) as Hx by (rewrite E; left).
  apply elem_of_List_filter in Hx as [Hx Hk]. by apply Nat.eqb_eq in Hk as ->.
Qed.

Lemma occ_rows_global k (rows : list (nat * nat * qualification)) :
  occ k (row ← rows; if fmq_or_ip row.2 then [row.1.1] else []) = length (held k rows).
Proof.
  induction rows as [|row rows IH]; [done|].
  rewrite bind_cons, occ_app, IH. unfold held. simpl.
  rewrite (Nat.eqb_sym row.1.1 k).
  destruct (fmq_or_ip row.2); unfold occ; simpl; [|by rewrite andb_false_r].
  by destruct (k =? row.1.1)%nat.
Qed.

Lemma wing_pilots_le_1 w k ps : NoDup (p_id <$> ps) → (length (wing_pilots w k ps) ≤ 1)%nat.
Proof.
  induction ps as [|p ps IH]; simpl; [lia|].
  intros [Hp Hps]%NoDup_cons. specialize (IH Hps).
  destruct (p_id p =? k)%nat eqn:E; simpl; [|done].
  destruct (p_wing_id p =? w)%nat; simpl; [|done].
  apply Nat.eqb_eq in E. subst k.
  destruct (wing_pilots w (p_id p) ps) as [|q qs] eqn:F; simpl; [lia|].
  exfalso. apply Hp.
  assert (q ∈ wing_pilots w (p_id p) ps) as Hq by (rewrite F; left).
  apply elem_of_List_filter in Hq as [Hq [Hid _]%andb_prop].
  apply Nat.eqb_eq in Hid. rewrite <- Hid. by apply list_elem_of_fmap_2.
Qed.

Lemma wing_pilots_pos w k ps :
  (0 < length (wing_pilots w k ps))%nat ↔
    ∃ p, p ∈ ps ∧ p_id p = k ∧ p_wing_id p = w.
Proof.
  split.
  - destruct (wing_pilots w k ps) as [|p l] eqn:E; simpl; [lia|]. intros _.
    assert (p ∈ wing_pilots w k ps) as Hp by (rewrite E; left).
    apply elem_of_List_filter in Hp as [Hp [Hid Hw]%andb_prop].
    exists p. by rewrite Nat.eqb_eq in Hid, Hw.
  - intros (p & Hp & Hid & Hw).
    assert (p ∈ wing_pilots w k ps) as Hin.
    { apply elem_of_List_filter. split; [done|].
      apply andb_true_intro. by rewrite !Nat.eqb_eq. }
    destruct (wing_pilots w k ps); [by apply elem_of_nil in Hin|simpl; lia].
Qed.

Lemma occ_pilots_join w k (row : nat * nat * qualification) ps :
  occ k (p ← ps;
         if (p_id p =? row.1.1)%nat && fmq_or_ip row.2 && (p_wing_id p =? w)%nat
         then [row.1.1] else []) =
    if (row.1.1 =? k)%nat && fmq_or_ip row.2 then length (wing_pilots w k ps) else 0%nat.
Proof.
  induction ps as [|p ps IH].
  { simpl. by destruct (_ && _). }
  rewrite bind_cons, occ_app, IH. unfold wing_pilots. simpl.
  destruct (row.1.1 =? k)%nat eqn:E; simpl.
  - apply Nat.eqb_eq in E. rewrite E.
    destruct (p_id p =? k)%nat; simpl; [|done].
    destruct (fmq_or_ip row.2); simpl; [|done].
    destruct (p_wing_id p =? w)%nat; simpl; [|done].
    unfold occ. simpl. by rewrite Nat.eqb_refl.
  - destruct (_ && _ && _); [|done].
    unfold occ. simpl. rewrite Nat.eqb_sym, E. done.
Qed.

Lemma occ_rows_wing w k ps (rows : list (nat * nat * qualification)) :
  occ k (row ← rows; p ← ps;
         if (p_id p =? row.1.1)%nat && fmq_or_ip row.2 && (p_wing_id p =? w)%nat
         then [row.1.1] else []) =
    (length (wing_pilots w k ps) * length (held k rows))%nat.
Proof.
  induction rows as [|row rows IH]; [unfold occ, held; simpl; lia|].
  rewrite bind_cons, occ_app, IH, occ_pilots_join. unfold held. simpl.
  destruct (_ && _); simpl; lia.
Qed.

(** The WHERE clause of the statement keeps the rows whose status is, in
    the specification's words, FMQ or IP. *)
Lemma fmq_or_ip_spec q : fmq_or_ip q = status_fmq_or_ip q.
Proof.
  unfold fmq_or_ip, status_fmq_or_ip, Js.includes. simpl.
  destruct (String.eqb_spec (q_status q) "FMQ") as [->|H1]; [done|].
  destruct (String.eqb_spec (q_status q) "IP") as [->|H2]; [done|].
  simpl. symmetry. apply bool_decide_eq_false. by intros [?|?].
Qed.

Lemma held_spec k rows :
  held k rows =
    List.filter (fun row : nat * nat * qualification =>
                   (row.1.1 =? k)%nat && status_fmq_or_ip row.2) rows.
Proof.
  unfold held. apply List.filter_ext. intros row. by rewrite fmq_or_ip_spec.
Qed.

Lemma elem_of_qualified_skills d pid sid :
  sid ∈ qualified_skills d pid ↔
    ∃ q, qualifications d !! (pid, sid) = Some q ∧
         (q_status q = "FMQ" ∨ q_status q = "IP").
Proof.
  unfold qualified_skills. rewrite elem_of_list_to_set, list_elem_of_fmap. split.
  - intros ([[pid' sid'] q] & -> & Hin). apply elem_of_List_filter in Hin as [Hin Hf].
    apply elem_of_map_to_list in Hin. simpl in *.
    apply andb_prop in Hf as [->%Nat.eqb_eq Hf]. exists q. split; [done|].
    by apply bool_decide_eq_true in Hf.
  - intros (q & Hq & Hf). exists (pid, sid, q). split; [done|].
    apply elem_of_List_filter. split; [by apply elem_of_map_to_list|].
    simpl. rewrite Nat.eqb_refl. simpl. by apply bool_decide_eq_true.
Qed.

Lemma held_size d k :
  length (held k (map_to_list (qualifications d))) = size (qualified_skills d k).
Proof.
  unfold qualified_skills. rewrite <- held_spec.
  rewrite size_list_to_set, length_fmap; [done|].
  apply NoDup_fmap_2_strong.
  - intros [[p1 s1] q1] [[p2 s2] q2] H1 H2 Heq. simpl in Heq. subst s2.
    apply elem_of_List_filter in H1 as [H1 [E1 _]%andb_prop].
    apply elem_of_List_filter in H2 as [H2 [E2 _]%andb_prop].
    simpl in *. apply Nat.eqb_eq in E1, E2. subst p1 p2.
    apply elem_of_map_to_list in H1, H2. congruence.
  - apply NoDup_List_filter, NoDup_map_to_list.
Qed.

Lemma held_referenced d k :
  pilots_referenced d → (0 < length (held k (map_to_list (qualifications d))))%nat →
  ∃ p, p ∈ pilots d ∧ p_id p = k.
Proof.
  intros Href. destruct (held k (map_to_list (qualifications d))) as [|row l] eqn:E;
    simpl; [lia|]. intros _.
  assert (row ∈ held k (map_to_list (qualifications d))) as Hrow by (rewrite E; left).
  apply elem_of_List_filter in Hrow as [Hrow [Hk _]%andb_prop].
  apply Nat.eqb_eq in Hk. destruct row as [[pid sid] q]. simpl in Hk. subst pid.
  apply elem_of_map_to_list in Hrow. by eapply Href.
Qed.

(** The group of [k] in the FROM ... WHERE rows. *)
Lemma occ_qualified_rows wing d k :
  occ k (qualified_rows wing d) =
    match wing with
    | Some w => (length (wing_pilots w k (pilots d)) *
                 length (held k (map_to_list (qualifications d))))%nat
    | None => length (held k (map_to_list (qualifications d)))
    end.
Proof.
  destruct wing as [w|]; unfold qualified_rows.
  - apply occ_rows_wing.
  - apply occ_rows_global.
Qed.

Lemma fst_having_group n (c : nat → nat) (l : list nat) :
  (having_count_ge n ((fun k => (k, c k)) <$> l)).*1 =
    List.filter (fun k => (n <=? c k)%nat) l.
Proof.
  unfold having_count_ge. induction l as [|k l IH]; simpl; [done|].
  destruct (n <=? c k)%nat; simpl; [f_equal|]; exact IH.
Qed.

(** Who the subquery returns. *)
Lemma combat_ready_subquery_spec wing d pid :
  unique_ids d → (wing = None → pilots_referenced d) →
  pid ∈ (combat_ready_subquery wing d).*1 ↔
    (∃ p, p ∈ pilots d ∧ p_id p = pid ∧ in_wing wing p = true) ∧
    (3 ≤ size (qualified_skills d pid))%nat.
Proof.
  intros [Hids _] Href. unfold combat_ready_subquery, group_count.
  rewrite (fst_having_group 3 (fun k => occ k (qualified_rows wing d))).
  rewrite elem_of_List_filter, elem_of_remove_dups, Nat.leb_le.
  rewrite occ_qualified_rows, <- held_size.
  destruct wing as [w|].
  - pose proof (wing_pilots_le_1 w pid (pilots d) Hids) as Hle.
    pose proof (wing_pilots_pos w pid (pilots d)) as Hpos.
    split.
    + intros [_ H3]. split; [|nia].
      destruct Hpos as [Hpos _]. destruct Hpos as (p & ? & ? & ?); [nia|].
      exists p. simpl. by rewrite Nat.eqb_eq.
    + intros [(p & Hp & Hid & Hw) H3]. simpl in Hw. apply Nat.eqb_eq in Hw.
      assert (0 < length (wing_pilots w pid (pilots d)))%nat as H0.
      { apply Hpos. by exists p. }
      assert (3 ≤ length (wing_pilots w pid (pilots d)) *
                  length (held pid (map_to_list (qualifications d))))%nat as Hocc by nia.
      split; [|done]. apply occ_pos. rewrite (occ_qualified_rows (Some w)). lia.
  - split.
    + intros [_ H3]. split; [|done].
      destruct (held_referenced d pid (Href eq_refl)) as (p & ? & ?); [lia|].
      by exists p.
    + intros [_ H3]. split; [|done].
      apply occ_pos. rewrite (occ_qualified_rows None). lia.
Qed.

Lemma combat_ready_query_count wing d :
  unique_ids d → (wing = None → pilots_referenced d) →
  combat_ready_query wing d = combat_ready_count wing d.
Proof.
  intros Hu Href. unfold combat_ready_query, count_distinct, combat_ready_count.
  rewrite <- (length_fmap p_id).
  apply Permutation_length, NoDup_Permutation.
  - apply NoDup_remove_dups.
  - apply NoDup_fmap_List_filter. by destruct Hu.
  - intros pid. rewrite elem_of_remove_dups, (combat_ready_subquery_spec wing d pid Hu Href).
    rewrite list_elem_of_fmap. unfold combat_ready. split.
    + intros [(p & Hp & Hid & Hw) H3]. exists p. split; [done|].
      apply elem_of_List_filter. split; [done|].
      rewrite Hw, Hid. cbn [andb]. by apply Nat.leb_le.
    + intros (p & -> & Hp). apply elem_of_List_filter in Hp as [Hp [Hw H3]%andb_prop].
      apply Nat.leb_le in H3. split; [by exists p|done].
Qed.

(** C7. On tables that respect the primary keys (and, for the global
    count, the foreign key to pilots), combat_ready_pilots is the number
    of pilots of the requested wing, or of all pilots, who hold FMQ or IP
    on three or more distinct skills, a skill counting for a pilot exactly
    when the stored row of the pair has status FMQ or status IP.  The
    subquery returns exactly those pilots: one with two such skills is
    never in it, one with three or more always is. *)
Theorem combat_ready_threshold wing d :
  unique_ids d → (wing = None → pilots_referenced d) →
  (run (stats no_faults wing) (connect d)).1 =
    Stats (total_pilots_query wing d) (combat_ready_count wing d) ∧
  (∀ pid sid, sid ∈ qualified_skills d pid ↔
     ∃ q, qualifications d !! (pid, sid) = Some q ∧
          (q_status q = "FMQ" ∨ q_status q = "IP")) ∧
  (∀ pid, pid ∈ (combat_ready_subquery wing d).*1 ↔
     (∃ p, p ∈ pilots d ∧ p_id p = pid ∧ in_wing wing p = true) ∧
     (3 ≤ size (qualified_skills d pid))%nat) ∧
  (∀ p, p ∈ pilots d → in_wing wing p = true →
     (size (qualified_skills d (p_id p)) = 2%nat →
        p_id p ∉ (combat_ready_subquery wing d).*1) ∧
     ((3 ≤ size (qualified_skills d (p_id p)))%nat →
        p_id p ∈ (combat_ready_subquery wing d).*1)).
Proof.
  intros Hu Href. split; [|split; [|split]].
  - by rewrite <- (combat_ready_query_count wing d Hu Href).
  - apply elem_of_qualified_skills.
  - intros pid. by apply combat_ready_subquery_spec.
  - intros p Hp Hw. split.
    + intros H2 Hin. apply (combat_ready_subquery_spec wing d _ Hu Href) in Hin as [_ H3].
      lia.
    + intros H3. apply (combat_ready_subquery_spec wing d _ Hu Href).
      split; [by exists p|done].
Qed.

Lemma combat_ready_threshold_witness :
  let wing := Some 1%nat in
  let d := Example.trained_squadron in
  (run (stats no_faults wing) (connect d)).1 =
    Stats (total_pilots_query wing d) (combat_ready_count wing d) ∧
  (∀ pid sid, sid ∈ qualified_skills d pid ↔
     ∃ q, qualifications d !! (pid, sid) = Some q ∧
          (q_status q = "FMQ" ∨ q_status q = "IP")) ∧
  (∀ pid, pid ∈ (combat_ready_subquery wing d).*1 ↔
     (∃ p, p ∈ pilots d ∧ p_id p = pid ∧ in_wing wing p = true) ∧
     (3 ≤ size (qualified_skills d pid))%nat) ∧
  (∀ p, p ∈ pilots d → in_wing wing p = true →
     (size (qualified_skills d (p_id p)) = 2%nat →
        p_id p ∉ (combat_ready_subquery wing d).*1) ∧
     ((3 ≤ size (qualified_skills d (p_id p)))%nat →
        p_id p ∈ (combat_ready_subquery wing d).*1)).
Proof.
  apply (combat_ready_threshold (Some 1%nat) Example.trained_squadron).
  - split; apply NoDup_ListNoDup; repeat constructor; simpl; intuition discriminate.
  - discriminate.
Defined.

Example trained_squadron_stats :
  (run (stats no_faults (Some 1%nat)) (connect Example.trained_squadron)).1 = Stats 2 1 ∧
  size (qualified_skills Example.trained_squadron 1) = 3%nat ∧
  size (qualified_skills Example.trained_squadron 3) = 2%nat.
Proof. by vm_compute. Qed.

End CombatReady.

(** ** The same-wing invariant of the qualifications *)
Section SameWing.
Import Sql Tx Auth Routes Reference.

Lemma unique_pilot ps p p' :
  NoDup (p_id <$> ps) → p ∈ ps → p' ∈ ps → p_id p = p_id p' → p = p'.
Proof.
  induction ps as [|x ps IH]; simpl; [by intros _ H; apply elem_of_nil in H|].
  intros [Hx Hps]%NoDup_cons [->|Hp]%elem_of_cons [->|Hp']%elem_of_cons Hid; try done.
  - exfalso. apply Hx. rewrite Hid. by apply list_elem_of_fmap_2.
  - exfalso. apply Hx. rewrite <- Hid. by apply list_elem_of_fmap_2.
  - by apply IH.
Qed.

Lemma unique_skill ss s s' :
  NoDup (s_id <$> ss) → s ∈ ss → s' ∈ ss → s_id s = s_id s' → s = s'.
Proof.
  induction ss as [|x ss IH]; simpl; [by intros _ H; apply elem_of_nil in H|].
  intros [Hx Hss]%NoDup_cons [->|Hs]%elem_of_cons [->|Hs']%elem_of_cons Hid; try done.
  - exfalso. apply Hx. rewrite Hid. by apply list_elem_of_fmap_2.
  - exfalso. apply Hx. rewrite <- Hid. by apply list_elem_of_fmap_2.
  - by apply IH.
Qed.

(** Writing a row for a pilot and a skill of one wing keeps the invariant. *)
Lemma same_wing_insert d p s q :
  unique_ids d → same_wing d →
  p ∈ pilots d → s ∈ skills d → p_wing_id p = s_wing_id s →
  same_wing (set_qualifications (<[(p_id p, s_id s) := q]> (qualifications d)) d).
Proof.
  intros [Hps Hss] Hsame Hp Hs Hw pid sid q' p' s' Hq Hp' Hs' Hpid Hsid. simpl in *.
  destruct (decide ((p_id p, s_id s) = (pid, sid))) as [[= <- <-]|Hne].
  - by rewrite (unique_pilot _ _ _ Hps Hp' Hp Hpid), (unique_skill _ _ _ Hss Hs' Hs Hsid).
  - rewrite lookup_insert_ne in Hq by done. by eapply Hsame.
Qed.

(** What an accepted record was checked for. *)
Lemma verdict_accept_inv u d i r pid sid st :
  verdict_of u d i r = Accept pid sid st →
  ∃ p s, p ∈ pilots d ∧ s ∈ skills d ∧ p_id p = pid ∧ s_id s = sid ∧
         p_wing_id p = s_wing_id s.
Proof.
  unfold verdict_of, plan_record.
  destruct (Js.falsy (callsign r) || Js.falsy (skill_name r) || Js.falsy (status r)); [done|].
  destruct (Js.includes validStatuses (Js.toUpperCase (Js.text (status r)))); [|done].
  cbn [negb].
  destruct (select_pilots_ilike (Js.trim (Js.text (callsign r))) d) as [|p ps] eqn:Hp; [done|].
  destruct (is_instructor u && not_own_wing (p_wing_id p) u); [done|].
  destruct (select_skills_ilike (Js.trim (Js.text (skill_name r))) d) as [|s ss] eqn:Hs;
    [done|].
  destruct (s_wing_id s =? p_wing_id p)%nat eqn:Hw; [|done]. cbn [negb].
  destruct (is_instructor u && not_own_wing (s_wing_id s) u); [done|].
  intros [= <- <- <-]. exists p, s.
  apply filter_head_In in Hp as [Hp _]. apply filter_head_In in Hs as [Hs _].
  apply Nat.eqb_eq in Hw. by rewrite !list_elem_of_In.
Qed.

Lemma same_wing_effect u now d w i r :
  unique_ids w → pilots w = pilots d → skills w = skills d → same_wing w →
  same_wing (effect now (email u) (verdict_of u d i r) w).
Proof.
  intros Hu Hp Hs Hsame.
  destruct (verdict_of u d i r) as [msg|pid sid st] eqn:Hv; [done|]. simpl.
  apply verdict_accept_inv in Hv as (p & s & Hpin & Hsin & <- & <- & Hw).
  apply same_wing_insert; try done; congruence.
Qed.

Lemma same_wing_effect_loop u now d rs : ∀ i w,
  unique_ids w → pilots w = pilots d → skills w = skills d → same_wing w →
  same_wing (effect_loop u now d i rs w).
Proof.
  induction rs as [|r rs IH]; intros i w Hu Hp Hs Hsame; simpl; [done|].
  apply IH.
  - destruct Hu. split; by rewrite ?effect_pilots, ?effect_skills.
  - by rewrite effect_pilots.
  - by rewrite effect_skills.
  - by apply same_wing_effect.
Qed.

(** The import keeps the invariant, for every caller, body and schedule. *)
Lemma bulk_import_same_wing faults connects u now body d :
  unique_ids d → same_wing d →
  same_wing (committed (run (bulk_import faults connects u now body) (connect d)).2).
Proof.
  intros Hu Hsame.
  destruct (requireRole ["instructor"; "admin"] u) eqn:Hrole.
  2:{ unfold bulk_import, run. by rewrite Hrole. }
  destruct body as [| |rs]; try (unfold bulk_import, run; by rewrite Hrole).
  destruct rs as [|r0 rs0]; [unfold bulk_import, run; by rewrite Hrole|].
  destruct (1000 <? length (r0 :: rs0))%nat eqn:Hbig.
  { unfold bulk_import, run. by rewrite Hrole, Hbig. }
  apply Nat.ltb_ge in Hbig.
  destruct connects;
    [|by rewrite (bulk_import_no_client faults u now (r0 :: rs0) _ Hrole ltac:(done) Hbig)].
  pose proof (bulk_import_run faults u now d (r0 :: rs0) Hrole ltac:(done) Hbig) as Hrun.
  cbv zeta in Hrun.
  destruct (first_fault faults 0 (length (plan_bulk u d (r0 :: rs0)))).
  - destruct Hrun as (txf & -> & _). done.
  - rewrite Hrun. cbn [snd committed]. by apply same_wing_effect_loop.
Qed.

(** The backfill keeps the invariant. *)
Lemma backfill_same_wing now by_ d :
  unique_ids d → same_wing d → same_wing (backfill now by_ d).1.
Proof.
  intros [Hps Hss] Hsame pid sid q p s Hq Hp Hs Hpid Hsid. unfold backfill in *.
  simpl in *.
  destruct (insert_do_nothing_fold now by_ (backfill_select d) (qualifications d) 0)
    as (_ & _ & Hnew).
  destruct (Hnew _ _ Hq) as [Hold|[Hin _]]; [by eapply Hsame|].
  apply backfill_select_spec in Hin as (p' & s' & Hp' & Hs' & Hpid' & Hsid' & Hw & _).
  rewrite (unique_pilot _ p p' Hps Hp Hp') by congruence.
  rewrite (unique_skill _ s s' Hss Hs Hs') by congruence.
  done.
Qed.

Lemma backfill_route_same_wing faults u now d :
  unique_ids d → same_wing d →
  same_wing (committed (run (backfill_route faults u now) (connect d)).2).
Proof.
  intros Hu Hsame. unfold backfill_route, run.
  destruct (requireRole ["admin"] u); simpl; [|done].
  unfold try_catch, bind, query, ret. simpl.
  destruct (faults 0%nat); simpl; [done|]. by apply backfill_same_wing.
Qed.

(** The single-record route keeps the invariant when the caller is an
    instructor: both the pilot and the skill are checked against the
    caller's wing. *)
Lemma put_instructor_same_wing faults u now b d :
  is_instructor u = true → unique_ids d → same_wing d →
  same_wing (committed (run (put_qualification faults u now b) (connect d)).2).
Proof.
  intros Hinstr Hu Hsame. unfold put_qualification, run.
  destruct (requireRole ["instructor"; "admin"] u); simpl; [|done].
  destruct (bool_decide (put_pilot_id b = None) || bool_decide (put_skill_id b = None)
            || Js.falsy (put_status b)); simpl; [done|].
  destruct (Js.includes validStatuses (Js.text (put_status b))); simpl; [|done].
  rewrite Hinstr.
  unfold try_catch, bind, select, execute, query, ret, record_stmt, put_view, view, connect.
  simpl.
  destruct (faults 0%nat); simpl; [done|].
  destruct (select_pilot_by_id (default 0%nat (put_pilot_id b)) d) as [|p ps] eqn:Hp;
    simpl; [done|].
  destruct (not_own_wing (p_wing_id p) u) eqn:Hpw; simpl; [done|].
  destruct (faults 1%nat); simpl; [done|].
  destruct (select_skill_by_id (default 0%nat (put_skill_id b)) d) as [|s ss] eqn:Hs;
    simpl; [done|].
  destruct (not_own_wing (s_wing_id s) u) eqn:Hsw; simpl; [done|].
  destruct (faults 2%nat); simpl; [done|].
  apply filter_head_In in Hp as [Hp Hpid]. apply filter_head_In in Hs as [Hs Hsid].
  apply Nat.eqb_eq in Hpid, Hsid. rewrite <- Hpid, <- Hsid.
  unfold upsert.
  destruct (references_ok (p_id p) (s_id s) d && status_check (Js.text (put_status b)));
    simpl; [|done].
  apply same_wing_insert; try done; try by apply list_elem_of_In.
  unfold not_own_wing in Hpw, Hsw.
  apply negb_false_iff, bool_decide_eq_true in Hpw, Hsw. congruence.
Qed.

(** C1, at the input where it fails.  On tables that satisfy the
    invariant an admin sends PUT with VIPER of wing 1 and Landing of
    wing 2.  The route checks wings for instructors only: it answers the
    stored row, and the committed table pairs a pilot and a skill of
    different wings. *)
Theorem put_admin_pairs_other_wing :
  let out := run (put_qualification no_faults Example.admin 7 Example.put_viper_landing)
                 (connect Example.squadron) in
  unique_ids Example.squadron ∧ same_wing Example.squadron ∧
  out.1 = Row 1 20 (Qualification "FMQ" 7 "root@hq") ∧
  qualifications (committed out.2) !! (1, 20)%nat = Some (Qualification "FMQ" 7 "root@hq") ∧
  ¬ same_wing (committed out.2).
Proof.
  split; [split; apply NoDup_ListNoDup; repeat constructor; simpl; intuition discriminate|].
  split.
  { intros pid sid q p s Hq.
    change ((∅ : gmap (nat * nat) qualification) !! (pid, sid) = Some q) in Hq.
    by rewrite lookup_empty in Hq. }
  split; [done|]. split; [done|].
  intros Hsame.
  specialize (Hsame 1%nat 20%nat (Qualification "FMQ" 7 "root@hq")
                (Pilot 1 "VIPER" 1) (Skill 20 "Landing" 2)).
  simpl in Hsame. discriminate Hsame; try done.
  - apply elem_of_cons. by left.
  - apply elem_of_cons. right. apply elem_of_cons. by left.
Qed.

End SameWing.

(** ** The merge rule of a batch *)
Section BatchMerge.
Import Sql Tx Auth Routes Reference Invariants.

Lemma effect_lookup now by_ v w key :
  qualifications (effect now by_ v w) !! key =
    match v with
    | Accept pid sid st =>
        if bool_decide ((pid, sid) = key) then Some (Qualification st now by_)
        else qualifications w !! key
    | Skip _ => qualifications w !! key
    end.
Proof.
  destruct v as [msg|pid sid st]; [done|]. simpl.
  case_bool_decide as E.
  - subst key. apply lookup_insert_eq.
  - by apply lookup_insert_ne.
Qed.

(** The row a batch leaves for a pair: that of the last record accepted
    for the pair, or the row that was there. *)
Lemma effect_loop_lookup u now d rs key : ∀ i w,
  qualifications (effect_loop u now d i rs w) !! key =
    match last_accept u d i rs key with
    | Some st => Some (Qualification st now (email u))
    | None => qualifications w !! key
    end.
Proof.
  induction rs as [|r rs IH]; intros i w; simpl; [done|].
  rewrite IH. destruct (last_accept u d (S i) rs key); [done|].
  rewrite effect_lookup. destruct (verdict_of u d i r); [done|].
  by case_bool_decide.
Qed.

Lemma verdict_accept_index u d i j r pid sid st :
  verdict_of u d i r = Accept pid sid st → verdict_of u d j r = Accept pid sid st.
Proof.
  unfold verdict_of, plan_record.
  repeat (match goal with
          | |- context [if ?b then _ else _] => destruct b
          | |- context [match ?l with [] => _ | _ :: _ => _ end] => destruct l
          end; simpl; try done).
Qed.

Lemma last_accept_app u d rs1 rs2 key : ∀ i,
  last_accept u d i (rs1 ++ rs2) key =
    match last_accept u d (i + length rs1) rs2 key with
    | Some st => Some st
    | None => last_accept u d i rs1 key
    end.
Proof.
  induction rs1 as [|r rs1 IH]; intros i; simpl.
  - rewrite Nat.add_0_r. by destruct (last_accept u d i rs2 key).
  - rewrite IH. replace (S i + length rs1)%nat with (i + S (length rs1))%nat by lia.
    by destruct (last_accept u d (i + S (length rs1)) rs2 key).
Qed.

Lemma last_accept_tables u d w rs key : ∀ i,
  pilots w = pilots d → skills w = skills d →
  last_accept u w i rs key = last_accept u d i rs key.
Proof.
  induction rs as [|r rs IH]; intros i Hp Hs; simpl; [done|].
  by rewrite IH, (verdict_of_tables u d w i r Hp Hs).
Qed.

Lemma effect_loop_pilots u now d rs : ∀ i w, pilots (effect_loop u now d i rs w) = pilots w.
Proof.
  induction rs as [|r rs IH]; intros i w; simpl; [done|]. by rewrite IH, effect_pilots.
Qed.

Lemma effect_loop_skills u now d rs : ∀ i w, skills (effect_loop u now d i rs w) = skills w.
Proof.
  induction rs as [|r rs IH]; intros i w; simpl; [done|]. by rewrite IH, effect_skills.
Qed.

(** An accepted batch on a store that serves every statement. *)
Lemma bulk_import_served u now d rs :
  requireRole ["instructor"; "admin"] u = true → rs ≠ [] → (length rs ≤ 1000)%nat →
  run (bulk_import no_faults true u now (Array rs)) (connect d) =
    (Report (length rs - failures u d rs) (failures u d rs)
            (take 20 (failure_messages u d 0 rs)),
     Conn (effect_loop u now d 0 rs d) None (length (plan_bulk u d rs)) (plan_bulk u d rs)).
Proof.
  intros Hrole Hne Hlen.
  pose proof (bulk_import_run no_faults u now d rs Hrole Hne Hlen) as H. cbv zeta in H.
  rewrite first_fault_no_faults in H. rewrite H.
  destruct (tally_loop_spec u d rs 0%nat (Tally 0 0 [])) as (Hi & Hs & He).
  by rewrite Hi, Hs, He.
Qed.

Lemma failures_tables u d w rs :
  pilots w = pilots d → skills w = skills d → failures u w rs = failures u d rs.
Proof.
  intros Hp Hs. unfold failures. f_equal.
  induction rs as [|r rs IH]; simpl; [done|].
  by rewrite (verdict_of_tables u d w 0 r Hp Hs), IH.
Qed.

Lemma failure_messages_tables u d w rs : ∀ i,
  pilots w = pilots d → skills w = skills d →
  failure_messages u w i rs = failure_messages u d i rs.
Proof.
  induction rs as [|r rs IH]; intros i Hp Hs; simpl; [done|].
  by rewrite (verdict_of_tables u d w i r Hp Hs), IH.
Qed.

(** X1. The merge rule of the import.  After an accepted batch that the
    store serves, the row of every pair is the one written by the last
    record of the batch accepted for that pair, stamped with the time and
    the caller of the request; a pair that no accepted record names keeps
    the row it had, so the import never deletes a row.  In particular the
    last record of a batch, when accepted, decides the row of its pair.
    The pilots and the skills are left as they were. *)
Theorem bulk_merge_rule u now d rs :
  requireRole ["instructor"; "admin"] u = true → rs ≠ [] → (length rs ≤ 1000)%nat →
  let d' := committed (run (bulk_import no_faults true u now (Array rs)) (connect d)).2 in
  (∀ key, qualifications d' !! key =
            match last_accept u d 0 rs key with
            | Some st => Some (Qualification st now (email u))
            | None => qualifications d !! key
            end) ∧
  (∀ rs0 r pid sid st,
     rs = (rs0 ++ [r])%list → verdict_of u d 0 r = Accept pid sid st →
     qualifications d' !! (pid, sid) = Some (Qualification st now (email u))) ∧
  pilots d' = pilots d ∧ skills d' = skills d.
Proof.
  intros Hrole Hne Hlen d'. subst d'.
  rewrite (bulk_import_served u now d rs Hrole Hne Hlen). cbn [snd committed].
  split; [intros key; apply effect_loop_lookup|].
  split; [|by rewrite effect_loop_pilots, effect_loop_skills].
  intros rs0 r pid sid st -> Hv.
  rewrite effect_loop_lookup, last_accept_app. simpl.
  rewrite (verdict_accept_index u d 0 (length rs0) r pid sid st Hv).
  by rewrite bool_decide_eq_true_2.
Qed.

Lemma bulk_merge_rule_witness :
  let rs := [Example.viper_startup; Example.any_pilot_startup] in
  let d' := committed (run (bulk_import no_faults true Example.admin 7 (Array rs))
                           (connect Example.squadron)).2 in
  (∀ key, qualifications d' !! key =
            match last_accept Example.admin Example.squadron 0 rs key with
            | Some st => Some (Qualification st 7 (email Example.admin))
            | None => qualifications Example.squadron !! key
            end) ∧
  (∀ rs0 r pid sid st,
     rs = (rs0 ++ [r])%list →
     verdict_of Example.admin Example.squadron 0 r = Accept pid sid st →
     qualifications d' !! (pid, sid) = Some (Qualification st 7 (email Example.admin))) ∧
  pilots d' = pilots Example.squadron ∧ skills d' = skills Example.squadron.
Proof.
  apply (bulk_merge_rule Example.admin 7 Example.squadron
           [Example.viper_startup; Example.any_pilot_startup]).
  - reflexivity.
  - discriminate.
  - simpl. lia.
Defined.

(** Two records for one pair in one batch: the later status is stored. *)
Example later_record_wins :
  qualifications
    (committed (run (bulk_import no_faults true Example.admin 7
                       (Array [Example.viper_startup; Example.any_pilot_startup]))
                    (connect Example.squadron)).2) !! (1, 10)%nat =
    Some (Qualification "IP" 7 "root@hq").
Proof. by vm_compute. Qed.

(** X2. Importing a batch again is idempotent.  A second import of the
    same batch by the same caller answers the same report, stores rows
    for the same pairs with the same statuses, and adds no row; done at
    the same time stamp it leaves the very same tables. *)
Theorem bulk_reimport_idempotent u now now' d rs :
  requireRole ["instructor"; "admin"] u = true → rs ≠ [] → (length rs ≤ 1000)%nat →
  let out1 := run (bulk_import no_faults true u now (Array rs)) (connect d) in
  let d1 := committed out1.2 in
  let out2 := run (bulk_import no_faults true u now' (Array rs)) (connect d1) in
  let d2 := committed out2.2 in
  out2.1 = out1.1 ∧
  dom (qualifications d2) = dom (qualifications d1) ∧
  (∀ key, q_status <$> qualifications d2 !! key = q_status <$> qualifications d1 !! key) ∧
  (now' = now → d2 = d1).
Proof.
  intros Hrole Hne Hlen out1 d1 out2 d2. subst out1 d1 out2 d2.
  rewrite (bulk_import_served u now d rs Hrole Hne Hlen). cbn [snd fst committed].
  set (d1 := effect_loop u now d 0 rs d).
  assert (pilots d1 = pilots d) as Hp by apply effect_loop_pilots.
  assert (skills d1 = skills d) as Hs by apply effect_loop_skills.
  rewrite (bulk_import_served u now' d1 rs Hrole Hne Hlen). cbn [snd fst committed].
  rewrite (failures_tables u d d1 rs Hp Hs), (failure_messages_tables u d d1 rs 0 Hp Hs).
  split; [done|].
  assert (Hlook : ∀ key,
            qualifications (effect_loop u now' d1 0 rs d1) !! key =
              match last_accept u d 0 rs key with
              | Some st => Some (Qualification st now' (email u))
              | None => qualifications d !! key
              end).
  { intros key. rewrite effect_loop_lookup, (last_accept_tables u d d1 rs key 0 Hp Hs).
    destruct (last_accept u d 0 rs key) eqn:E; [done|].
    unfold d1. by rewrite effect_loop_lookup, E. }
  assert (Hlook1 : ∀ key,
            qualifications d1 !! key =
              match last_accept u d 0 rs key with
              | Some st => Some (Qualification st now (email u))
              | None => qualifications d !! key
              end).
  { intros key. unfold d1. apply effect_loop_lookup. }
  split; [|split].
  - apply set_eq. intros key. rewrite !elem_of_dom, Hlook, Hlook1.
    destruct (last_accept u d 0 rs key); [|done]. split; by eexists.
  - intros key. rewrite Hlook, Hlook1. by destruct (last_accept u d 0 rs key).
  - intros ->.
    assert (qualifications (effect_loop u now d1 0 rs d1) = qualifications d1) as Hq.
    { apply map_eq. intros key. by rewrite Hlook, Hlook1. }
    pose proof (effect_loop_pilots u now d1 rs 0 d1) as Hp'.
    pose proof (effect_loop_skills u now d1 rs 0 d1) as Hs'.
    destruct (effect_loop u now d1 0 rs d1), d1. simpl in *. congruence.
Qed.

Lemma bulk_reimport_idempotent_witness :
  let rs := [Example.viper_startup; Example.ghost_unknown_skill] in
  let out1 := run (bulk_import no_faults true Example.admin 7 (Array rs))
                  (connect Example.squadron) in
  let d1 := committed out1.2 in
  let out2 := run (bulk_import no_faults true Example.admin 9 (Array rs)) (connect d1) in
  let d2 := committed out2.2 in
  out2.1 = out1.1 ∧
  dom (qualifications d2) = dom (qualifications d1) ∧
  (∀ key, q_status <$> qualifications d2 !! key = q_status <$> qualifications d1 !! key) ∧
  (9%nat = 7%nat → d2 = d1).
Proof.
  apply (bulk_reimport_idempotent Example.admin 7 9 Example.squadron
           [Example.viper_startup; Example.ghost_unknown_skill]).
  - reflexivity.
  - discriminate.
  - simpl. lia.
Defined.

End BatchMerge.

(** ** What every request to the import costs and keeps *)
Section BulkBounds.
Import Sql Tx Auth Routes Reference Invariants.

(** A request is turned away by a guard, untouched connection, or it is
    an accepted batch. *)
Lemma bulk_import_cases faults connects u now body c :
  (∃ code msg, run (bulk_import faults connects u now body) c = (Error code msg, c)) ∨
  (∃ rs, body = Array rs ∧ requireRole ["instructor"; "admin"] u = true ∧
         rs ≠ [] ∧ (length rs ≤ 1000)%nat).
Proof.
  unfold bulk_import, run.
  destruct (requireRole ["instructor"; "admin"] u) eqn:Hrole; simpl;
    [|left; by do 2 eexists].
  destruct body as [| |rs]; try (left; by do 2 eexists).
  destruct rs as [|r rs]; [left; by do 2 eexists|].
  destruct (1000 <? length (r :: rs))%nat eqn:Hbig; [left; by do 2 eexists|].
  right. exists (r :: rs). apply Nat.ltb_ge in Hbig. by repeat split.
Qed.

Lemma plan_record_length u d i r : (length (plan_record u d i r).2 ≤ 3)%nat.
Proof.
  unfold plan_record.
  repeat (match goal with
          | |- context [if ?b then _ else _] => destruct b
          | |- context [match ?l with [] => _ | _ :: _ => _ end] => destruct l
          end; simpl; try lia).
Qed.

Lemma plan_loop_length u d rs : ∀ i, (length (plan_loop u d i rs) ≤ 3 * length rs)%nat.
Proof.
  induction rs as [|r rs IH]; intros i; simpl; [lia|].
  rewrite length_app. pose proof (plan_record_length u d i r). specialize (IH (S i)). lia.
Qed.

(** X3. The cost of a request to the import is bounded.  Whatever the
    body, the caller and the schedule, the route sends at most three
    statements per record plus BEGIN, COMMIT and ROLLBACK, hence never
    more than 3003 statements; a request that a guard turns away (role,
    shape of the body, more than 1000 records) sends none and leaves the
    connection as it was, and so does a request for which the pool has no
    client. *)
Theorem bulk_statement_budget faults connects u now body d :
  let c := (run (bulk_import faults connects u now body) (connect d)).2 in
  sent c = length (log c) ∧
  (length (log c) ≤ 3003)%nat ∧
  (∀ rs, body = Array rs → (length (log c) ≤ 3 * length rs + 3)%nat) ∧
  (requireRole ["instructor"; "admin"] u = false → c = connect d ∧ log c = []) ∧
  (body = Absent ∨ body = NotArray ∨ body = Array [] → c = connect d ∧ log c = []) ∧
  (∀ rs, body = Array rs → (1000 < length rs)%nat → c = connect d ∧ log c = []) ∧
  (connects = false → c = connect d ∧ log c = []).
Proof.
  cbv zeta.
  assert (Hguard : ∀ code msg,
            run (bulk_import faults connects u now body) (connect d)
              = (Error code msg, connect d) →
            sent (run (bulk_import faults connects u now body) (connect d)).2
              = length (log (run (bulk_import faults connects u now body) (connect d)).2) ∧
            (length (log (run (bulk_import faults connects u now body)
                            (connect d)).2) ≤ 3003)%nat ∧
            (∀ rs, body = Array rs →
               (length (log (run (bulk_import faults connects u now body)
                               (connect d)).2) ≤ 3 * length rs + 3)%nat)).
  { intros code msg ->. simpl. repeat split; try done; lia. }
  assert (Hrole : requireRole ["instructor"; "admin"] u = false →
            run (bulk_import faults connects u now body) (connect d)
              = (Error 403 "Insufficient permissions", connect d)).
  { intros Hr. unfold bulk_import, run. by rewrite Hr. }
  assert (Hshape : body = Absent ∨ body = NotArray ∨ body = Array [] →
            ∃ code msg, run (bulk_import faults connects u now body) (connect d)
              = (Error code msg, connect d)).
  { intros Hb. unfold bulk_import, run.
    destruct (requireRole ["instructor"; "admin"] u); simpl;
      destruct Hb as [-> | [-> | ->]]; by do 2 eexists. }
  assert (Hbig : ∀ rs, body = Array rs → (1000 < length rs)%nat →
            ∃ code msg, run (bulk_import faults connects u now body) (connect d)
              = (Error code msg, connect d)).
  { intros rs -> Hlen. unfold bulk_import, run.
    destruct (requireRole ["instructor"; "admin"] u); simpl; [|by do 2 eexists].
    destruct rs as [|r rs]; [by do 2 eexists|].
    apply Nat.ltb_lt in Hlen. rewrite Hlen. by do 2 eexists. }
  assert (Hnone : connects = false →
            run (bulk_import faults connects u now body) (connect d)
              = (Unanswered, connect d) ∨
            ∃ code msg, run (bulk_import faults connects u now body) (connect d)
              = (Error code msg, connect d)).
  { intros ->.
    destruct (bulk_import_cases faults false u now body (connect d))
      as [?|(rs & -> & Hr & Hne & Hlen)]; [by right|left].
    by apply bulk_import_no_client. }
  assert (Hrest :
    (requireRole ["instructor"; "admin"] u = false →
       (run (bulk_import faults connects u now body) (connect d)).2 = connect d ∧
       log (run (bulk_import faults connects u now body) (connect d)).2 = []) ∧
    (body = Absent ∨ body = NotArray ∨ body = Array [] →
       (run (bulk_import faults connects u now body) (connect d)).2 = connect d ∧
       log (run (bulk_import faults connects u now body) (connect d)).2 = []) ∧
    (∀ rs, body = Array rs → (1000 < length rs)%nat →
       (run (bulk_import faults connects u now body) (connect d)).2 = connect d ∧
       log (run (bulk_import faults connects u now body) (connect d)).2 = []) ∧
    (connects = false →
       (run (bulk_import faults connects u now body) (connect d)).2 = connect d ∧
       log (run (bulk_import faults connects u now body) (connect d)).2 = [])).
  { split; [|split; [|split]].
    - intros Hr. by rewrite (Hrole Hr).
    - intros Hb. by destruct (Hshape Hb) as (code & msg & ->).
    - intros rs Hb Hlen. by destruct (Hbig rs Hb Hlen) as (code & msg & ->).
    - intros Hc. by destruct (Hnone Hc) as [-> | (code & msg & ->)]. }
  destruct (bulk_import_cases faults connects u now body (connect d))
    as [(code & msg & Hcase)|(rs & -> & Hr & Hne & Hlen)].
  { destruct (Hguard code msg Hcase) as (H1 & H2 & H3).
    split; [done|]. split; [done|]. split; [done|]. apply Hrest. }
  destruct connects.
  2:{ rewrite (bulk_import_no_client faults u now rs (connect d) Hr Hne Hlen) in *.
      simpl. split; [done|]. split; [lia|]. split; [intros; lia|]. apply Hrest. }
  split; [|split; [|split; [|apply Hrest]]].
  all: pose proof (bulk_import_run faults u now d rs Hr Hne Hlen) as H; cbv zeta in H.
  all: assert (length (plan_bulk u d rs) ≤ 3 * length rs + 2)%nat as Hplan
         by (unfold plan_bulk; simpl; rewrite length_app; simpl;
             pose proof (plan_loop_length u d rs 0); lia).
  all: destruct (first_fault faults 0 (length (plan_bulk u d rs))) as [m|] eqn:F;
         [destruct H as (txf & -> & _); simpl;
          apply first_fault_lt in F as [Hm _];
          rewrite length_app, length_take; unfold plan_bulk in *; simpl in *
         |rewrite H; cbn [snd sent log]].
  all: try lia; try done.
  all: intros rs' [= <-]; lia.
Qed.

End BulkBounds.

(** ** What a single request can do to the tables *)
Section Outcomes.
Import Sql Tx Auth Routes Reference Invariants Pool.

(** PUT: nothing is written, or exactly the submitted row is. *)
Lemma put_outcomes faults u now b d :
  let out := run (put_qualification faults u now b) (connect d) in
  (committed out.2 = d ∧ ∀ pid sid q, out.1 ≠ Row pid sid q) ∨
  (∃ pid sid st,
     put_pilot_id b = Some pid ∧ put_skill_id b = Some sid ∧ put_status b = Some st ∧
     requireRole ["instructor"; "admin"] u = true ∧
     Js.includes validStatuses st = true ∧ references_ok pid sid d = true ∧
     out.1 = Row pid sid (Qualification st now (email u)) ∧
     committed out.2 =
       set_qualifications
         (<[(pid, sid) := Qualification st now (email u)]> (qualifications d)) d ∧
     (is_instructor u = true →
        ∃ p s, In p (pilots d) ∧ In s (skills d) ∧ p_id p = pid ∧ s_id s = sid ∧
               wing_id u = Some (p_wing_id p) ∧ wing_id u = Some (s_wing_id s))).
Proof.
  cbv zeta. unfold put_qualification, run.
  destruct (requireRole ["instructor"; "admin"] u) eqn:Hrole; simpl; [|by left].
  destruct (bool_decide (put_pilot_id b = None) || bool_decide (put_skill_id b = None)
            || Js.falsy (put_status b)) eqn:Hchk; simpl; [by left|].
  apply orb_false_elim in Hchk as [Hchk Hfalsy].
  apply orb_false_elim in Hchk as [H1 H2]. apply bool_decide_eq_false in H1, H2.
  destruct (put_pilot_id b) as [pid|] eqn:Hpid; [|done].
  destruct (put_skill_id b) as [sid|] eqn:Hsid; [|done].
  destruct (put_status b) as [st|] eqn:Hst; [|done]. simpl.
  destruct (Js.includes validStatuses st) eqn:Hvalid; simpl; [|by left].
  unfold try_catch, bind, select, execute, query, ret, record_stmt, put_view, view, connect.
  simpl.
  assert (Hup : upsert pid sid st now (email u) d =
    if references_ok pid sid d
    then Some (set_qualifications
                 (<[(pid, sid) := Qualification st now (email u)]> (qualifications d)) d)
    else None).
  { unfold upsert, status_check. unfold validStatuses in Hvalid. rewrite Hvalid.
    by rewrite andb_true_r. }
  destruct (is_instructor u) eqn:Hinstr; simpl.
  - destruct (faults 0%nat); simpl; [by left|].
    destruct (select_pilot_by_id pid d) as [|p ps] eqn:Hp; simpl; [by left|].
    destruct (not_own_wing (p_wing_id p) u) eqn:Hpw; simpl; [by left|].
    destruct (faults 1%nat); simpl; [by left|].
    destruct (select_skill_by_id sid d) as [|s ss] eqn:Hs; simpl; [by left|].
    destruct (not_own_wing (s_wing_id s) u) eqn:Hsw; simpl; [by left|].
    destruct (faults 2%nat); simpl; [by left|].
    rewrite Hup. destruct (references_ok pid sid d) eqn:Href; simpl; [|by left].
    right. exists pid, sid, st. repeat split; try done. intros _.
    apply filter_head_In in Hp as [Hp Hpid']. apply filter_head_In in Hs as [Hs Hsid'].
    apply Nat.eqb_eq in Hpid', Hsid'.
    unfold not_own_wing in Hpw, Hsw.
    apply negb_false_iff, bool_decide_eq_true in Hpw, Hsw.
    by exists p, s.
  - destruct (faults 0%nat); simpl; [by left|].
    rewrite Hup. destruct (references_ok pid sid d) eqn:Href; simpl; [|by left].
    right. exists pid, sid, st. by repeat split.
Qed.

(** The backfill route: nothing, or the backfill statement. *)
Lemma backfill_outcomes faults u now d :
  let out := run (backfill_route faults u now) (connect d) in
  (committed out.2 = d ∧ ∀ n, out.1 ≠ BackfillDone n) ∨
  (requireRole ["admin"] u = true ∧
   out.1 = BackfillDone (backfill now (email u) d).2 ∧
   committed out.2 = (backfill now (email u) d).1).
Proof.
  cbv zeta. unfold backfill_route, run.
  destruct (requireRole ["admin"] u); simpl; [|by left].
  unfold try_catch, bind, query, ret. simpl.
  destruct (faults 0%nat); simpl; [by left|by right].
Qed.

(** DELETE: nothing, or exactly the named row is removed. *)
Lemma delete_outcomes faults u b d :
  let out := answer (delete_qualification faults u b) (open d) in
  (tables out.2 = d ∧ out.1 ≠ Deleted) ∨
  (∃ pid sid q,
     del_pilot_id b = Some pid ∧ del_skill_id b = Some sid ∧
     requireRole ["instructor"; "admin"] u = true ∧
     qualifications d !! (pid, sid) = Some q ∧
     out.1 = Deleted ∧
     tables out.2 = set_qualifications (delete (pid, sid) (qualifications d)) d ∧
     (is_instructor u = true →
        ∃ p, In p (pilots d) ∧ p_id p = pid ∧ wing_id u = Some (p_wing_id p))).
Proof.
  cbv zeta. unfold delete_qualification, answer.
  destruct (requireRole ["instructor"; "admin"] u) eqn:Hrole; simpl; [|by left].
  destruct (bool_decide (del_pilot_id b = None) || bool_decide (del_skill_id b = None))
    eqn:Hchk; simpl; [by left|].
  apply orb_false_elim in Hchk as [H1 H2]. apply bool_decide_eq_false in H1, H2.
  destruct (del_pilot_id b) as [pid|] eqn:Hpid; [|done].
  destruct (del_skill_id b) as [sid|] eqn:Hsid; [|done]. simpl.
  unfold ptry, pbind, pool_query, pret, open, delete_row. simpl.
  destruct (is_instructor u) eqn:Hinstr; simpl.
  - destruct (faults 0%nat); simpl; [by left|].
    destruct (select_pilot_by_id pid d) as [|p ps] eqn:Hp; simpl; [by left|].
    destruct (not_own_wing (p_wing_id p) u) eqn:Hpw; simpl; [by left|].
    destruct (faults 1%nat); simpl; [by left|].
    destruct (qualifications d !! (pid, sid)) as [q|] eqn:Hq; simpl; [|by left].
    right. exists pid, sid, q. repeat split; try done. intros _.
    apply filter_head_In in Hp as [Hp Hpid']. apply Nat.eqb_eq in Hpid'.
    unfold not_own_wing in Hpw. apply negb_false_iff, bool_decide_eq_true in Hpw.
    by exists p.
  - destruct (faults 0%nat); simpl; [by left|].
    destruct (qualifications d !! (pid, sid)) as [q|] eqn:Hq; simpl; [|by left].
    right. exists pid, sid, q. by repeat split.
Qed.

(** The import: nothing, or the effect of the whole batch. *)
Lemma bulk_outcomes faults connects u now body d :
  let out := run (bulk_import faults connects u now body) (connect d) in
  committed out.2 = d ∨
  (∃ rs, body = Array rs ∧ committed out.2 = effect_loop u now d 0 rs d).
Proof.
  cbv zeta.
  destruct (bulk_import_cases faults connects u now body (connect d))
    as [(code & msg & ->)|(rs & -> & Hrole & Hne & Hlen)]; [by left|].
  destruct connects;
    [|left; by rewrite (bulk_import_no_client faults u now rs _ Hrole Hne Hlen)].
  pose proof (bulk_import_run faults u now d rs Hrole Hne Hlen) as H. cbv zeta in H.
  destruct (first_fault faults 0 (length (plan_bulk u d rs))).
  - destruct H as (txf & -> & _). by left.
  - rewrite H. right. by exists rs.
Qed.

End Outcomes.

(** ** The single-record routes *)
Section SingleRecord.
Import Sql Tx Auth Routes Reference Invariants Pool.

Lemma size_insert_same (m : gmap (nat * nat) qualification) k x y :
  size (<[k:=x]> m) = size (<[k:=y]> m).
Proof.
  rewrite <- (insert_delete_eq m k x), <- (insert_delete_eq m k y).
  by rewrite !map_size_insert_None by apply lookup_delete_eq.
Qed.

Lemma size_delete_present (m : gmap (nat * nat) qualification) k q :
  m !! k = Some q → S (size (delete k m)) = size m.
Proof.
  intros Hq. rewrite <- (map_size_insert_None k q (delete k m)) by apply lookup_delete_eq.
  by rewrite insert_delete_eq, insert_id.
Qed.

(** X4. PUT writes one row or nothing.  Under any schedule, for any
    caller and body: when the route answers a row, that row is the
    submitted pair with the submitted status, stamped with the time and
    the caller, it is what the table now holds for the pair, and every
    other pair keeps its row; with any other answer (400, 403, 404, 500,
    or none) the tables are the ones the request found.  Pilots and
    skills are never changed. *)
Theorem put_writes_one_row faults u now b d :
  let out := run (put_qualification faults u now b) (connect d) in
  match out.1 with
  | Row pid sid q =>
      put_pilot_id b = Some pid ∧ put_skill_id b = Some sid ∧
      q = Qualification (Js.text (put_status b)) now (email u) ∧
      Js.includes validStatuses (q_status q) = true ∧
      qualifications (committed out.2) !! (pid, sid) = Some q ∧
      (∀ key, key ≠ (pid, sid) →
              qualifications (committed out.2) !! key = qualifications d !! key)
  | _ => committed out.2 = d
  end ∧
  pilots (committed out.2) = pilots d ∧ skills (committed out.2) = skills d.
Proof.
  cbv zeta.
  destruct (put_outcomes faults u now b d)
    as [[Hsame Hrow]|(pid & sid & st & Hp & Hs & Hst & _ & Hvalid & _ & Hans & Hcom & _)].
  - rewrite Hsame. split; [|done].
    destruct (run (put_qualification faults u now b) (connect d)).1; try done.
    by edestruct Hrow.
  - rewrite Hans, Hcom, Hst. simpl. repeat split; try done.
    + apply lookup_insert_eq.
    + intros key Hne. by apply lookup_insert_ne.
Qed.

(** X5. Last writer wins on a pair.  When two PUT requests for the same
    pair are both answered with a row, the table holds the second row for
    the pair, and as many rows as after the first request: the pair never
    gets a second row. *)
Theorem put_last_writer_wins faults1 faults2 u1 u2 now1 now2 b1 b2 d pid sid q1 q2 :
  let out1 := run (put_qualification faults1 u1 now1 b1) (connect d) in
  let out2 := run (put_qualification faults2 u2 now2 b2) (connect (committed out1.2)) in
  out1.1 = Row pid sid q1 → out2.1 = Row pid sid q2 →
  qualifications (committed out2.2) = <[(pid, sid) := q2]> (qualifications d) ∧
  size (qualifications (committed out2.2)) = size (qualifications (committed out1.2)).
Proof.
  intros out1 out2 H1 H2. subst out1 out2.
  destruct (put_outcomes faults1 u1 now1 b1 d)
    as [[_ Hrow]|(pid1 & sid1 & st1 & _ & _ & _ & _ & _ & _ & Hans1 & Hcom1 & _)];
    [by edestruct Hrow|].
  rewrite Hans1 in H1. injection H1 as -> -> <-.
  set (d1 := committed (run (put_qualification faults1 u1 now1 b1) (connect d)).2) in *.
  destruct (put_outcomes faults2 u2 now2 b2 d1)
    as [[_ Hrow]|(pid2 & sid2 & st2 & _ & _ & _ & _ & _ & _ & Hans2 & Hcom2 & _)];
    [by edestruct Hrow|].
  rewrite Hans2 in H2. injection H2 as -> -> <-.
  rewrite Hcom2, Hcom1. simpl. rewrite insert_insert_eq. split; [done|].
  apply size_insert_same.
Qed.

Lemma put_last_writer_wins_witness :
  let b1 := PutBody (Some 1%nat) (Some 10%nat) (Some "MQT") in
  let b2 := PutBody (Some 1%nat) (Some 10%nat) (Some "FMQ") in
  let out1 := run (put_qualification no_faults Example.admin 7 b1)
                  (connect Example.squadron) in
  let out2 := run (put_qualification no_faults Example.instructor1 9 b2)
                  (connect (committed out1.2)) in
  qualifications (committed out2.2) =
    <[(1, 10)%nat := Qualification "FMQ" 9 "lead@wing1"]>
      (qualifications Example.squadron) ∧
  size (qualifications (committed out2.2)) = size (qualifications (committed out1.2)).
Proof.
  apply (put_last_writer_wins no_faults no_faults Example.admin Example.instructor1 7 9
           (PutBody (Some 1%nat) (Some 10%nat) (Some "MQT"))
           (PutBody (Some 1%nat) (Some 10%nat) (Some "FMQ"))
           Example.squadron 1 10
           (Qualification "MQT" 7 "root@hq") (Qualification "FMQ" 9 "lead@wing1"));
    reflexivity.
Defined.

(** X6. DELETE removes one row or nothing.  Under any schedule, for any
    caller and body: when the route answers [deleted], the named pair had
    a row, has none afterwards, every other pair keeps its row and the
    table has one row less; with any other answer the tables are the ones
    the request found.  On a store that serves the statement, a caller
    who is not an instructor gets [deleted] exactly when the pair has a
    row, and 404 otherwise. *)
Theorem delete_removes_one_row faults u b d :
  let out := answer (delete_qualification faults u b) (open d) in
  match out.1 with
  | Deleted =>
      ∃ pid sid, del_pilot_id b = Some pid ∧ del_skill_id b = Some sid ∧
        is_Some (qualifications d !! (pid, sid)) ∧
        qualifications (tables out.2) !! (pid, sid) = None ∧
        (∀ key, key ≠ (pid, sid) →
                qualifications (tables out.2) !! key = qualifications d !! key) ∧
        S (size (qualifications (tables out.2))) = size (qualifications d)
  | _ => tables out.2 = d
  end ∧
  pilots (tables out.2) = pilots d ∧ skills (tables out.2) = skills d ∧
  (requireRole ["instructor"; "admin"] u = true → is_instructor u = false →
   ∀ pid sid, b = DeleteBody (Some pid) (Some sid) →
     (answer (delete_qualification no_faults u b) (open d)).1 =
       match qualifications d !! (pid, sid) with
       | Some _ => Deleted
       | None => Fail 404 "Qualification not found"
       end).
Proof.
  cbv zeta. split; [|split; [|split]].
  - destruct (delete_outcomes faults u b d)
      as [[Hsame Hno]|(pid & sid & q & Hp & Hs & _ & Hq & Hans & Htab & _)].
    + rewrite Hsame.
      by destruct (answer (delete_qualification faults u b) (open d)).1.
    + rewrite Hans, Htab. exists pid, sid. simpl. repeat split; try done.
      * apply lookup_delete_eq.
      * intros key Hne. by apply lookup_delete_ne.
      * by apply size_delete_present with q.
  - destruct (delete_outcomes faults u b d)
      as [[-> _]|(pid & sid & q & _ & _ & _ & _ & _ & -> & _)]; done.
  - destruct (delete_outcomes faults u b d)
      as [[-> _]|(pid & sid & q & _ & _ & _ & _ & _ & -> & _)]; done.
  - intros Hrole Hinstr pid sid ->.
    unfold delete_qualification, answer. rewrite Hrole, Hinstr. simpl.
    unfold ptry, pbind, pool_query, pret, open, delete_row, no_faults. simpl.
    by destruct (qualifications d !! (pid, sid)).
Qed.

Lemma delete_removes_one_row_witness :
  let b := DeleteBody (Some 1%nat) (Some 10%nat) in
  (answer (delete_qualification no_faults Example.admin b)
          (open Example.trained_squadron)).1 = Deleted ∧
  (answer (delete_qualification no_faults Example.admin b)
          (open Example.squadron)).1 = Fail 404 "Qualification not found".
Proof.
  split.
  - exact (proj2 (proj2 (proj2 (delete_removes_one_row no_faults Example.admin
             (DeleteBody (Some 1%nat) (Some 10%nat)) Example.trained_squadron)))
             eq_refl eq_refl 1%nat 10%nat eq_refl).
  - exact (proj2 (proj2 (proj2 (delete_removes_one_row no_faults Example.admin
             (DeleteBody (Some 1%nat) (Some 10%nat)) Example.squadron)))
             eq_refl eq_refl 1%nat 10%nat eq_refl).
Defined.

(** X7. PUT then DELETE is a round trip.  For a caller who is not an
    instructor, a pair without a row, an existing pilot and skill and a
    valid status: the PUT answers the row, the DELETE that follows answers
    [deleted], and the tables are again the ones before the PUT. *)
Theorem put_then_delete_restores u now d pid sid st :
  requireRole ["instructor"; "admin"] u = true → is_instructor u = false →
  Js.includes validStatuses st = true → references_ok pid sid d = true →
  qualifications d !! (pid, sid) = None →
  let out1 := run (put_qualification no_faults u now (PutBody (Some pid) (Some sid) (Some st)))
                  (connect d) in
  let out2 := answer (delete_qualification no_faults u (DeleteBody (Some pid) (Some sid)))
                     (open (committed out1.2)) in
  out1.1 = Row pid sid (Qualification st now (email u)) ∧
  out2.1 = Deleted ∧ tables out2.2 = d.
Proof.
  intros Hrole Hinstr Hvalid Href Hnone out1 out2. subst out1 out2.
  assert (Js.falsy (Some st) = false) as Hfalsy.
  { destruct st; [|done]. by vm_compute in Hvalid. }
  assert (run (put_qualification no_faults u now (PutBody (Some pid) (Some sid) (Some st)))
              (connect d) =
          (Row pid sid (Qualification st now (email u)),
           Conn (set_qualifications
                   (<[(pid, sid) := Qualification st now (email u)]> (qualifications d)) d)
                None 1 [Upsert pid sid st (email u)])) as ->.
  { unfold put_qualification, run. rewrite Hrole.
    cbn [negb put_pilot_id put_skill_id put_status].
    rewrite !bool_decide_eq_false_2 by done. rewrite Hfalsy.
    cbn [orb]. change (Js.text (Some st)) with st.
    change (default 0%nat (Some pid)) with pid. change (default 0%nat (Some sid)) with sid.
    rewrite Hvalid, Hinstr. cbn [negb].
    unfold try_catch, bind, execute, query, ret, no_faults, record_stmt, put_view, view,
      connect.
    cbn [tx committed sent log]. unfold upsert, status_check.
    unfold validStatuses in Hvalid. by rewrite Href, Hvalid. }
  split; [done|]. cbn [snd committed].
  unfold delete_qualification, answer. rewrite Hrole, Hinstr. simpl.
  unfold ptry, pbind, pool_query, pret, open, delete_row, no_faults. simpl.
  rewrite lookup_insert_eq. simpl. split; [done|].
  rewrite delete_insert_id by done. by destruct d.
Qed.

Lemma put_then_delete_restores_witness :
  let out1 := run (put_qualification no_faults Example.admin 7
                     (PutBody (Some 1%nat) (Some 10%nat) (Some "FMQ")))
                  (connect Example.squadron) in
  let out2 := answer (delete_qualification no_faults Example.admin
                        (DeleteBody (Some 1%nat) (Some 10%nat)))
                     (open (committed out1.2)) in
  out1.1 = Row 1 10 (Qualification "FMQ" 7 (email Example.admin)) ∧
  out2.1 = Deleted ∧ tables out2.2 = Example.squadron.
Proof.
  apply (put_then_delete_restores Example.admin 7 Example.squadron 1 10 "FMQ");
    reflexivity.
Defined.

End SingleRecord.

(** ** Who may write what *)
Section Authorization.
Import Sql Tx Auth Routes Reference Invariants Pool.

(** Everything the loop body has checked of an accepted record. *)
Lemma verdict_accept_full u d i r pid sid st :
  verdict_of u d i r = Accept pid sid st →
  ∃ p s, In p (pilots d) ∧ In s (skills d) ∧ p_id p = pid ∧ s_id s = sid ∧
         s_wing_id s = p_wing_id p ∧ status_check st = true ∧
         (is_instructor u = true → wing_id u = Some (p_wing_id p)).
Proof.
  unfold verdict_of, plan_record.
  destruct (Js.falsy (callsign r) || Js.falsy (skill_name r) || Js.falsy (status r)); [done|].
  destruct (Js.includes validStatuses (Js.toUpperCase (Js.text (status r)))) eqn:Hst;
    [|done].
  cbn [negb].
  destruct (select_pilots_ilike (Js.trim (Js.text (callsign r))) d) as [|p ps] eqn:Hp; [done|].
  destruct (is_instructor u && not_own_wing (p_wing_id p) u) eqn:Hpw; [done|].
  destruct (select_skills_ilike (Js.trim (Js.text (skill_name r))) d) as [|s ss] eqn:Hs;
    [done|].
  destruct (s_wing_id s =? p_wing_id p)%nat eqn:Hw; [|done]. cbn [negb].
  destruct (is_instructor u && not_own_wing (s_wing_id s) u); [done|].
  intros [= <- <- <-]. exists p, s.
  apply filter_head_In in Hp as [Hp _]. apply filter_head_In in Hs as [Hs _].
  apply Nat.eqb_eq in Hw. repeat split; try done.
  intros Hinstr. rewrite Hinstr in Hpw. simpl in Hpw. unfold not_own_wing in Hpw.
  by apply negb_false_iff, bool_decide_eq_true in Hpw.
Qed.

Lemma last_accept_Some_inv u d rs key st : ∀ i,
  last_accept u d i rs key = Some st →
  ∃ r j, In r rs ∧ verdict_of u d j r = Accept key.1 key.2 st.
Proof.
  induction rs as [|r rs IH]; intros i; simpl; [done|].
  destruct (last_accept u d (S i) rs key) as [st'|] eqn:E.
  - intros [= ->]. destruct (IH _ E) as (r' & j & Hin & Hv). exists r', j. by split; [right|].
  - destruct (verdict_of u d i r) as [msg|pid sid st'] eqn:Hv; [done|].
    case_bool_decide as Hk; [|done]. intros [= ->]. subst key.
    exists r, i. by split; [left|].
Qed.

(** X8. An instructor is confined to the own wing.  For a caller with
    the instructor role, under any schedule: a PUT answers a row only for
    a pilot and a skill that both belong to the caller's wing; a DELETE
    answers [deleted] only for a pilot of the caller's wing; an import
    changes the row of a pair only if the pair is a pilot and a skill of
    the caller's wing.  An instructor whose token carries no wing changes
    nothing through any of the three routes. *)
Theorem instructor_confined_to_wing u :
  is_instructor u = true →
  (∀ faults now b d pid sid q,
     (run (put_qualification faults u now b) (connect d)).1 = Row pid sid q →
     ∃ p s, In p (pilots d) ∧ In s (skills d) ∧ p_id p = pid ∧ s_id s = sid ∧
            wing_id u = Some (p_wing_id p) ∧ wing_id u = Some (s_wing_id s)) ∧
  (∀ faults b d,
     (answer (delete_qualification faults u b) (open d)).1 = Deleted →
     ∃ pid p, del_pilot_id b = Some pid ∧ In p (pilots d) ∧ p_id p = pid ∧
              wing_id u = Some (p_wing_id p)) ∧
  (∀ faults connects now body d key,
     qualifications
       (committed (run (bulk_import faults connects u now body) (connect d)).2) !! key
       ≠ qualifications d !! key →
     ∃ p s, In p (pilots d) ∧ In s (skills d) ∧ key = (p_id p, s_id s) ∧
            wing_id u = Some (p_wing_id p) ∧ wing_id u = Some (s_wing_id s)) ∧
  (wing_id u = None →
   ∀ faults connects now b db_ body d,
     committed (run (put_qualification faults u now b) (connect d)).2 = d ∧
     tables (answer (delete_qualification faults u db_) (open d)).2 = d ∧
     qualifications
       (committed (run (bulk_import faults connects u now body) (connect d)).2)
       = qualifications d).
Proof.
  intros Hinstr.
  assert (Hput : ∀ faults now b d pid sid q,
     (run (put_qualification faults u now b) (connect d)).1 = Row pid sid q →
     ∃ p s, In p (pilots d) ∧ In s (skills d) ∧ p_id p = pid ∧ s_id s = sid ∧
            wing_id u = Some (p_wing_id p) ∧ wing_id u = Some (s_wing_id s)).
  { intros faults now b d pid sid q Hrow.
    destruct (put_outcomes faults u now b d)
      as [[_ Hno]|(pid' & sid' & st & _ & _ & _ & _ & _ & _ & Hans & _ & Hw)];
      [by edestruct Hno|].
    rewrite Hans in Hrow. injection Hrow as -> -> _. by apply Hw. }
  assert (Hdel : ∀ faults b d,
     (answer (delete_qualification faults u b) (open d)).1 = Deleted →
     ∃ pid p, del_pilot_id b = Some pid ∧ In p (pilots d) ∧ p_id p = pid ∧
              wing_id u = Some (p_wing_id p)).
  { intros faults b d Hd.
    destruct (delete_outcomes faults u b d)
      as [[_ Hno]|(pid & sid & q & Hp & _ & _ & _ & _ & _ & Hw)]; [done|].
    destruct (Hw Hinstr) as (p & ? & ? & ?). by exists pid, p. }
  assert (Hbulk : ∀ faults connects now body d key,
     qualifications
       (committed (run (bulk_import faults connects u now body) (connect d)).2) !! key
       ≠ qualifications d !! key →
     ∃ p s, In p (pilots d) ∧ In s (skills d) ∧ key = (p_id p, s_id s) ∧
            wing_id u = Some (p_wing_id p) ∧ wing_id u = Some (s_wing_id s)).
  { intros faults connects now body d key Hne.
    destruct (bulk_outcomes faults connects u now body d) as [Hsame|(rs & -> & Hcom)].
    { by rewrite Hsame in Hne. }
    rewrite Hcom, effect_loop_lookup in Hne.
    destruct (last_accept u d 0 rs key) as [st|] eqn:E; [|done].
    apply last_accept_Some_inv in E as (r & j & _ & Hv).
    apply verdict_accept_full in Hv as (p & s & Hp & Hs & Hpid & Hsid & Hw & _ & Hown).
    exists p, s. specialize (Hown Hinstr). destruct key as [k1 k2]. simpl in *.
    repeat split; try done; congruence. }
  split; [done|]. split; [done|]. split; [done|].
  intros Hnone faults connects now b db_ body d. split; [|split].
  - destruct (put_outcomes faults u now b d)
      as [[Hsame _]|(pid & sid & st & _ & _ & _ & _ & _ & _ & Hans & _ & _)]; [done|].
    destruct (Hput faults now b d _ _ _ Hans) as (p & s & _ & _ & _ & _ & Hw & _).
    congruence.
  - destruct (delete_outcomes faults u db_ d)
      as [[Hsame _]|(pid & sid & q & _ & _ & _ & _ & Hans & _ & _)]; [done|].
    destruct (Hdel faults db_ d Hans) as (pid' & p & _ & _ & _ & Hw). congruence.
  - destruct (bulk_outcomes faults connects u now body d) as [Hsame|(rs & -> & Hcom)];
      [by rewrite Hsame|].
    rewrite Hcom. apply map_eq. intros key. rewrite effect_loop_lookup.
    destruct (last_accept u d 0 rs key) as [st|] eqn:E; [|done].
    apply last_accept_Some_inv in E as (r & j & _ & Hv).
    apply verdict_accept_full in Hv as (p & s & _ & _ & _ & _ & _ & _ & Hown).
    specialize (Hown Hinstr). congruence.
Qed.

Lemma instructor_confined_to_wing_witness :
  is_instructor Example.instructor1 = true ∧
  (∀ faults now b d pid sid q,
     (run (put_qualification faults Example.instructor1 now b) (connect d)).1
       = Row pid sid q →
     ∃ p s, In p (pilots d) ∧ In s (skills d) ∧ p_id p = pid ∧ s_id s = sid ∧
            wing_id Example.instructor1 = Some (p_wing_id p) ∧
            wing_id Example.instructor1 = Some (s_wing_id s)).
Proof.
  split; [reflexivity|].
  exact (proj1 (instructor_confined_to_wing Example.instructor1 eq_refl)).
Defined.

End Authorization.

(** ** The constraints of the table under the write routes *)
Section Constraints.
Import Sql Tx Auth Routes Reference Invariants Pool.

Lemma rows_from_refl d : rows_from d d.
Proof. split; [done|]. split; [done|]. intros pid sid q Hq. by left. Qed.

Lemma rows_from_constraints d d' :
  rows_from d d' → statuses_valid d → rows_referenced d →
  statuses_valid d' ∧ rows_referenced d'.
Proof.
  intros (Hp & Hs & Hrows) Hst Href. split.
  - intros [pid sid] q Hq. destruct (Hrows _ _ _ Hq) as [Hold|[? _]]; [|done].
    by eapply Hst.
  - intros pid sid q Hq. unfold references_ok. rewrite Hp, Hs.
    destruct (Hrows _ _ _ Hq) as [Hold|[_ ?]]; [|done]. by eapply Href.
Qed.

Lemma rows_from_constraints_ref d d' :
  rows_from d d' → rows_referenced d → rows_referenced d'.
Proof.
  intros (Hp & Hs & Hrows) Href pid sid q Hq. unfold references_ok. rewrite Hp, Hs.
  destruct (Hrows _ _ _ Hq) as [Hold|[_ ?]]; [|done]. by eapply Href.
Qed.

Lemma put_rows_from faults u now b d :
  rows_from d (committed (run (put_qualification faults u now b) (connect d)).2).
Proof.
  destruct (put_outcomes faults u now b d)
    as [[-> _]|(pid & sid & st & _ & _ & _ & _ & Hvalid & Hr & _ & -> & _)];
    [apply rows_from_refl|].
  split; [done|]. split; [done|]. intros pid' sid' q. simpl.
  rewrite lookup_insert_Some. intros [[[= <- <-] <-]|[_ Hold]]; [right|by left]. done.
Qed.

Lemma delete_rows_from faults u b d :
  rows_from d (tables (answer (delete_qualification faults u b) (open d)).2).
Proof.
  destruct (delete_outcomes faults u b d)
    as [[-> _]|(pid & sid & q0 & _ & _ & _ & _ & _ & -> & _)]; [apply rows_from_refl|].
  split; [done|]. split; [done|]. intros pid' sid' q. simpl.
  rewrite lookup_delete_Some. intros [_ Hold]. by left.
Qed.

Lemma bulk_rows_from faults connects u now body d :
  rows_from d (committed (run (bulk_import faults connects u now body) (connect d)).2).
Proof.
  destruct (bulk_outcomes faults connects u now body d) as [->|(rs & -> & ->)];
    [apply rows_from_refl|].
  split; [apply effect_loop_pilots|]. split; [apply effect_loop_skills|].
  intros pid sid q. rewrite effect_loop_lookup.
  destruct (last_accept u d 0 rs (pid, sid)) as [st|] eqn:E; [|by left].
  intros [= <-]. right.
  apply last_accept_Some_inv in E as (r & j & _ & Hv). simpl in Hv.
  apply verdict_accept_full in Hv as (p & s & Hp & Hs & <- & <- & _ & Hvalid & _).
  split; [done|]. by apply references_ok_intro.
Qed.

Lemma backfill_rows now by_ d pid sid q :
  qualifications (backfill now by_ d).1 !! (pid, sid) = Some q →
  qualifications d !! (pid, sid) = Some q ∨
  (q = Qualification "NMQ" now by_ ∧ references_ok pid sid d = true).
Proof.
  unfold backfill. simpl.
  destruct (insert_do_nothing_fold now by_ (backfill_select d) (qualifications d) 0)
    as (_ & _ & Hnew).
  intros Hq. destruct (Hnew _ _ Hq) as [Hold|[Hin ->]]; [by left|right].
  apply backfill_select_spec in Hin as (p & s & Hp & Hs & <- & <- & _ & _).
  split; [done|]. apply references_ok_intro; by apply list_elem_of_In.
Qed.

Lemma backfill_rows_from faults u now d :
  rows_from d (committed (run (backfill_route faults u now) (connect d)).2).
Proof.
  destruct (backfill_outcomes faults u now d) as [[-> _]|(_ & _ & ->)];
    [apply rows_from_refl|].
  split; [done|]. split; [done|]. intros pid sid q Hq.
  destruct (backfill_rows _ _ _ _ _ _ Hq) as [?|[-> ?]]; [by left|by right].
Qed.

(** X9. The CHECK on the status and the two REFERENCES clauses hold of
    every row after each write route, whoever calls with whatever body
    and whichever statements raise, when they held before; and no write
    route touches the pilots or the skills. *)
Theorem write_routes_keep_constraints d :
  statuses_valid d → rows_referenced d →
  ∀ faults u now,
    (∀ b, let d' := committed (run (put_qualification faults u now b) (connect d)).2 in
          statuses_valid d' ∧ rows_referenced d' ∧
          pilots d' = pilots d ∧ skills d' = skills d) ∧
    (∀ b, let d' := tables (answer (delete_qualification faults u b) (open d)).2 in
          statuses_valid d' ∧ rows_referenced d' ∧
          pilots d' = pilots d ∧ skills d' = skills d) ∧
    (∀ connects body,
          let d' := committed (run (bulk_import faults connects u now body)
                                 (connect d)).2 in
          statuses_valid d' ∧ rows_referenced d' ∧
          pilots d' = pilots d ∧ skills d' = skills d) ∧
    (let d' := committed (run (backfill_route faults u now) (connect d)).2 in
          statuses_valid d' ∧ rows_referenced d' ∧
          pilots d' = pilots d ∧ skills d' = skills d).
Proof.
  intros Hst Href faults u now.
  assert (Hgo : ∀ d', rows_from d d' →
    statuses_valid d' ∧ rows_referenced d' ∧ pilots d' = pilots d ∧ skills d' = skills d).
  { intros d' Hrows. destruct (rows_from_constraints d d' Hrows Hst Href).
    by destruct Hrows as (? & ? & _). }
  split; [|split; [|split]]; cbv zeta.
  - intros b. apply Hgo, put_rows_from.
  - intros b. apply Hgo, delete_rows_from.
  - intros connects body. apply Hgo, bulk_rows_from.
  - apply Hgo, backfill_rows_from.
Qed.

Lemma trained_squadron_constraints :
  statuses_valid Example.trained_squadron ∧ rows_referenced Example.trained_squadron.
Proof.
  split.
  - intros k q Hq. apply elem_of_list_to_map_2 in Hq.
    repeat (apply elem_of_cons in Hq as [[= -> ->]|Hq]; [done|]).
    by apply elem_of_nil in Hq.
  - intros pid sid q Hq. apply elem_of_list_to_map_2 in Hq.
    repeat (apply elem_of_cons in Hq as [[= -> -> ->]|Hq]; [done|]).
    by apply elem_of_nil in Hq.
Qed.

Lemma write_routes_keep_constraints_witness :
  let d := Example.trained_squadron in
  let d' := committed (run (bulk_import Reference.no_faults true Example.instructor1 7
                              (Array [Example.viper_startup])) (connect d)).2 in
  statuses_valid d' ∧ rows_referenced d'.
Proof.
  cbv zeta. destruct trained_squadron_constraints as [Hst Href].
  pose proof (write_routes_keep_constraints Example.trained_squadron Hst Href
                Reference.no_faults Example.instructor1 7) as (_ & _ & H & _).
  destruct (H true (Array [Example.viper_startup])) as (? & ? & _). done.
Defined.

End Constraints.

(** ** The statistics and the write routes *)
Section Readiness.
Import Sql Tx Auth Routes Reference Invariants Pool.

Lemma elem_of_qualified_skills_b d pid sid :
  sid ∈ qualified_skills d pid ↔
    ∃ q, qualifications d !! (pid, sid) = Some q ∧ fmq_or_ip q = true.
Proof.
  rewrite elem_of_qualified_skills. unfold status_fmq_or_ip.
  split; intros (q & Hq & Hf); exists q; (split; [done|]).
  - rewrite fmq_or_ip_spec. by apply bool_decide_eq_true.
  - rewrite fmq_or_ip_spec in Hf. by apply bool_decide_eq_true in Hf.
Qed.

Lemma filter_length_mono {A} (f g : A → bool) (l : list A) :
  (∀ x, x ∈ l → f x = true → g x = true) →
  (length (List.filter f l) ≤ length (List.filter g l))%nat.
Proof.
  induction l as [|x l IH]; intros H; simpl; [done|].
  assert (length (List.filter f l) ≤ length (List.filter g l))%nat as Hle.
  { apply IH. intros y Hy. apply H. by right. }
  destruct (f x) eqn:Hf.
  - rewrite (H x) by (done || by left). simpl. lia.
  - destruct (g x); simpl; lia.
Qed.

Lemma rows_referenced_pilots d : rows_referenced d → pilots_referenced d.
Proof.
  intros Href pid sid q Hq. specialize (Href _ _ _ Hq). unfold references_ok in Href.
  apply andb_prop in Href as [Hp _]. apply existsb_exists in Hp as (p & Hp & Hid).
  exists p. split; [by apply list_elem_of_In|]. by apply Nat.eqb_eq.
Qed.

(** More FMQ or IP rows per pilot, at least as many combat-ready pilots. *)
Lemma readiness_le wing d d' :
  unique_ids d → rows_referenced d → rows_referenced d' →
  pilots d' = pilots d → skills d' = skills d →
  (∀ pid, qualified_skills d pid ⊆ qualified_skills d' pid) →
  (combat_ready_query wing d ≤ combat_ready_query wing d')%nat.
Proof.
  intros Hu Href Href' Hp Hs Hsub.
  assert (unique_ids d') as Hu' by (unfold unique_ids; by rewrite Hp, Hs).
  rewrite (combat_ready_query_count wing d Hu)
    by (intros _; by apply rows_referenced_pilots).
  rewrite (combat_ready_query_count wing d' Hu')
    by (intros _; by apply rows_referenced_pilots).
  unfold combat_ready_count. rewrite Hp. apply filter_length_mono.
  intros p _ [Hw Hr]%andb_prop. rewrite Hw. cbn [andb]. unfold combat_ready in *.
  apply Nat.leb_le in Hr. apply Nat.leb_le.
  pose proof (subseteq_size _ _ (Hsub (p_id p))). lia.
Qed.

(** X10. Writes and the combat-ready count.  On tables that satisfy the
    primary keys and the REFERENCES clauses, whoever calls and whichever
    statements raise: a PUT with status FMQ or IP never lowers the count
    of combat-ready pilots of any wing filter, a PUT with another status
    and a DELETE never raise it, and the backfill leaves it as it was.
    None of them changes the pilot total. *)
Theorem writes_and_readiness wing d :
  unique_ids d → rows_referenced d →
  ∀ faults u now,
    let ready := combat_ready_query wing in
    (∀ b st, put_status b = Some st →
       let d' := committed (run (put_qualification faults u now b) (connect d)).2 in
       total_pilots_query wing d' = total_pilots_query wing d ∧
       (Js.includes ["FMQ"; "IP"] st = true → ready d ≤ ready d')%nat ∧
       (Js.includes ["FMQ"; "IP"] st = false → ready d' ≤ ready d)%nat) ∧
    (∀ b,
       let d' := tables (answer (delete_qualification faults u b) (open d)).2 in
       total_pilots_query wing d' = total_pilots_query wing d ∧
       (ready d' ≤ ready d)%nat) ∧
    (let d' := committed (run (backfill_route faults u now) (connect d)).2 in
       total_pilots_query wing d' = total_pilots_query wing d ∧
       ready d' = ready d).
Proof.
  intros Hu Href faults u now. cbv zeta.
  assert (Htot : ∀ d', pilots d' = pilots d →
            total_pilots_query wing d' = total_pilots_query wing d).
  { intros d' Hp. unfold total_pilots_query. by rewrite Hp. }
  assert (Hup : ∀ d', rows_from d d' →
            (∀ pid, qualified_skills d pid ⊆ qualified_skills d' pid) →
            (combat_ready_query wing d ≤ combat_ready_query wing d')%nat).
  { intros d' Hrows Hsub. pose proof (rows_from_constraints_ref d d' Hrows Href) as Href'.
    destruct Hrows as (Hp & Hs & _). by apply readiness_le. }
  assert (Hdown : ∀ d', rows_from d d' →
            (∀ pid, qualified_skills d' pid ⊆ qualified_skills d pid) →
            (combat_ready_query wing d' ≤ combat_ready_query wing d)%nat).
  { intros d' Hrows Hsub. pose proof (rows_from_constraints_ref d d' Hrows Href) as Href'.
    destruct Hrows as (Hp & Hs & _).
    apply readiness_le; try done. unfold unique_ids. by rewrite Hp, Hs. }
  split; [|split].
  - intros b st Hst.
    pose proof (put_rows_from faults u now b d) as Hrows.
    split; [apply Htot; by destruct Hrows|].
    destruct (put_outcomes faults u now b d)
      as [[Hsame _]|(pid & sid & st' & _ & _ & Hst' & _ & _ & _ & _ & Hcom & _)].
    { rewrite Hsame. split; intros _; lia. }
    rewrite Hst in Hst'. injection Hst' as <-.
    split; intros Hf.
    + apply Hup; [done|]. rewrite Hcom. intros pid' sid'.
      rewrite !elem_of_qualified_skills_b. simpl. intros (q & Hq & Hfq).
      destruct (decide ((pid, sid) = (pid', sid'))) as [<-|Hne].
      * eexists. rewrite lookup_insert_eq. split; [done|]. done.
      * exists q. by rewrite lookup_insert_ne.
    + apply Hdown; [done|]. rewrite Hcom. intros pid' sid'.
      rewrite !elem_of_qualified_skills_b. simpl. intros (q & Hq & Hfq).
      apply lookup_insert_Some in Hq as [[_ <-]|[_ Hq]]; [|by exists q].
      unfold fmq_or_ip in Hfq. simpl in Hfq. congruence.
  - intros b. pose proof (delete_rows_from faults u b d) as Hrows.
    split; [apply Htot; by destruct Hrows|].
    apply Hdown; [done|].
    destruct (delete_outcomes faults u b d)
      as [[-> _]|(pid & sid & q0 & _ & _ & _ & _ & _ & -> & _)]; [done|].
    intros pid' sid'. rewrite !elem_of_qualified_skills_b. simpl. intros (q & Hq & Hfq).
    apply lookup_delete_Some in Hq as [_ Hq]. by exists q.
  - pose proof (backfill_rows_from faults u now d) as Hrows.
    split; [apply Htot; by destruct Hrows|].
    apply Nat.le_antisymm.
    + apply Hdown; [done|].
      destruct (backfill_outcomes faults u now d) as [[-> _]|(_ & _ & ->)]; [done|].
      intros pid' sid'. rewrite !elem_of_qualified_skills_b. intros (q & Hq & Hfq).
      destruct (backfill_rows _ _ _ _ _ _ Hq) as [?|[-> _]]; [by exists q|done].
    + apply Hup; [done|].
      destruct (backfill_outcomes faults u now d) as [[-> _]|(_ & _ & ->)]; [done|].
      intros pid' sid'. rewrite !elem_of_qualified_skills_b. intros (q & Hq & Hfq).
      exists q. split; [|done]. unfold backfill. simpl.
      destruct (insert_do_nothing_fold now (email u) (backfill_select d)
                  (qualifications d) 0) as (Hkeep & _ & _).
      by apply Hkeep.
Qed.

Lemma trained_squadron_unique : unique_ids Example.trained_squadron.
Proof. split; apply NoDup_ListNoDup; repeat constructor; simpl; intuition discriminate. Qed.

Lemma writes_and_readiness_witness :
  let d := Example.trained_squadron in
  let b := PutBody (Some 3%nat) (Some 12%nat) (Some "IP") in
  let d' := committed (run (put_qualification no_faults Example.instructor1 9 b)
                         (connect d)).2 in
  (combat_ready_query (Some 1%nat) d ≤ combat_ready_query (Some 1%nat) d')%nat.
Proof.
  cbv zeta.
  pose proof (writes_and_readiness (Some 1%nat) Example.trained_squadron
                trained_squadron_unique (proj2 trained_squadron_constraints)
                no_faults Example.instructor1 9) as (H & _).
  destruct (H (PutBody (Some 3%nat) (Some 12%nat) (Some "IP")) "IP" eq_refl)
    as (_ & Hup & _).
  apply Hup. reflexivity.
Defined.

Example promotion_makes_ready :
  let d := Example.trained_squadron in
  let b := PutBody (Some 3%nat) (Some 12%nat) (Some "IP") in
  let d' := committed (run (put_qualification no_faults Example.instructor1 9 b)
                         (connect d)).2 in
  combat_ready_query (Some 1%nat) d = 1%nat ∧ combat_ready_query (Some 1%nat) d' = 2%nat.
Proof. by vm_compute. Qed.

Lemma ready_le_total wing d :
  (combat_ready_count wing d ≤ total_pilots_query wing d)%nat.
Proof.
  unfold combat_ready_count, total_pilots_query. destruct wing as [w|]; simpl.
  - apply filter_length_mono. by intros p _ [? _]%andb_prop.
  - apply List.filter_length_le.
Qed.

(** X11. The statistics route only reads.  Under any schedule it sends
    its three statements together and leaves the tables as they were; it
    answers 500 when one of the three raises and the two counts
    otherwise, and on tables that satisfy the primary keys and the
    REFERENCES clauses the combat-ready count never exceeds the pilot
    total. *)
Theorem stats_reads_only faults wing d :
  let out := run (stats faults wing) (connect d) in
  committed out.2 = d ∧
  log out.2 = [TotalPilots wing; CombatReady wing; Completion wing] ∧
  (faults 0%nat || faults 1%nat || faults 2%nat = true →
     out.1 = Error 500 "Internal server error") ∧
  (faults 0%nat || faults 1%nat || faults 2%nat = false →
     out.1 = Stats (total_pilots_query wing d) (combat_ready_query wing d)) ∧
  (unique_ids d → rows_referenced d →
     (combat_ready_query wing d ≤ total_pilots_query wing d)%nat).
Proof.
  cbv zeta. unfold run, stats, try_catch, bind, stats_queries, ret. simpl.
  destruct (faults 0%nat || faults 1%nat || faults 2%nat) eqn:Hf; simpl.
  - repeat split; try done.
    intros Hu Href. rewrite (combat_ready_query_count wing d Hu)
      by (intros _; by apply rows_referenced_pilots).
    apply ready_le_total.
  - repeat split; try done.
    intros Hu Href. rewrite (combat_ready_query_count wing d Hu)
      by (intros _; by apply rows_referenced_pilots).
    apply ready_le_total.
Qed.

Lemma stats_reads_only_witness :
  (combat_ready_query None Example.trained_squadron
     ≤ total_pilots_query None Example.trained_squadron)%nat.
Proof.
  apply (stats_reads_only no_faults None Example.trained_squadron).
  - exact trained_squadron_unique.
  - exact (proj2 trained_squadron_constraints).
Defined.

End Readiness.

(** ** What the backfill counts *)
Section BackfillCount.
Import Sql Tx Auth Routes Reference Invariants Pool.

Lemma insert_do_nothing_count now by_ keys : ∀ m n,
  let r := foldl (insert_do_nothing now by_) (m, n) keys in
  (size r.1 + n = size m + r.2)%nat ∧ (r.2 ≤ n + length keys)%nat ∧
  (NoDup keys → (∀ k, k ∈ keys → m !! k = None) → r.2 = (n + length keys)%nat).
Proof.
  induction keys as [|key keys IH]; intros m n; simpl.
  { split; [done|]. split; [lia|]. intros _ _. lia. }
  rewrite insert_do_nothing_step.
  destruct (m !! key) as [q0|] eqn:Hkey.
  - destruct (IH m n) as (Hsize & Hle & _). simpl in *.
    split; [done|]. split; [lia|]. intros _ Hnone.
    rewrite Hnone in Hkey by left. done.
  - destruct (IH (<[key := Qualification "NMQ" now by_]> m) (S n)) as (Hsize & Hle & Heq).
    simpl in *. rewrite map_size_insert_None in Hsize by done.
    split; [lia|]. split; [lia|]. intros [Hnotin Hnd]%NoDup_cons Hnone.
    rewrite Heq; [lia|done|]. intros k Hk. rewrite lookup_insert_ne.
    + apply Hnone. by right.
    + intros ->. done.
Qed.

Lemma bind_length_le {A B} (f : A → list B) (k : nat) (l : list A) :
  (∀ x, length (f x) ≤ k)%nat → (length (l ≫= f) ≤ length l * k)%nat.
Proof.
  intros Hf. induction l as [|x l IH]; [done|].
  rewrite bind_cons, length_app. cbn [length]. specialize (Hf x). nia.
Qed.

Lemma backfill_select_length d :
  (length (backfill_select d) ≤ length (pilots d) * length (skills d))%nat.
Proof.
  unfold backfill_select. apply bind_length_le. intros p.
  rewrite <- (Nat.mul_1_r (length (skills d))). apply bind_length_le. intros s.
  destruct (_ && _); simpl; lia.
Qed.

Lemma backfill_select_NoDup d : unique_ids d → NoDup (backfill_select d).
Proof.
  intros [Hps Hss]. unfold backfill_select. apply NoDup_bind.
  - intros p1 p2 [pid sid] Hp1 Hp2 H1 H2.
    apply list_elem_of_bind in H1 as (s1 & H1 & _).
    apply list_elem_of_bind in H2 as (s2 & H2 & _).
    destruct (_ && _) in H1; [|by apply elem_of_nil in H1].
    destruct (_ && _) in H2; [|by apply elem_of_nil in H2].
    apply list_elem_of_singleton in H1 as [= Hid1 _].
    apply list_elem_of_singleton in H2 as [= Hid2 _].
    apply (unique_pilot (pilots d)); try done. congruence.
  - intros p Hp. apply NoDup_bind.
    + intros s1 s2 [pid sid] Hs1 Hs2 H1 H2.
      destruct (_ && _) in H1; [|by apply elem_of_nil in H1].
      destruct (_ && _) in H2; [|by apply elem_of_nil in H2].
      apply list_elem_of_singleton in H1 as [= _ Hid1].
      apply list_elem_of_singleton in H2 as [= _ Hid2].
      apply (unique_skill (skills d)); try done. congruence.
    + intros s Hs. destruct (_ && _); [apply NoDup_singleton|apply NoDup_nil_2].
    + by apply NoDup_fmap_1 in Hss.
  - by apply NoDup_fmap_1 in Hps.
Qed.

(** X12. What the backfill counts.  Whoever calls and whether or not
    the statement raises, the table grows by exactly the [rowsInserted]
    that is answered, which is at most pilots times skills, and stays as
    it is when another answer is given.  Under the primary keys of pilots
    and skills the count is the number of pairs the SELECT yields: the
    pairs of a pilot and a skill of one wing that have no row. *)
Theorem backfill_counts_new_rows faults u now d :
  let out := run (backfill_route faults u now) (connect d) in
  (∀ n, out.1 = BackfillDone n →
     size (qualifications (committed out.2)) = (size (qualifications d) + n)%nat ∧
     (n ≤ length (pilots d) * length (skills d))%nat ∧
     (unique_ids d → n = length (backfill_select d))) ∧
  ((∀ n, out.1 ≠ BackfillDone n) → committed out.2 = d).
Proof.
  cbv zeta.
  destruct (backfill_outcomes faults u now d) as [[Hsame Hno]|(_ & Hans & Hcom)].
  { split; [|done]. intros n Hn. by edestruct Hno. }
  split; [|intros Hno; by edestruct Hno].
  intros n Hn. rewrite Hans in Hn. injection Hn as <-. rewrite Hcom.
  unfold backfill. simpl.
  destruct (insert_do_nothing_count now (email u) (backfill_select d) (qualifications d) 0)
    as (Hsize & Hle & Heq). simpl in *.
  split; [lia|]. split.
  - pose proof (backfill_select_length d). lia.
  - intros Hu. rewrite Heq; [done|by apply backfill_select_NoDup|].
    intros [pid sid] Hin.
    by apply backfill_select_spec in Hin as (_ & _ & _ & _ & _ & _ & _ & ?).
Qed.

Lemma backfill_counts_new_rows_witness :
  let out := run (backfill_route no_faults Example.admin 7) (connect Example.squadron) in
  out.1 = BackfillDone 2 ∧
  size (qualifications (committed out.2)) = (size (qualifications Example.squadron) + 2)%nat.
Proof.
  split; [reflexivity|].
  pose proof (backfill_counts_new_rows no_faults Example.admin 7 Example.squadron)
    as [H _].
  destruct (H 2%nat eq_refl) as [Hsize _]. exact Hsize.
Defined.

End BackfillCount.

(** ** GET /api/qualifications *)
Section Listing.
Import Sql Tx Auth Routes Reference Invariants Pool.

Lemma by_skill_total : Total by_skill.
Proof. intros r1 r2. unfold by_skill. lia. Qed.

Lemma by_skill_trans : Transitive by_skill.
Proof. intros r1 r2 r3. unfold by_skill. lia. Qed.

Lemma by_pilot_skill_total : Total by_pilot_skill.
Proof. intros r1 r2. unfold by_pilot_skill. lia. Qed.

Lemma by_pilot_skill_trans : Transitive by_pilot_skill.
Proof. intros r1 r2 r3. unfold by_pilot_skill. lia. Qed.

Lemma select_by_pilot_spec pid d :
  let rows := select_by_pilot pid d in
  StronglySorted by_skill rows ∧ NoDup (fst <$> rows) ∧
  ∀ pid' sid q, (pid', sid, q) ∈ rows ↔
                qualifications d !! (pid', sid) = Some q ∧ pid' = pid.
Proof.
  cbv zeta. unfold select_by_pilot. split; [|split].
  - apply (@StronglySorted_merge_sort _ by_skill _ by_skill_trans by_skill_total).
  - rewrite merge_sort_Permutation. apply NoDup_fmap_List_filter.
    apply NoDup_fst_map_to_list.
  - intros pid' sid q. rewrite merge_sort_Permutation, elem_of_List_filter.
    rewrite elem_of_map_to_list. simpl. by rewrite Nat.eqb_eq.
Qed.

Lemma select_all_spec d :
  let rows := select_all d in
  StronglySorted by_pilot_skill rows ∧ NoDup (fst <$> rows) ∧
  ∀ pid sid q, (pid, sid, q) ∈ rows ↔ qualifications d !! (pid, sid) = Some q.
Proof.
  cbv zeta. unfold select_all. split; [|split].
  - apply (@StronglySorted_merge_sort _ by_pilot_skill _
             by_pilot_skill_trans by_pilot_skill_total).
  - rewrite merge_sort_Permutation. apply NoDup_fst_map_to_list.
  - intros pid sid q. by rewrite merge_sort_Permutation, elem_of_map_to_list.
Qed.

Lemma get_run faults pilotId d :
  answer (get_qualifications faults pilotId) (open d) =
    (if faults 0%nat then Fail 500 "Internal server error"
     else Listing match pilotId with
                  | Some pid => select_by_pilot pid d
                  | None => select_all d
                  end,
     Session d [SelectQualifications pilotId]).
Proof.
  unfold answer, get_qualifications, ptry, pbind, pool_query, pret, open.
  destruct pilotId as [pid|]; simpl; by destruct (faults 0%nat).
Qed.

(** X13. The listing.  GET /api/qualifications sends one statement and
    changes nothing; it answers 500 when the statement raises.  Otherwise
    it lists every stored row once and nothing else, restricted to the
    pilot of the [pilot_id] parameter when there is one, no pair of pilot
    and skill twice; the rows of one pilot come in the order of the skill
    ids, all rows in the order of the pilot ids and then the skill ids. *)
Theorem get_lists_stored_rows faults pilotId d :
  let out := answer (get_qualifications faults pilotId) (open d) in
  tables out.2 = d ∧ issued out.2 = [SelectQualifications pilotId] ∧
  (faults 0%nat = true → out.1 = Fail 500 "Internal server error") ∧
  (faults 0%nat = false →
     ∃ rows, out.1 = Listing rows ∧ NoDup (fst <$> rows) ∧
       (∀ pid sid q, (pid, sid, q) ∈ rows ↔
          qualifications d !! (pid, sid) = Some q ∧
          match pilotId with Some p => pid = p | None => True end) ∧
       match pilotId with
       | Some _ => StronglySorted (fun r1 r2 : qrow => (r1.1.2 ≤ r2.1.2)%nat) rows
       | None =>
           StronglySorted
             (fun r1 r2 : qrow =>
                (r1.1.1 < r2.1.1)%nat ∨ (r1.1.1 = r2.1.1 ∧ (r1.1.2 ≤ r2.1.2)%nat)) rows
       end).
Proof.
  cbv zeta. rewrite get_run. cbn [fst snd tables issued].
  split; [done|]. split; [done|]. split; [by intros ->|]. intros ->.
  eexists. split; [done|]. destruct pilotId as [pid|].
  - destruct (select_by_pilot_spec pid d) as (Hs & Hn & Hin). done.
  - destruct (select_all_spec d) as (Hs & Hn & Hin).
    split; [done|]. split; [|done]. intros pid sid q. rewrite Hin. tauto.
Qed.

Lemma get_lists_stored_rows_witness :
  ∃ rows,
    (answer (get_qualifications no_faults (Some 1%nat)) (open Example.trained_squadron)).1
      = Listing rows ∧
    NoDup (fst <$> rows).
Proof.
  destruct (get_lists_stored_rows no_faults (Some 1%nat) Example.trained_squadron)
    as (_ & _ & _ & H).
  destruct (H eq_refl) as (rows & Hrows & Hnd & _). by exists rows.
Defined.

Example viper_listing :
  (answer (get_qualifications no_faults (Some 1%nat)) (open Example.trained_squadron)).1
    = Listing [((1, 10), Qualification "FMQ" 1 "lead@wing1");
               ((1, 11), Qualification "IP" 1 "lead@wing1");
               ((1, 12), Qualification "FMQ" 1 "lead@wing1")]%nat.
Proof. by vm_compute. Qed.

(** X14. Reading back what was written.  A PUT that answers a row is
    read back by the next GET for that pilot: the listing holds the
    answered row, and it is the only row of the pair.  After a DELETE
    that answers [deleted], the listing holds no row of the pair, and
    every other row it held before. *)
Theorem get_after_write faults u now d :
  (∀ b pid sid q,
     (run (put_qualification faults u now b) (connect d)).1 = Row pid sid q →
     let d' := committed (run (put_qualification faults u now b) (connect d)).2 in
     ∃ rows,
       (answer (get_qualifications no_faults (Some pid)) (open d')).1 = Listing rows ∧
       (∀ q', (pid, sid, q') ∈ rows ↔ q' = q) ∧
       (∀ sid' q', sid' ≠ sid →
          ((pid, sid', q') ∈ rows ↔ qualifications d !! (pid, sid') = Some q'))) ∧
  (∀ b pid sid,
     (answer (delete_qualification faults u b) (open d)).1 = Deleted →
     del_pilot_id b = Some pid → del_skill_id b = Some sid →
     let d' := tables (answer (delete_qualification faults u b) (open d)).2 in
     ∃ rows,
       (answer (get_qualifications no_faults (Some pid)) (open d')).1 = Listing rows ∧
       (∀ q', (pid, sid, q') ∉ rows) ∧
       (∀ sid' q', sid' ≠ sid →
          ((pid, sid', q') ∈ rows ↔ qualifications d !! (pid, sid') = Some q'))).
Proof.
  split.
  - intros b pid sid q Hrow. cbv zeta.
    destruct (put_outcomes faults u now b d)
      as [[_ Hno]|(pid' & sid' & st & _ & _ & _ & _ & _ & _ & Hans & Hcom & _)];
      [by edestruct Hno|].
    rewrite Hans in Hrow. injection Hrow as -> -> <-. rewrite Hcom, get_run.
    eexists. split; [done|].
    destruct (select_by_pilot_spec pid
                (set_qualifications
                   (<[(pid, sid) := Qualification st now (email u)]> (qualifications d)) d))
      as (_ & _ & Hin).
    split.
    + intros q'. rewrite Hin. simpl. rewrite lookup_insert_eq. split.
      * by intros [[= <-] _].
      * by intros ->.
    + intros sid' q' Hne. rewrite Hin. simpl. rewrite lookup_insert_ne by congruence.
      tauto.
  - intros b pid sid Hdel Hpid Hsid. cbv zeta.
    destruct (delete_outcomes faults u b d)
      as [[_ Hno]|(pid' & sid' & q0 & Hpid' & Hsid' & _ & _ & _ & Hcom & _)]; [done|].
    rewrite Hpid in Hpid'. rewrite Hsid in Hsid'.
    injection Hpid' as <-. injection Hsid' as <-. rewrite Hcom, get_run.
    eexists. split; [done|].
    destruct (select_by_pilot_spec pid
                (set_qualifications (delete (pid, sid) (qualifications d)) d))
      as (_ & _ & Hin).
    split.
    + intros q'. rewrite Hin. simpl. rewrite lookup_delete_eq. by intros [? _].
    + intros sid' q' Hne. rewrite Hin. simpl. rewrite lookup_delete_ne by congruence.
      tauto.
Qed.

Lemma get_after_write_witness :
  let out := run (put_qualification no_faults Example.admin 7 Example.put_viper_landing)
               (connect Example.squadron) in
  ∃ rows,
    (answer (get_qualifications no_faults (Some 1%nat)) (open (committed out.2))).1
      = Listing rows ∧
    ∀ q', (1%nat, 20%nat, q') ∈ rows ↔ q' = Qualification "FMQ" 7 "root@hq".
Proof.
  cbv zeta.
  destruct (get_after_write no_faults Example.admin 7 Example.squadron) as [H _].
  destruct (H Example.put_viper_landing 1%nat 20%nat
              (Qualification "FMQ" 7 "root@hq") eq_refl) as (rows & Hrows & Hin & _).
  by exists rows.
Defined.

End Listing.

(** ** CSV: sanitising, parsing and the way back *)
Section CsvFiles.
Import Sql Tx Auth Routes Reference Invariants Pool Csv.

Lemma strip_formula_head s a rest :
  strip_formula s = String a rest → formula_char a = false.
Proof.
  induction s as [|b s IH]; simpl; [done|].
  destruct (formula_char b) eqn:Hb; [done|]. by intros [= <- <-].
Qed.

Lemma strip_formula_fixed s :
  (∀ a rest, s = String a rest → formula_char a = false) → strip_formula s = s.
Proof. destruct s as [|a s]; simpl; [done|]. intros H. by rewrite (H a s). Qed.

Lemma strip_formula_suffix s :
  ∃ pre, s = pre +:+ strip_formula s ∧
         ∀ a, has_char a pre = true → formula_char a = true.
Proof.
  induction s as [|b s (pre & Hpre & Hall)]; simpl.
  - by exists EmptyString.
  - destruct (formula_char b) eqn:Hb.
    + exists (String b pre). split.
      * change (String b s = String b (pre +:+ strip_formula s)). by rewrite <- Hpre.
      * intros a. simpl. intros [Ha|Ha]%orb_prop; [|by apply Hall].
        apply Ascii.eqb_eq in Ha. by subst.
    + by exists EmptyString.
Qed.

(** X15. What [csvSafe] strips.  The result never starts with one of
    [= + - @ TAB CR]; it is the value without its longest prefix of such
    characters, a null value counting as the empty string; a value that
    does not start with one is returned as it is, and sanitising twice
    is sanitising once. *)
Theorem csvSafe_strips_formula_prefix value :
  let s := csvSafe value in
  (∀ a rest, s = String a rest → formula_char a = false) ∧
  (∃ pre, Js.text value = pre +:+ s ∧
          ∀ a, has_char a pre = true → formula_char a = true) ∧
  ((∀ a rest, Js.text value = String a rest → formula_char a = false) →
     s = Js.text value) ∧
  csvSafe (Some s) = s.
Proof.
  cbv zeta. unfold csvSafe. split; [|split; [|split]].
  - intros a rest. apply strip_formula_head.
  - apply strip_formula_suffix.
  - apply strip_formula_fixed.
  - simpl. apply strip_formula_fixed. intros a rest. apply strip_formula_head.
Qed.

Lemma csvSafe_strips_formula_prefix_witness :
  csvSafe (Some "VIPER, =SUM(A1)") = Js.text (Some "VIPER, =SUM(A1)").
Proof.
  destruct (csvSafe_strips_formula_prefix (Some "VIPER, =SUM(A1)")) as (_ & _ & H & _).
  apply H. by intros a rest [= <- <-].
Defined.

Example csvSafe_formula :
  csvSafe (Some "=+-@cmd|x") = "cmd|x" ∧ csvSafe (Some " =1+1") = " =1+1" ∧
  csvSafe None = EmptyString.
Proof. done. Qed.

(** *** Strings *)
Lemma has_char_app a s t : has_char a (s +:+ t) = has_char a s || has_char a t.
Proof.
  induction s as [|b s IH]; [done|]. rewrite sapp_cons. simpl. rewrite IH.
  by rewrite orb_assoc.
Qed.

Lemma has_char_strip_formula a s :
  has_char a s = false → has_char a (strip_formula s) = false.
Proof.
  induction s as [|b s IH]; simpl; [done|]. intros [Hb Hs]%orb_false_elim.
  destruct (formula_char b); [by apply IH|]. simpl. by rewrite Hb, Hs.
Qed.

Lemma has_char_trimStart a s : has_char a s = false → has_char a (Js.trimStart s) = false.
Proof.
  induction s as [|b s IH]; simpl; [done|]. intros [Hb Hs]%orb_false_elim.
  destruct (Js.is_space b); [by apply IH|]. simpl. by rewrite Hb, Hs.
Qed.

Lemma has_char_trimEnd a s : has_char a s = false → has_char a (Js.trimEnd s) = false.
Proof.
  induction s as [|b s IH]; simpl; [done|]. intros [Hb Hs]%orb_false_elim.
  specialize (IH Hs). destruct (Js.trimEnd s) as [|c t].
  - destruct (Js.is_space b); simpl; [done|]. by rewrite Hb.
  - simpl in *. by rewrite Hb, IH.
Qed.

Lemma has_char_trim a s : has_char a s = false → has_char a (Js.trim s) = false.
Proof. intros H. unfold Js.trim. by apply has_char_trimEnd, has_char_trimStart. Qed.

(** *** [trim] *)
Lemma trimStart_head s :
  Js.trimStart s = EmptyString ∨
  ∃ a t, Js.trimStart s = String a t ∧ Js.is_space a = false.
Proof.
  induction s as [|a s IH]; simpl; [by left|].
  destruct (Js.is_space a) eqn:Ha; [done|]. right. by exists a, s.
Qed.

Lemma trimStart_nonspace a s : Js.is_space a = false → Js.trimStart (String a s) = String a s.
Proof. intros Ha. simpl. by rewrite Ha. Qed.

Lemma trimEnd_head a s :
  Js.is_space a = false → ∃ t, Js.trimEnd (String a s) = String a t.
Proof.
  intros Ha. simpl. destruct (Js.trimEnd s) as [|b t].
  - rewrite Ha. by eexists.
  - by eexists.
Qed.

Lemma trimEnd_idem s : Js.trimEnd (Js.trimEnd s) = Js.trimEnd s.
Proof.
  induction s as [|a s IH]; simpl; [done|].
  destruct (Js.trimEnd s) as [|b t] eqn:E.
  - destruct (Js.is_space a) eqn:Ha; simpl; [done|]. by rewrite Ha.
  - change (Js.trimEnd (String a (String b t))) with
      (match Js.trimEnd (String b t) with
       | EmptyString => if Js.is_space a then EmptyString else String a EmptyString
       | u => String a u
       end).
    by rewrite IH.
Qed.

Lemma trim_idem s : Js.trim (Js.trim s) = Js.trim s.
Proof.
  unfold Js.trim. destruct (trimStart_head s) as [->|(a & t & -> & Ha)]; [done|].
  destruct (trimEnd_head a t Ha) as (u & Hu).
  rewrite Hu, (trimStart_nonspace a u Ha), <- Hu. apply trimEnd_idem.
Qed.

Lemma trimEnd_fixed_app s t :
  t ≠ EmptyString → Js.trimEnd t = t → Js.trimEnd (s +:+ t) = s +:+ t.
Proof.
  intros Hne Ht. induction s as [|a s IH]; [done|].
  rewrite sapp_cons. simpl. rewrite IH.
  destruct (s +:+ t) eqn:E; [|done].
  destruct s; [done|]. by rewrite sapp_cons in E.
Qed.

(** *** [split] and [join] *)
Lemma split_plain sep s : has_char sep s = false → split sep s = [s].
Proof.
  induction s as [|a s IH]; simpl; [done|]. intros [Ha Hs]%orb_false_elim.
  rewrite Ha. by rewrite IH.
Qed.

Lemma split_app sep s rest :
  has_char sep s = false →
  split sep (s +:+ String sep rest) = s :: split sep rest.
Proof.
  induction s as [|a s IH]; intros H.
  - rewrite sapp_nil_l. simpl. by rewrite Ascii.eqb_refl.
  - simpl in H. apply orb_false_elim in H as [Ha Hs].
    rewrite sapp_cons. simpl. rewrite Ha. by rewrite IH.
Qed.

Lemma join_cons sep x y ys : join sep (x :: y :: ys) = x +:+ sep +:+ join sep (y :: ys).
Proof. done. Qed.

Lemma split_join sep xs :
  xs ≠ [] → Forall (fun x => has_char sep x = false) xs →
  split sep (join (String sep EmptyString) xs) = xs.
Proof.
  intros Hne Hall. induction Hall as [|x xs Hx Hxs IH]; [done|].
  destruct xs as [|y ys].
  - simpl. by apply split_plain.
  - rewrite join_cons, sapp_cons, sapp_nil_l, split_app by done. by rewrite IH.
Qed.

(** *** The scanner *)
Lemma scan_in_quotes f : ∀ rest fields current,
  has_char "034"%char f = false →
  scan (f +:+ rest) fields current true = scan rest fields (current +:+ f) true.
Proof.
  induction f as [|c f IH]; intros rest fields current H.
  - by rewrite sapp_nil_l, sapp_nil_r.
  - simpl in H. apply orb_false_elim in H as [Hc Hf].
    rewrite sapp_cons. simpl. rewrite Hc. rewrite andb_false_r.
    rewrite IH by done. by rewrite sapp_assoc.
Qed.

Lemma scan_quoted f rest fields :
  has_char "034"%char f = false →
  scan (Js.quoted f +:+ rest) fields EmptyString false = scan rest fields f false.
Proof.
  intros Hf. unfold Js.quoted, Js.dquote.
  rewrite !sapp_cons, !sapp_nil_l. simpl.
  rewrite sapp_assoc, scan_in_quotes by done.
  rewrite sapp_cons, sapp_nil_l. by simpl.
Qed.

Lemma scan_comma rest fields current :
  scan (String ","%char rest) fields current false =
    scan rest (fields ++ [Js.trim current])%list EmptyString false.
Proof. done. Qed.

(** *** The records of [parseCsv] *)
Lemma scan_clean line : ∀ fields current inQuote,
  Forall (fun f => Js.trim f = f ∧ has_char "034"%char f = false) fields →
  has_char "034"%char current = false →
  Forall (fun f => Js.trim f = f ∧ has_char "034"%char f = false)
         (scan line fields current inQuote).
Proof.
  induction line as [|c line IH]; intros fields current inQuote Hf Hc; simpl.
  - apply Forall_app. split; [done|]. constructor; [|done].
    split; [apply trim_idem|by apply has_char_trim].
  - destruct (Ascii.eqb c "034"%char) eqn:Hq; [by apply IH|].
    destruct (Ascii.eqb c ","%char && negb inQuote).
    + apply IH; [|done]. apply Forall_app. split; [done|]. constructor; [|done].
      split; [apply trim_idem|by apply has_char_trim].
    + apply IH; [done|]. rewrite has_char_app, Hc. simpl. by rewrite Hq.
Qed.

Lemma field_clean fields idx :
  Forall (fun f => Js.trim f = f ∧ has_char "034"%char f = false) fields →
  Js.trim (field fields idx) = field fields idx ∧
  has_char "034"%char (field fields idx) = false.
Proof.
  intros Hf. unfold field. destruct (fields !! idx) as [f|] eqn:E; simpl; [|done].
  by apply (Forall_lookup_1 _ _ _ _ Hf E).
Qed.

(** X16. What the client's parser yields.  A text whose trimmed form
    has no line feed gives no record, whatever its header; otherwise the
    parser throws or gives records, and in every record the three fields
    are present, free of double quotes and without white space at their
    ends, so that trimming them again changes nothing. *)
Theorem parseCsv_records_clean text :
  (has_char "010"%char (Js.trim text) = false → parseCsv text = Records []) ∧
  (∀ rs, parseCsv text = Records rs → ∀ r, r ∈ rs →
     ∃ c s st, r = Record_ (Some c) (Some s) (Some st) ∧
       (Js.trim c = c ∧ has_char "034"%char c = false) ∧
       (Js.trim s = s ∧ has_char "034"%char s = false) ∧
       (Js.trim st = st ∧ has_char "034"%char st = false)).
Proof.
  split.
  - intros H. unfold parseCsv. by rewrite (split_plain _ _ H).
  - intros rs. unfold parseCsv.
    destruct (split "010"%char (Js.trim text)) as [|first [|second rest]];
      [by intros [= <-] r Hr; apply elem_of_nil in Hr..|].
    cbv zeta.
    destruct (findIndex _ _) as [ci|]; [|done].
    destruct (findIndex _ _) as [si|]; [|done].
    destruct (findIndex _ _) as [sti|]; [|done].
    intros [= <-] r (line & -> & _)%list_elem_of_fmap.
    assert (Forall (fun f => Js.trim f = f ∧ has_char "034"%char f = false)
                   (parse_line line)) as Hclean by (by apply scan_clean).
    eexists _, _, _. split; [done|].
    split; [|split]; by apply field_clean.
Qed.

Lemma parseCsv_records_clean_witness : parseCsv "  Callsign,Skill,Status  " = Records [].
Proof. by apply (parseCsv_records_clean "  Callsign,Skill,Status  "). Defined.

Example doubled_quote_is_dropped :
  parse_line (Js.quoted ("a" +:+ Js.dquote +:+ Js.dquote +:+ "b") +:+ ",c") = ["ab"; "c"].
Proof. done. Qed.

(** *** The lines of the export *)
Lemma plain_quote x : plain x = true → has_char "034"%char (Js.text x) = false.
Proof. unfold plain. intros [H _]%andb_prop. by apply negb_true_iff in H. Qed.

Lemma plain_feed x : plain x = true → has_char "010"%char (Js.text x) = false.
Proof. unfold plain. intros [_ H]%andb_prop. by apply negb_true_iff in H. Qed.

Lemma plain_row_fields row :
  plain_row row = true →
  plain (e_callsign row) = true ∧ plain (e_first_name row) = true ∧
  plain (e_last_name row) = true ∧ plain (e_wing_name row) = true ∧
  plain (e_category row) = true ∧ plain (e_skill_name row) = true ∧
  plain (e_status row) = true ∧ plain (e_last_updated row) = true ∧
  plain (e_updated_by row) = true.
Proof.
  unfold plain_row. intros H.
  do 8 (apply andb_prop in H as [H ?]). repeat split; done.
Qed.

Lemma csvSafe_quote x : plain x = true → has_char "034"%char (csvSafe x) = false.
Proof. intros H. by apply has_char_strip_formula, plain_quote. Qed.

Lemma csvSafe_feed x : plain x = true → has_char "010"%char (csvSafe x) = false.
Proof. intros H. by apply has_char_strip_formula, plain_feed. Qed.

Lemma parse_export_line row :
  plain_row row = true →
  parse_line (export_line row) =
    [Js.trim (csvSafe (e_callsign row)); Js.trim (csvSafe (e_first_name row));
     Js.trim (csvSafe (e_last_name row)); Js.trim (csvSafe (e_wing_name row));
     Js.trim (csvSafe (e_category row)); Js.trim (csvSafe (e_skill_name row));
     Js.trim (csvSafe (e_status row)); Js.trim (Js.text (e_last_updated row));
     Js.trim (csvSafe (e_updated_by row))].
Proof.
  intros (H1 & H2 & H3 & H4 & H5 & H6 & H7 & H8 & H9)%plain_row_fields.
  unfold parse_line, export_line. rewrite !join_cons.
  change (join "," [Js.quoted (csvSafe (e_updated_by row))])
    with (Js.quoted (csvSafe (e_updated_by row))).
  do 7 (rewrite scan_quoted by (by apply csvSafe_quote);
        rewrite sapp_cons, sapp_nil_l, scan_comma).
  rewrite scan_quoted by (by apply plain_quote).
  rewrite sapp_cons, sapp_nil_l, scan_comma.
  rewrite <- (sapp_nil_r (Js.quoted (csvSafe (e_updated_by row)))).
  rewrite scan_quoted by (by apply csvSafe_quote). done.
Qed.

Lemma has_char_quoted a f :
  has_char a (Js.quoted f) = has_char a Js.dquote || has_char a f.
Proof.
  unfold Js.quoted. rewrite !has_char_app.
  destruct (has_char a Js.dquote), (has_char a f); done.
Qed.

Lemma export_line_feed row :
  plain_row row = true → has_char "010"%char (export_line row) = false.
Proof.
  intros (H1 & H2 & H3 & H4 & H5 & H6 & H7 & H8 & H9)%plain_row_fields.
  unfold export_line. rewrite !join_cons.
  change (join "," [Js.quoted (csvSafe (e_updated_by row))])
    with (Js.quoted (csvSafe (e_updated_by row))).
  rewrite !has_char_app, !has_char_quoted.
  rewrite !csvSafe_feed by done. by rewrite plain_feed by done.
Qed.

Lemma export_line_head row : ∃ rest, export_line row = String "034"%char rest.
Proof.
  unfold export_line. rewrite join_cons. unfold Js.quoted at 1, Js.dquote at 1.
  rewrite !sapp_cons, sapp_nil_l. by eexists.
Qed.

Lemma trimEnd_quoted s f : Js.trimEnd (s +:+ Js.quoted f) = s +:+ Js.quoted f.
Proof.
  unfold Js.quoted. rewrite <- !sapp_assoc. by apply trimEnd_fixed_app.
Qed.

Lemma export_line_trimEnd row : Js.trimEnd (export_line row) = export_line row.
Proof.
  unfold export_line. rewrite !join_cons.
  change (join "," [Js.quoted (csvSafe (e_updated_by row))])
    with (Js.quoted (csvSafe (e_updated_by row))).
  rewrite <- !sapp_assoc. apply trimEnd_quoted.
Qed.

Lemma export_line_truthy row : truthy (Js.trim (export_line row)) = true.
Proof.
  destruct (export_line_head row) as (rest & ->). unfold Js.trim.
  rewrite trimStart_nonspace by done.
  by destruct (trimEnd_head "034"%char rest eq_refl) as (t & ->).
Qed.

Lemma header_line :
  join "," export_headers =
    "Callsign,First Name,Last Name,Wing,Category,Skill,Status,Last Updated,Updated By".
Proof. done. Qed.

Lemma trimEnd_join lines :
  lines ≠ [] →
  Forall (fun l => l ≠ EmptyString ∧ Js.trimEnd l = l) lines →
  join (String "010"%char EmptyString) lines ≠ EmptyString ∧
  Js.trimEnd (join (String "010"%char EmptyString) lines) =
    join (String "010"%char EmptyString) lines.
Proof.
  intros Hne Hall. induction Hall as [|x xs [Hx1 Hx2] Hxs IH]; [done|].
  destruct xs as [|y ys]; [done|].
  destruct IH as [IH1 IH2]; [done|]. rewrite join_cons. split.
  - destruct x; [done|]. by rewrite sapp_cons.
  - apply trimEnd_fixed_app; [by rewrite sapp_cons|].
    by apply trimEnd_fixed_app.
Qed.

Lemma filter_Forall_true {A} (f : A → bool) (l : list A) :
  Forall (fun x => f x = true) l → List.filter f l = l.
Proof. induction 1 as [|x l Hx _ IH]; simpl; [done|]. by rewrite Hx, IH. Qed.

Lemma parseCsv_lines text first second rest callsignIdx skillIdx statusIdx :
  split "010"%char (Js.trim text) = first :: second :: rest →
  let headers := (fun h => toLowerCase (unquote (Js.trim h))) <$> split ","%char first in
  findIndex (fun h => String.eqb h "callsign") headers = Some callsignIdx →
  findIndex is_skill_header headers = Some skillIdx →
  findIndex (fun h => String.eqb h "status") headers = Some statusIdx →
  parseCsv text =
    Records ((fun line =>
                Record_ (Some (field (parse_line line) callsignIdx))
                        (Some (field (parse_line line) skillIdx))
                        (Some (field (parse_line line) statusIdx))) <$>
             List.filter (fun l => truthy (Js.trim l)) (second :: rest)).
Proof.
  intros Hsplit headers H1 H2 H3. unfold parseCsv. rewrite Hsplit. cbv zeta.
  fold headers. by rewrite H1, H2, H3.
Qed.

(** X17. An export can be imported.  When no column of the exported
    rows holds a double quote or a line feed, the client's parser reads
    the body of the export back row by row: it finds the callsign, skill
    and status columns among the nine, yields one record per row in the
    order of the rows, and each field is the sanitised column with the
    white space at its ends removed.  Commas inside a column do no
    harm. *)
Theorem export_parses_back rows :
  Forall (fun row => plain_row row = true) rows →
  parseCsv (export_csv rows) = Records (reimported <$> rows).
Proof.
  intros Hplain. destruct rows as [|row rows]; [done|].
  assert (Hl : Forall (fun l => l ≠ EmptyString ∧ Js.trimEnd l = l)
                 (export_line <$> row :: rows)).
  { apply Forall_fmap, Forall_forall. intros r _. simpl. split.
    - by destruct (export_line_head r) as (rest & ->).
    - apply export_line_trimEnd. }
  assert (Htrim : Js.trim (export_csv (row :: rows)) = export_csv (row :: rows)).
  { unfold export_csv, Js.trim. rewrite fmap_cons.
    rewrite join_cons, header_line, sapp_cons, trimStart_nonspace by done.
    rewrite <- sapp_cons. apply trimEnd_fixed_app; [by rewrite sapp_cons|].
    destruct (trimEnd_join (export_line <$> row :: rows)) as [Hne Hfix]; [done..|].
    rewrite fmap_cons in Hne, Hfix. by apply trimEnd_fixed_app. }
  assert (Hsplit : split "010"%char (Js.trim (export_csv (row :: rows)))
                   = join "," export_headers :: export_line row :: (export_line <$> rows)).
  { rewrite Htrim. unfold export_csv. rewrite <- fmap_cons. apply split_join; [done|].
    constructor; [done|]. apply Forall_fmap. eapply Forall_impl; [exact Hplain|].
    intros r Hr. simpl. by apply export_line_feed. }
  rewrite (parseCsv_lines _ _ _ _ 0 5 6 Hsplit) by done.
  f_equal. rewrite <- fmap_cons.
  rewrite filter_Forall_true
    by (apply Forall_fmap, Forall_forall; intros r _; apply export_line_truthy).
  rewrite <- list_fmap_compose. apply Forall_fmap_ext_1.
  eapply Forall_impl; [exact Hplain|]. intros r Hr. simpl.
  by rewrite (parse_export_line r Hr).
Qed.

Lemma export_parses_back_witness :
  let rows :=
    [ExportRow (Some "=VIPER") (Some "Smith, J.") None (Some "Wing 1") (Some "Basic")
               (Some " Startup ") (Some "FMQ") (Some "Mon Jan 01 2024")
               (Some "lead@wing1");
     ExportRow (Some "GHOST") (Some "A") (Some "B") (Some "Wing 1") (Some "Basic")
               (Some "Startup") None None None] in
  parseCsv (export_csv rows) =
    Records [Record_ (Some "VIPER") (Some "Startup") (Some "FMQ");
             Record_ (Some "GHOST") (Some "Startup") (Some EmptyString)].
Proof.
  cbv zeta. rewrite export_parses_back; [done|]. by repeat constructor.
Defined.

End CsvFiles.

(** ** The skill board: pending changes and saving *)
Section SkillBoard.
Import Sql Tx Auth Routes Reference Invariants Pool Csv Board.
Local Open Scope list_scope.

(** *** [find] and [findIndex] *)
Lemma find_app {A} (f : A → bool) (l1 l2 : list A) :
  List.find f (l1 ++ l2) =
    match List.find f l1 with Some x => Some x | None => List.find f l2 end.
Proof. induction l1 as [|x l1 IH]; simpl; [done|]. by destruct (f x). Qed.

Lemma find_none {A} (f : A → bool) (l : list A) :
  List.find f l = None ↔ ∀ x, x ∈ l → f x = false.
Proof.
  induction l as [|x l IH]; simpl.
  - split; [|done]. by intros _ x Hx%elem_of_nil.
  - destruct (f x) eqn:Hx.
    + split; [done|]. intros H. rewrite H in Hx by left. done.
    + rewrite IH. split.
      * intros H y [->|Hy]%elem_of_cons; [done|by apply H].
      * intros H y Hy. apply H. by right.
Qed.

Lemma findIndex_none {A} (f : A → bool) (l : list A) :
  findIndex f l = None ↔ ∀ x, x ∈ l → f x = false.
Proof.
  induction l as [|x l IH]; simpl.
  - split; [|done]. by intros _ x Hx%elem_of_nil.
  - destruct (f x) eqn:Hx.
    + split; [done|]. intros H. rewrite H in Hx by left. done.
    + rewrite fmap_None, IH. split.
      * intros H y [->|Hy]%elem_of_cons; [done|by apply H].
      * intros H y Hy. apply H. by right.
Qed.

Lemma findIndex_some {A} (f : A → bool) (l : list A) i :
  findIndex f l = Some i →
  ∃ l1 x l2, l = l1 ++ x :: l2 ∧ length l1 = i ∧ f x = true ∧
             ∀ y, y ∈ l1 → f y = false.
Proof.
  revert i. induction l as [|x l IH]; intros i; simpl; [done|].
  destruct (f x) eqn:Hx.
  - intros [= <-]. exists [], x, l. repeat split; try done. by intros y Hy%elem_of_nil.
  - destruct (findIndex f l) as [j|] eqn:E; [|done]. simpl. intros [= <-].
    destruct (IH j eq_refl) as (l1 & y & l2 & -> & Hlen & Hy & Hl1).
    exists (x :: l1), y, l2. repeat split; try done.
    + simpl. by rewrite Hlen.
    + intros z [->|Hz]%elem_of_cons; [done|by apply Hl1].
Qed.

Lemma find_filter_keep {A} (f g : A → bool) (l : list A) :
  (∀ x, f x = true → g x = true) → List.find f (List.filter g l) = List.find f l.
Proof.
  intros H. induction l as [|x l IH]; simpl; [done|].
  destruct (f x) eqn:Hf.
  - rewrite (H x Hf). simpl. by rewrite Hf.
  - destruct (g x); simpl; [by rewrite Hf|done].
Qed.

Lemma find_filter_drop {A} (f g : A → bool) (l : list A) :
  (∀ x, g x = true → f x = false) → List.find f (List.filter g l) = None.
Proof.
  intros H. apply find_none. intros x [_ Hx]%elem_of_List_filter. by apply H.
Qed.

Lemma filter_reverse {A} (g : A → bool) (l : list A) :
  reverse (List.filter g l) = List.filter g (reverse l).
Proof.
  induction l as [|x l IH]; simpl; [done|].
  rewrite reverse_cons, List.filter_app. simpl.
  destruct (g x); [by rewrite reverse_cons, IH|by rewrite app_nil_r].
Qed.

(** *** Cells and changes *)
Lemma at_cell_true p s q : at_cell p s q = true ↔ c_pilot_id q = p ∧ c_skill_id q = s.
Proof. unfold at_cell. by rewrite andb_true_iff, !Nat.eqb_eq. Qed.

Lemma for_cell_true p s c : for_cell p s c = true ↔ pilotId c = p ∧ skillId c = s.
Proof. unfold for_cell. by rewrite andb_true_iff, !Nat.eqb_eq. Qed.

Lemma at_cell_other p s q c :
  at_cell (pilotId c) (skillId c) q = true → for_cell p s c = false →
  at_cell p s q = false.
Proof.
  intros [H1 H2]%at_cell_true Hc. apply not_true_is_false.
  intros [H3 H4]%at_cell_true. apply not_true_iff_false in Hc. apply Hc.
  apply for_cell_true. split; congruence.
Qed.

Lemma apply_change_status result c p s :
  c_status <$> List.find (at_cell p s) (apply_change result c) =
    if for_cell p s c then Some (new_status c)
    else c_status <$> List.find (at_cell p s) result.
Proof.
  unfold apply_change.
  destruct (findIndex (at_cell (pilotId c) (skillId c)) result) as [idx|] eqn:E.
  - apply findIndex_some in E as (l1 & x & l2 & -> & <- & Hx & Hl1).
    rewrite alter_app_r_alt by done. rewrite Nat.sub_diag. simpl.
    rewrite !find_app. simpl.
    change (at_cell p s (Cell (c_pilot_id x) (c_skill_id x) (new_status c)))
      with (at_cell p s x).
    destruct (for_cell p s c) eqn:Hc.
    + apply for_cell_true in Hc as [<- <-].
      rewrite (proj2 (find_none _ _) Hl1). by rewrite Hx.
    + destruct (List.find (at_cell p s) l1); [done|].
      by rewrite (at_cell_other p s x c Hx Hc).
  - rewrite find_app. simpl.
    pose proof (proj1 (findIndex_none _ _) E) as Hnone.
    destruct (List.find (at_cell p s) result) as [y|] eqn:Hy.
    + apply find_some in Hy as [Hin Hy]. apply list_elem_of_In in Hin.
      destruct (for_cell p s c) eqn:Hc; [|done].
      apply for_cell_true in Hc as [<- <-]. rewrite (Hnone y Hin) in Hy. done.
    + change (at_cell p s (Cell (pilotId c) (skillId c) (new_status c)))
        with (for_cell p s c).
      by destruct (for_cell p s c).
Qed.

(** The matrix shows the last pending change of a cell, and the fetched
    status where there is none. *)
Lemma shown_spec quals pend p s :
  shown quals pend p s =
    match List.find (for_cell p s) (reverse pend) with
    | Some c => Some (new_status c)
    | None => c_status <$> List.find (at_cell p s) quals
    end.
Proof.
  unfold shown, getQualification.
  assert (effectiveQualifications quals pend = foldl apply_change quals pend) as ->
    by (by destruct pend).
  induction pend as [|c pend IH] using rev_ind; [done|].
  rewrite foldl_app, reverse_app. simpl. rewrite apply_change_status.
  by destruct (for_cell p s c).
Qed.

Lemma for_cell_key p s c :
  for_cell p s c = false ↔ (pilotId c, skillId c) ≠ (p, s).
Proof.
  rewrite <- not_true_iff_false, for_cell_true. split.
  - intros H [= ? ?]. by apply H.
  - intros H [? ?]. apply H. congruence.
Qed.

Lemma one_per_cell_split l1 c l2 :
  one_per_cell (l1 ++ c :: l2) →
  (∀ x, x ∈ l1 → for_cell (pilotId c) (skillId c) x = false) ∧
  (∀ x, x ∈ l2 → for_cell (pilotId c) (skillId c) x = false).
Proof.
  unfold one_per_cell. rewrite fmap_app, fmap_cons.
  intros (Hl1 & Hdis & [Hc Hl2]%NoDup_cons)%NoDup_app. split.
  - intros x Hx. apply for_cell_key. intros Hk. apply (Hdis (pilotId x, skillId x)).
    + by apply (list_elem_of_fmap_2 (fun c => (pilotId c, skillId c))).
    + rewrite Hk. by left.
  - intros x Hx. apply for_cell_key. intros Hk. apply Hc. rewrite <- Hk.
    by apply (list_elem_of_fmap_2 (fun c => (pilotId c, skillId c))).
Qed.

(** X18. Editing a cell of the board.  Starting from pending changes
    with at most one change per cell, [handleCellUpdate] keeps at most
    one change per cell and never keeps a change that repeats the fetched
    status; afterwards the matrix shows the chosen status in the edited
    cell and what it showed before in every other cell. *)
Theorem cell_update_shows_choice quals pid sid status prev :
  one_per_cell prev →
  let next := handleCellUpdate quals pid sid status prev in
  one_per_cell next ∧
  (all_differ quals prev → all_differ quals next) ∧
  shown quals next pid sid = Some status ∧
  (∀ p s, (p, s) ≠ (pid, sid) → shown quals next p s = shown quals prev p s).
Proof.
  intros Hone. cbv zeta. unfold handleCellUpdate.
  case_bool_decide as Horig.
  - (* the choice is the fetched status *)
    split; [|split; [|split]].
    + by apply NoDup_fmap_List_filter.
    + intros Hd c [Hc _]%elem_of_List_filter. by apply Hd.
    + rewrite shown_spec, filter_reverse.
      rewrite find_filter_drop; [done|]. intros x. by destruct (for_cell pid sid x).
    + intros p s Hne. rewrite !shown_spec, filter_reverse.
      rewrite find_filter_keep; [done|]. intros x [<- <-]%for_cell_true.
      apply negb_true_iff, for_cell_key. congruence.
  - destruct (findIndex (for_cell pid sid) prev) as [i|] eqn:E.
    + (* a change of the cell is replaced *)
      apply findIndex_some in E as (l1 & c0 & l2 & -> & <- & Hc0 & _).
      apply for_cell_true in Hc0 as [Hp Hs].
      destruct (one_per_cell_split _ _ _ Hone) as [Hl1 Hl2]. rewrite Hp, Hs in Hl1, Hl2.
      rewrite insert_app_r_alt by done. rewrite Nat.sub_diag. simpl.
      split; [|split; [|split]].
      * unfold one_per_cell in *. rewrite fmap_app, fmap_cons in *. simpl.
        by rewrite <- Hp, <- Hs.
      * intros Hd c [Hc|[->|Hc]%elem_of_cons]%elem_of_app.
        -- apply Hd. apply elem_of_app. by left.
        -- simpl. unfold getQualification. intros H. apply Horig. by rewrite H.
        -- apply Hd. apply elem_of_app. right. by right.
      * rewrite shown_spec, reverse_app, reverse_cons, find_app, find_app.
        rewrite (proj2 (find_none _ (reverse l2)))
          by (intros x Hx; apply Hl2; by apply elem_of_reverse).
        simpl. unfold for_cell. simpl. by rewrite !Nat.eqb_refl.
      * intros p s Hne.
        rewrite !shown_spec, !reverse_app, !reverse_cons, !find_app. simpl.
        replace (for_cell p s (Change pid sid status)) with false
          by (symmetry; apply for_cell_key; simpl; congruence).
        replace (for_cell p s c0) with false
          by (symmetry; apply for_cell_key; congruence).
        done.
    + (* a change of the cell is added *)
      pose proof (proj1 (findIndex_none _ _) E) as Hnone.
      split; [|split; [|split]].
      * unfold one_per_cell in *. rewrite fmap_app. apply NoDup_app.
        split; [done|]. split; [|apply NoDup_singleton].
        intros k (c & -> & Hc)%list_elem_of_fmap Hk. simpl in Hk.
        apply list_elem_of_singleton in Hk. specialize (Hnone c Hc).
        by apply for_cell_key in Hnone.
      * intros Hd c [Hc| ->%list_elem_of_singleton]%elem_of_app; [by apply Hd|].
        simpl. unfold getQualification. intros H. apply Horig. by rewrite H.
      * rewrite shown_spec, reverse_app. simpl. unfold for_cell. simpl.
        by rewrite !Nat.eqb_refl.
      * intros p s Hne. rewrite !shown_spec, reverse_app. simpl.
        replace (for_cell p s (Change pid sid status)) with false
          by (symmetry; apply for_cell_key; simpl; congruence).
        done.
Qed.

Lemma cell_update_shows_choice_witness :
  let quals := [Cell 1 10 "NMQ"; Cell 1 11 "FMQ"] in
  let prev := [Change 1 10 "MQT"] in
  shown quals (handleCellUpdate quals 1 10 "FMQ" prev) 1 10 = Some "FMQ" ∧
  one_per_cell (handleCellUpdate quals 1 10 "NMQ" prev).
Proof.
  cbv zeta.
  assert (one_per_cell [Change 1 10 "MQT"]) as Hone
    by (apply NoDup_singleton).
  split.
  - by apply (cell_update_shows_choice [Cell 1 10 "NMQ"; Cell 1 11 "FMQ"] 1 10 "FMQ" _ Hone).
  - by apply (cell_update_shows_choice [Cell 1 10 "NMQ"; Cell 1 11 "FMQ"] 1 10 "NMQ" _ Hone).
Defined.

Example reverting_clears_the_change :
  handleCellUpdate [Cell 1 10 "NMQ"] 1 10 "NMQ" [Change 1 10 "MQT"; Change 2 10 "IP"]
    = [Change 2 10 "IP"].
Proof. done. Qed.

(** *** Saving *)
Lemma update_outcomes faults u clock i c d :
  let out := update faults u clock i c d in
  (committed out.2 = d ∧ ∀ p s q, out.1 ≠ Row p s q) ∨
  ((∃ q, out.1 = Row (pilotId c) (skillId c) q) ∧
   committed out.2 =
     set_qualifications
       (<[(pilotId c, skillId c) := Qualification (new_status c) (clock i) (email u)]>
          (Sql.qualifications d)) d).
Proof.
  cbv zeta. unfold update.
  destruct (put_outcomes (faults i) u (clock i)
              (PutBody (Some (pilotId c)) (Some (skillId c)) (Some (new_status c))) d)
    as [?|(pid & sid & st & [= <-] & [= <-] & [= <-] & _ & _ & _ & Hans & Hcom & _)];
    [by left|right].
  split; [by eexists|done].
Qed.

Lemma save_loop_spec faults u clock changes : ∀ i d,
  let out := save_loop faults u clock i changes d in
  ∃ k, (k ≤ length changes)%nat ∧
       out.2 = stored u clock i (take k changes) d ∧
       (out.1 = None ↔ k = length changes) ∧
       (∀ r, out.1 = Some r →
          (∀ p s q, r ≠ Row p s q) ∧
          ∃ c, changes !! k = Some c ∧
               r = (update faults u clock (i + k) c
                      (stored u clock i (take k changes) d)).1).
Proof.
  induction changes as [|c rest IH]; intros i d; cbv zeta.
  { exists 0%nat. simpl. repeat split; done. }
  cbn [save_loop]. cbv zeta.
  destruct (update_outcomes faults u clock i c d) as [[Hsame Hno]|[[q Hrow] Hcom]].
  - exists 0%nat. cbn [take stored length]. rewrite Nat.add_0_r.
    destruct (update faults u clock i c d).1 eqn:Hr;
      try (by edestruct Hno); cbn [fst snd];
      (split; [lia|]; split; [done|]; split; [done|];
       intros r [= <-]; split; [done|]; exists c; by rewrite Hr).
  - rewrite Hrow, Hcom.
    destruct (IH (S i)
                (set_qualifications
                   (<[(pilotId c, skillId c) :=
                        Qualification (new_status c) (clock i) (email u)]>
                      (Sql.qualifications d)) d))
      as (k & Hk & Hd & Hnone & Hsome).
    exists (S k). cbn [take stored length lookup list_lookup].
    split; [lia|]. split; [done|]. split.
    + rewrite Hnone. lia.
    + intros r Hr. replace (i + S k)%nat with (S i + k)%nat by lia. by apply Hsome.
Qed.

Lemma stored_tables u clock changes : ∀ i d,
  pilots (stored u clock i changes d) = pilots d ∧
  skills (stored u clock i changes d) = skills d.
Proof.
  induction changes as [|c rest IH]; intros i d; simpl; [done|].
  by destruct (IH (S i)
                 (set_qualifications
                    (<[(pilotId c, skillId c) :=
                         Qualification (new_status c) (clock i) (email u)]>
                       (Sql.qualifications d)) d)).
Qed.

Lemma stored_lookup u clock changes p s : ∀ i d,
  q_status <$> Sql.qualifications (stored u clock i changes d) !! (p, s) =
    match List.find (for_cell p s) (reverse changes) with
    | Some c => Some (new_status c)
    | None => q_status <$> Sql.qualifications d !! (p, s)
    end.
Proof.
  induction changes as [|c rest IH]; intros i d; [done|].
  cbn [stored]. rewrite IH, reverse_cons, find_app.
  destruct (List.find (for_cell p s) (reverse rest)); [done|]. simpl.
  destruct (for_cell p s c) eqn:Hc.
  - apply for_cell_true in Hc as [<- <-]. by rewrite lookup_insert_eq.
  - apply for_cell_key in Hc. by rewrite lookup_insert_ne.
Qed.

Lemma find_cells (rows : list qrow) (m : gmap (nat * nat) qualification) p s :
  (∀ pid sid q, (pid, sid, q) ∈ rows ↔ m !! (pid, sid) = Some q) →
  c_status <$> List.find (at_cell p s) (cells rows) = q_status <$> m !! (p, s).
Proof.
  intros Hrows. destruct (List.find (at_cell p s) (cells rows)) as [y|] eqn:Hy.
  - apply find_some in Hy as [Hin [Hp Hs]%at_cell_true].
    apply list_elem_of_In, list_elem_of_fmap in Hin as ([[pid sid] q] & -> & Hin).
    simpl in *. subst. apply Hrows in Hin. by rewrite Hin.
  - destruct (m !! (p, s)) as [q|] eqn:Hq; [|done].
    apply Hrows in Hq. pose proof (proj1 (find_none _ _) Hy) as Hnone.
    specialize (Hnone (Cell p s (q_status q))).
    rewrite (proj2 (at_cell_true p s _)) in Hnone by done.
    exfalso. assert (true = false) by (apply Hnone; unfold cells;
      by apply (list_elem_of_fmap_2 (fun r : qrow => Cell r.1.1 r.1.2 (q_status r.2))
                  _ (p, s, q))). done.
Qed.

(** X19. Saving is one PUT after the other and is not a transaction.
    The loop of [handleSave] stores the pending changes in their order
    and stops at the first answer that is not ok: the changes before it
    stay stored, the changes after it are never sent, and the loop ends
    without an error exactly when every change was stored. *)
Theorem save_stores_a_prefix faults u clock changes d :
  let out := save_loop faults u clock 0 changes d in
  ∃ k, (k ≤ length changes)%nat ∧
       out.2 = stored u clock 0 (take k changes) d ∧
       (out.1 = None ↔ k = length changes) ∧
       (∀ r, out.1 = Some r →
          (∀ p s q, r ≠ Row p s q) ∧
          ∃ c, changes !! k = Some c ∧
               r = (update faults u clock k c (stored u clock 0 (take k changes) d)).1) ∧
       (∀ p s, q_status <$> Sql.qualifications out.2 !! (p, s) =
          match List.find (for_cell p s) (reverse (take k changes)) with
          | Some c => Some (new_status c)
          | None => q_status <$> Sql.qualifications d !! (p, s)
          end).
Proof.
  cbv zeta. destruct (save_loop_spec faults u clock changes 0 d)
    as (k & Hk & Hd & Hnone & Hsome).
  exists k. split; [done|]. split; [done|]. split; [done|]. split; [done|].
  intros p s. rewrite Hd. apply stored_lookup.
Qed.

Example second_change_refused :
  let changes := [Change 1 10 "FMQ"; Change 2 20 "IP"; Change 1 11 "MQT"] in
  let out := save_loop (fun _ => no_faults) Example.instructor1 (fun i => i) 0 changes
               Example.trained_squadron in
  out.1 = Some (Error 403 "Instructors can only edit pilots in their own wing") ∧
  q_status <$> Sql.qualifications out.2 !! (1, 10)%nat = Some "FMQ" ∧
  q_status <$> Sql.qualifications out.2 !! (1, 11)%nat = Some "IP".
Proof. by vm_compute. Qed.

(** X20. What the board shows is what a save stores.  When the page is
    in step with the tables and a save settles without an error, no
    change is pending any more, the page is in step with the tables
    again, and every cell holds the status the matrix showed before the
    save.  When a save settles with an error, the page keeps the
    qualifications and all the pending changes it had. *)
Theorem save_keeps_what_is_shown faults u clock quals pending err d pg d' :
  in_sync quals d →
  handleSave faults u clock (Page quals pending err) d = (Some pg, d') →
  (saveError pg = None → pending ≠ [] →
     pendingChanges pg = [] ∧ in_sync (Board.qualifications pg) d' ∧
     ∀ p s, c_status <$> getQualification (Board.qualifications pg) p s
            = shown quals pending p s) ∧
  (saveError pg ≠ None →
     Board.qualifications pg = quals ∧ pendingChanges pg = pending).
Proof.
  intros Hsync. unfold handleSave. cbn [pendingChanges Board.qualifications].
  destruct pending as [|c rest]; [by intros [= <- <-]|].
  set (pending := c :: rest).
  destruct (save_loop_spec faults u clock pending 0 d) as (k & Hk & Hd & Hnone & _).
  destruct (save_loop faults u clock 0 pending d) as [[r|] d1] eqn:Hloop;
    cbn [fst snd] in *.
  - destruct r; intros [= <- <-]; cbn [saveError]; by split.
  - rewrite get_run.
    cbn [fst snd tables].
    destruct (faults (length pending) 0%nat); intros [= <- <-]; cbn [saveError];
      (split; [|done]).
    + done.
    + intros _ _. cbn [pendingChanges Board.qualifications]. split; [done|].
      destruct (select_all_spec d1) as (_ & _ & Hrows).
      rewrite (proj1 Hnone eq_refl), firstn_all in Hd.
      split.
      * intros p s. unfold getQualification. by apply find_cells.
      * intros p s. unfold getQualification. rewrite (find_cells _ _ p s Hrows).
        rewrite Hd, stored_lookup, shown_spec. fold pending.
        destruct (List.find (for_cell p s) (reverse pending)); [done|].
        symmetry. apply Hsync.
Qed.

Lemma cells_in_sync d : in_sync (cells (select_all d)) d.
Proof.
  intros p s. unfold getQualification. apply find_cells.
  by destruct (select_all_spec d) as (_ & _ & Hrows).
Qed.

Lemma save_keeps_what_is_shown_witness :
  let quals := cells (select_all Example.trained_squadron) in
  let pending := [Change 3 12 "IP"; Change 1 10 "MQT"] in
  match handleSave (fun _ => no_faults) Example.admin (fun i => i)
          (Page quals pending None) Example.trained_squadron with
  | (Some pg, d') =>
      pendingChanges pg = [] ∧
      c_status <$> getQualification (Board.qualifications pg) 3 12 = Some "IP" ∧
      in_sync (Board.qualifications pg) d'
  | _ => False
  end.
Proof.
  cbv zeta.
  assert (saveError <$> (handleSave (fun _ => no_faults) Example.admin (fun i => i)
            (Page (cells (select_all Example.trained_squadron))
                  [Change 3 12 "IP"; Change 1 10 "MQT"] None)
            Example.trained_squadron).1 = Some None) as Hok by (by vm_compute).
  destruct (handleSave _ _ _ _ _) as [[pg|] d'] eqn:E; [|done].
  simpl in Hok. injection Hok as Hok.
  destruct (save_keeps_what_is_shown _ _ _ _ _ _ _ _ _
              (cells_in_sync Example.trained_squadron) E) as [H _].
  destruct (H Hok) as (Hp & Hs & Hshown); [done|].
  split; [done|]. split; [|done]. by rewrite Hshown.
Defined.

End SkillBoard.

(** ** The import page: from the file to the report *)
Section ImportFile.
Import Sql Tx Auth Routes Reference Invariants Csv ImportPage.

(** The answers of the import to a batch that is not empty. *)
Lemma bulk_answers faults connects u now d rs :
  rs ≠ [] →
  let out := run (bulk_import faults connects u now (Array rs)) (connect d) in
  (out.1 = Error 403 "Insufficient permissions" ∧ committed out.2 = d) ∨
  (out.1 = Error 400 "Maximum 1000 records per import" ∧ committed out.2 = d) ∨
  (out.1 = Error 500 "Internal server error" ∧ committed out.2 = d) ∨
  (out.1 = Unanswered ∧ committed out.2 = d) ∨
  (∃ a b es, out.1 = Report a b es ∧ (a + b)%nat = length rs ∧
             (length es ≤ 20)%nat ∧ committed out.2 = effect_loop u now d 0 rs d).
Proof.
  intros Hne. cbv zeta.
  destruct (requireRole ["instructor"; "admin"] u) eqn:Hrole.
  2:{ left. unfold bulk_import, run. by rewrite Hrole. }
  destruct (1000 <? length rs)%nat eqn:Hbig.
  { right. left. unfold bulk_import, run. rewrite Hrole. cbn [negb].
    destruct rs as [|r rs]; [done|]. by rewrite Hbig. }
  apply Nat.ltb_ge in Hbig.
  destruct connects.
  2:{ rewrite (bulk_import_no_client faults u now rs _ Hrole Hne Hbig).
      right; right; right; by left. }
  pose proof (bulk_import_run faults u now d rs Hrole Hne Hbig) as H. cbv zeta in H.
  destruct (first_fault faults 0 (length (plan_bulk u d rs))).
  - destruct H as (txf & -> & _). cbn [fst snd committed].
    destruct (faults (S n)); [right; right; right; by left|right; right; by left].
  - destruct (report_covers_batch _ _ _ _ _ _ _ _ _ _ H) as [Hsum _].
    rewrite H. cbn [fst snd committed]. do 4 right.
    eexists _, _, _. split; [done|]. split; [done|]. split; [|done].
    unfold Js.slice0. rewrite length_take. lia.
Qed.

(** X21. From the file to the report.  Whatever the text of the file,
    the caller and the failing statements: when the import page shows a
    result, the file parsed into at least one record, imported plus
    skipped is the number of its data lines that are not blank, at most
    20 messages are shown and the tables are those of the whole batch;
    in every other case the tables are as they were.  The page never
    sends an empty batch, so it is never answered that the records array
    is required. *)
Theorem import_page_reports_every_line faults connects u now text d :
  let out := handleFile faults connects u now text d in
  match out.1 with
  | Some (ShowResult imported skipped errors) =>
      ∃ rs, parseCsv text = Records rs ∧ rs ≠ [] ∧
        (imported + skipped)%nat = length rs ∧
        length rs = length (List.filter (fun l => truthy (Js.trim l))
                              (tail (split "010"%char (Js.trim text)))) ∧
        (length errors ≤ 20)%nat ∧
        out.2 = effect_loop u now d 0 rs d
  | Some (ShowError message) =>
      out.2 = d ∧ message ≠ "records array is required"
  | None => out.2 = d
  end.
Proof.
  cbv zeta. unfold handleFile.
  destruct (parseCsv text) as [message|rs] eqn:Hparse.
  { cbn [fst snd]. split; [done|]. unfold parseCsv in Hparse.
    destruct (split "010"%char (Js.trim text)) as [|first [|second rest]]; [done..|].
    cbv zeta in Hparse.
    destruct (findIndex _ _); [destruct (findIndex _ _);
      [destruct (findIndex _ _); [done|]|]|]; by injection Hparse as <-. }
  destruct rs as [|r rs]; [done|].
  destruct (bulk_answers faults connects u now d (r :: rs)) as
    [[-> ->]|[[-> ->]|[[-> ->]|[[-> ->]|(a & b & es & -> & Hsum & Hes & ->)]]]];
    [done..|].
  exists (r :: rs). split; [done|]. split; [done|]. split; [done|].
  split; [|done]. unfold parseCsv in Hparse.
  destruct (split "010"%char (Js.trim text)) as [|first [|second rest]];
    [by injection Hparse..|].
  cbv zeta in Hparse.
  destruct (findIndex _ _); [|done]. destruct (findIndex _ _); [|done].
  destruct (findIndex _ _); [|done]. injection Hparse as Hrs.
  rewrite <- Hrs. by rewrite length_fmap.
Qed.

Example file_to_report :
  (handleFile no_faults true Example.instructor1 7
     ("Callsign,Skill,Status" +:+ String "010"%char
        ("viper,startup,fmq" +:+ String "010"%char
           ("   " +:+ String "010"%char "ghost,landing,ip")))
     Example.squadron).1
  = Some (ShowResult 1 1 [msg_pilot_other_wing 1 "ghost"]).
Proof. by vm_compute. Qed.

End ImportFile.

(** ** The bearer token *)
Section BearerToken.
Import Auth Csv Middleware.

Lemma startsWith_app prefix s : startsWith (prefix +:+ s) prefix = true.
Proof.
  induction prefix as [|a prefix IH]; [reflexivity|].
  rewrite sapp_cons. simpl. by rewrite Ascii.eqb_refl, IH.
Qed.

(** X22. The header the client builds is the header the middleware
    reads.  For a stored token without a space, [authenticate] hands
    exactly that token to the verifier: the request goes on as the
    decoded user when the verifier accepts it and is answered 401
    [Invalid token] when it does not.  Without a stored token, or with an
    empty one, no header is sent and the answer is 401 [No token
    provided].  Of a token with a space only the part before the space is
    verified. *)
Theorem bearer_header_round_trip verify :
  (∀ token, token ≠ EmptyString → has_char " "%char token = false →
     authenticate verify (authHeaders (Some token)) =
       match verify token with
       | Some decoded => Next decoded
       | None => Reject 401 "Invalid token"
       end) ∧
  authenticate verify (authHeaders None) = Reject 401 "No token provided" ∧
  authenticate verify (authHeaders (Some EmptyString)) = Reject 401 "No token provided" ∧
  (∀ token rest, token ≠ EmptyString → has_char " "%char token = false →
     authenticate verify (authHeaders (Some (token +:+ " " +:+ rest))) =
     authenticate verify (authHeaders (Some token))).
Proof.
  assert (Hgo : ∀ token tail, token ≠ EmptyString → has_char " "%char token = false →
            (tail = EmptyString ∨ ∃ rest, tail = " " +:+ rest) →
            authenticate verify (authHeaders (Some (token +:+ tail))) =
              match verify token with
              | Some decoded => Next decoded
              | None => Reject 401 "Invalid token"
              end).
  { intros token tail Hne Hsp Htail. unfold authHeaders.
    replace (Js.falsy (Some (token +:+ tail))) with false
      by (destruct token; [done|by rewrite sapp_cons]).
    unfold authenticate.
    change (Js.text (Some (token +:+ tail))) with (token +:+ tail).
    change (Js.text (Some ("Bearer " +:+ token +:+ tail)))
      with ("Bearer " +:+ token +:+ tail).
    rewrite startsWith_app.
    replace (Js.falsy (Some ("Bearer " +:+ token +:+ tail))) with false by done.
    cbn [orb negb].
    change ("Bearer " +:+ token +:+ tail) with ("Bearer" +:+ String " " (token +:+ tail)).
    rewrite split_app by done.
    destruct Htail as [->|(rest & ->)].
    - rewrite sapp_nil_r, split_plain by done. done.
    - change (token +:+ " " +:+ rest) with (token +:+ String " " rest).
      rewrite split_app by done. done. }
  split; [|split; [done|split; [done|]]].
  - intros token Hne Hsp. rewrite <- (sapp_nil_r token) at 1. apply Hgo; auto.
  - intros token rest Hne Hsp. rewrite (Hgo token (" " +:+ rest)) by eauto.
    rewrite <- (sapp_nil_r token) at 2. symmetry. apply Hgo; auto.
Qed.

Lemma bearer_header_round_trip_witness :
  let verify := fun t : string =>
    if String.eqb t "h.p.s" then Some (User "lead@wing1" "instructor" (Some 1%nat))
    else None in
  authenticate verify (authHeaders (Some "h.p.s")) =
    Next (User "lead@wing1" "instructor" (Some 1%nat)).
Proof.
  cbv zeta.
  destruct (bearer_header_round_trip
              (fun t : string =>
                 if String.eqb t "h.p.s"
                 then Some (User "lead@wing1" "instructor" (Some 1%nat)) else None))
    as (H & _).
  by rewrite H.
Defined.

Example lower_case_scheme_is_refused :
  authenticate (fun _ => Some (User "lead@wing1" "admin" None)) (Some "bearer h.p.s")
    = Reject 401 "No token provided".
Proof. done. Qed.

End BearerToken.
